(** * Localization scripts: resilient requests, pagination, link scheduling,
      quota pruning and bulk import

    A shallow embedding of the operator scripts of the repository:
    - [KeyLinkr]        : src/KeyLinkr.py (asyncio key linking client),
    - [ExcessUsers]     : src/remove_excess_users.py (user quota pruning),
    - [BulkImport]      : the bulk import tool (validate_row, bulk_import),
    - [Scheduler]       : the link tasks of KeyLinkr.py under the event loop.

    Effects are explicit: every function that talks to the network or prints
    is a computation over a world (state of the remote service, trace of
    observable events) that ends in a value, an exception, a process exit, or
    runs out of loop fuel. *)

From Stdlib Require Import Ascii String.
From stdpp Require Import base option list gmap strings numbers sorting.

Local Open Scope Z_scope.
Local Open Scope string_scope.

(** ** Python outcomes shared by the three scripts

    [MaxRetriesExceeded] is the [Exception] of line 81 of KeyLinkr.py. A
    computation ends in a value, an exception, [sys.exit], or not at all
    ([Diverge]: a loop out of fuel, a task waiting for a permit that nobody
    gives back). *)

Inductive Exn :=
| ClientConnectionError
| TimeoutError
| UnicodeDecodeError
| JSONDecodeError
| AttributeError
| ValueError
| HTTPError (status : nat)
| TypeError (what : string)
| KeyError (key : string)
| IndexError
| RetryError
| MaxRetriesExceeded.

Inductive Res (A : Type) :=
| Ok (a : A)
| Raise (e : Exn)
| Exit (code : Z)
| Diverge.
Arguments Ok {A} a.
Arguments Raise {A} e.
Arguments Exit {A} code.
Arguments Diverge {A}.

#[global] Instance Exn_eq_dec : EqDecision Exn.
Proof. solve_decision. Defined.

(** Truthiness of the Python values the scripts test with [if x] / [not x]. *)
Definition truthy_str (s : string) : bool := negb (String.eqb s "").
Definition truthy_ostr (o : option string) : bool :=
  match o with Some s => truthy_str s | None => false end.
Definition truthy_list {A} (l : list A) : bool :=
  match l with [] => false | _ => true end.

(** [sep.join(l)] *)
Fixpoint join (sep : string) (l : list string) : string :=
  match l with
  | [] => ""
  | [x] => x
  | x :: rest => x ++ sep ++ join sep rest
  end.

(** ** Computations over a world [W] *)

Definition M (W A : Type) : Type := W -> Res A * W.

Section Monad.

Context {W : Type}.

Definition ret {A} (a : A) : M W A := fun w => (Ok a, w).
Definition raise {A} (e : Exn) : M W A := fun w => (Raise e, w).
Definition sys_exit {A} (code : Z) : M W A := fun w => (Exit code, w).
Definition diverge {A} : M W A := fun w => (Diverge, w).
Definition lift {A} (r : Res A) : M W A := fun w => (r, w).
Definition bind {A B} (m : M W A) (k : A -> M W B) : M W B :=
  fun w => match m w with
           | (Ok a, w') => k a w'
           | (Raise e, w') => (Raise e, w')
           | (Exit c, w') => (Exit c, w')
           | (Diverge, w') => (Diverge, w')
           end.

(** [try: m except E as e: h e] for the exceptions [E] that [catches]
    accepts; [sys.exit] is never caught by the handlers of the scripts. *)
Definition try_except {A} (catches : Exn -> bool) (m : M W A) (h : Exn -> M W A) : M W A :=
  fun w => match m w with
           | (Raise e, w') => if catches e then h e w' else (Raise e, w')
           | r => r
           end.

End Monad.

Definition any_Exception (e : Exn) : bool := true.
Definition is_KeyError (e : Exn) : bool :=
  match e with KeyError _ => true | _ => false end.

Notation "'let!' x ':=' m 'in' k" := (bind m (fun x => k))
  (at level 10, x name, m at level 100, k at level 200).
Notation "'let!' ' p ':=' m 'in' k" := (bind m (fun x => match x with p => k end))
  (at level 10, p pattern, m at level 100, k at level 200).
Notation "'run!' m 'in' k" := (bind m (fun _ => k))
  (at level 10, m at level 100, k at level 200).

(** [for x in l: acc = body acc x] *)
Fixpoint for_each {W A B} (l : list A) (acc : B) (body : B -> A -> M W B) : M W B :=
  match l with
  | [] => ret acc
  | x :: rest => let! acc' := body acc x in for_each rest acc' body
  end.

Module KeyLinkr.

(** ** Data exchanged with the Phrase API

    JSON objects are typed as the API documents them; a field is [None] when
    the key is absent from the object ([d.get(k)] gives [None], [d[k]] raises
    [KeyError]). *)

Record Key := { key_id : option string; key_name : option string }.
Record Project := { proj_id : string }.

(** Body of [GET .../key_links]: [data.get('children', [])]. *)
Record KeyLinks := { children : option (list Key) }.

(** Body of the reply to [POST .../key_links]: a JSON object, of which the
    script reads [message] and [errors[0].message]. [reply_errors] is the
    list under [errors], each of its objects with its [message] if it has
    one; [reply_other] tells whether the object has any other field. *)
Record LinkReply := {
  reply_message : option string;
  reply_errors : option (list (option string));
  reply_other : bool
}.

(** What [response.content.read()] followed by [decode('utf-8')] and
    [json.loads] yields. *)
Inductive Content (A : Type) :=
| NotUtf8
| NotJson
| Json (a : A).
Arguments NotUtf8 {A}.
Arguments NotJson {A}.
Arguments Json {A} a.

(** The part of an aiohttp response the script reads: the status and the
    two headers it looks up. *)
Record Response (A : Type) := {
  status : nat;
  retry_after : option string;      (* response.headers.get("Retry-After") *)
  pagination : option string;       (* response.headers.get("Pagination") *)
  content : Content A
}.
Arguments status {A} r.
Arguments retry_after {A} r.
Arguments pagination {A} r.
Arguments content {A} r.

(** Outcome of entering [async with session.request(...)]. *)
Inductive Outcome (A : Type) :=
| Failed (e : Exn)
| Answered (r : Response A).
Arguments Failed {A} e.
Arguments Answered {A} r.

(** The value [request_with_retries] hands back: the pair of line 59 or the
    bare response of line 62. *)
Inductive Ret (A : Type) :=
| Pair (response : Response A) (data : A)
| Bare (response : Response A).
Arguments Pair {A} response data.
Arguments Bare {A} response.

(** The JSON value [{}] that replaces an undecodable body (line 57), seen at
    each payload type, and the truth value of a payload. *)
Class Payload (A : Type) := { empty_dict : A; truthy : A -> bool }.

#[global] Instance Payload_list {A} : Payload (list A) :=
  {| empty_dict := []; truthy := truthy_list |}.
#[global] Instance Payload_KeyLinks : Payload KeyLinks :=
  {| empty_dict := {| children := None |};
     truthy := fun d => match children d with Some _ => true | None => false end |}.
#[global] Instance Payload_LinkReply : Payload LinkReply :=
  {| empty_dict := {| reply_message := None; reply_errors := None; reply_other := false |};
     truthy := fun d => match reply_message d, reply_errors d with
                        | None, None => reply_other d | _, _ => true end |}.
#[global] Instance Payload_Key : Payload Key :=
  {| empty_dict := {| key_id := None; key_name := None |};
     truthy := fun d => match key_id d, key_name d with
                        | None, None => false | _, _ => true end |}.

(** Printed lines, by kind. *)
Inductive Msg :=
| MsgRateLimited (delay : Z) (attempt : nat)
| MsgConnectionClosed (delay : Z) (attempt : nat)
| MsgErrorFetchingProjects (page status : nat)
| MsgProjectsPage (page : nat)
| MsgErrorDecodingJson
| MsgErrorFetchingKeys (project : string) (page status : nat)
| MsgKeysPage (project : string) (page : nat)
| MsgErrorDecodingPagination
| MsgDetailNon200 (key : string)
| MsgDetailError (key : string) (e : Exn)
| MsgErrorFetchingLinks (parent_key : option string)
| MsgLinksDownloaded (parent_key : option string)
| MsgLinkFailed (parent_key : string) (child_keys : list string) (status : nat)
| MsgLinked (parent_key : string) (child_keys : list string)
| MsgLinkException (parent_key : string) (child_keys : list string) (e : Exn)
| MsgAlreadyLinked (child_key : string)
| MsgAddedForLinking (child_key : string)
| MsgOther (text : string).

(** What a run leaves behind, in order: the requests it sends (the attempts),
    its [asyncio.sleep] calls and its printed lines. *)
Inductive Event :=
| EvRequest
| EvSleep (delay : Z)
| EvPrint (m : Msg).

Definition sleeps (t : list Event) : list Z :=
  omap (fun e => match e with EvSleep d => Some d | _ => None end) t.

Definition requests (t : list Event) : nat :=
  length (List.filter (fun e => match e with EvRequest => true | _ => false end) t).

Section Client.

(** State of the remote service and of the connection. *)
Context {S : Type}.

(** [permits] is the value of the one [asyncio.Semaphore] of the script
    ([link_semaphore]): the permits not checked out. *)
Record World := { srv : S; trace : list Event; permits : nat }.

Definition emit (e : Event) : M World unit :=
  fun w => (Ok tt, {| srv := srv w; trace := (trace w ++ [e])%list; permits := permits w |}).
Definition print (m : Msg) : M World unit := emit (EvPrint m).
Definition sleep (delay : Z) : M World unit := emit (EvSleep delay).

(** One [session.request(method, url, **kwargs)]: the service answers and
    moves to its next state. *)
Definition Call (A : Type) : Type := S -> Outcome A * S.

Definition send {A} (call : Call A) : M World (Outcome A) :=
  fun w => let '(o, s') := call (srv w) in
           (Ok o, {| srv := s'; trace := (trace w ++ [EvRequest])%list;
                     permits := permits w |}).

(** [await response.text()] on a response that [request_with_retries] has
    handed back (lines 143 and 198). The body was read through
    [response.content] inside the [async with] of line 48; that block has
    ended and released the response, and aiohttp then fails the read with
    [ClientConnectionError] (Connection closed). *)
Definition text_of_released {A} (response : Response A) : M World string :=
  raise ClientConnectionError.

(** [asyncio.Semaphore(value)]: [ValueError] below zero. *)
Definition Semaphore (value : Z) : M World unit :=
  fun w => if (value <? 0)%Z then (Raise ValueError, w)
           else (Ok tt, {| srv := srv w; trace := trace w; permits := Z.to_nat value |}).

(** [semaphore.acquire()] waits while no permit is free; run on its own,
    with nobody to release, it then waits for ever. *)
Definition acquire : M World unit :=
  fun w => match permits w with
           | O => (Diverge, w)
           | Datatypes.S n => (Ok tt, {| srv := srv w; trace := trace w; permits := n |})
           end.

Definition release : M World unit :=
  fun w => (Ok tt, {| srv := srv w; trace := trace w; permits := Datatypes.S (permits w) |}).

(** [async with semaphore: m]: the permit is taken on entry and given back
    on every way out of the block (value, exception or exit). *)
Definition with_semaphore {A} (m : M World A) : M World A :=
  fun w => match acquire w with
           | (Ok _, w1) =>
               match m w1 with
               | (Diverge, w2) => (Diverge, w2)
               | (r, w2) => (r, snd (release w2))
               end
           | (Raise e, w1) => (Raise e, w1)
           | (Exit c, w1) => (Exit c, w1)
           | (Diverge, w1) => (Diverge, w1)
           end.

End Client.

Arguments World S : clear implicits.

(** The outcome of the [n]-th request after the service state [s], when the
    same request is sent again and again, with the state it leaves. *)
Fixpoint outcome_at {S A} (call : S -> Outcome A * S) (s : S) (n : nat) : Outcome A * S :=
  match n with
  | O => call s
  | Datatypes.S n' => outcome_at call (snd (call s)) n'
  end.

(** The outcomes [request_with_retries] retries on. *)
Definition is_transient {A} (o : Outcome A) : bool :=
  match o with
  | Answered r => (status r =? 429)%nat
  | Failed ClientConnectionError => true
  | Failed _ => false
  end.

(** ** request_with_retries (lines 34-81) *)

Definition max_retries : nat := 10.

(** Rate-limited on the last permitted attempt (the one made with
    [retries = max_retries]), having been put off, by a rate limit or a
    connection error, on every attempt before. *)
Definition exhausted_by_429 {S A} (call : S -> Outcome A * S) (s : S) : Prop :=
  (forall k, (k < max_retries)%nat -> is_transient (fst (outcome_at call s k)) = true) /\
  exists r, fst (outcome_at call s max_retries) = Answered r /\ status r = 429%nat.

(** [int(retry_after) if retry_after is not None else 2 ** retries], with the
    [ValueError] handler of lines 67-68. [py_int] is Python's [int] on a
    string, [None] standing for [ValueError]. *)
Definition backoff_delay (py_int : string -> option Z)
    (retry_after : option string) (retries : nat) : Z :=
  match retry_after with
  | Some text =>
      match py_int text with
      | Some n => n
      | None => 2 ^ Z.of_nat retries
      end
  | None => 2 ^ Z.of_nat retries
  end.

(** The delay the specification gives for the retry after attempt [k], by
    the [Retry-After] header of the rate-limited answer: its integer value
    when it has one, [2^k] when it is absent or not an integer. *)
Inductive claimed_delay (py_int : string -> option Z) (k : nat) : option string -> Z -> Prop :=
| delay_from_header text h :
    py_int text = Some h -> claimed_delay py_int k (Some text) h
| delay_without_header :
    claimed_delay py_int k None (2 ^ Z.of_nat k)
| delay_with_other_header text :
    py_int text = None -> claimed_delay py_int k (Some text) (2 ^ Z.of_nat k).

Section Executor.

Context {S : Type}.
Variable py_int : string -> option Z.

(** The [while retries <= max_retries] loop; [fuel] bounds the number of
    iterations and line 81 is the exit of the loop. *)
Fixpoint retry_loop {A} `{Payload A} (fuel : nat) (call : Call (S:=S) A) (retries : nat)
    : M (World S) (Ret A) :=
  match fuel with
  | O => diverge
  | Datatypes.S fuel' =>
      if (retries <=? max_retries)%nat then
        let! o := send call in
        match o with
        | Answered response =>
            if negb (status response =? 429)%nat then
              match content response with
              | NotUtf8 => raise UnicodeDecodeError
              | NotJson => ret (Pair response empty_dict)
              | Json data => ret (Pair response data)
              end
            else if (max_retries <=? retries)%nat then
              ret (Bare response)
            else
              let delay := backoff_delay py_int (retry_after response) retries in
              run! print (MsgRateLimited delay (retries + 1)) in
              run! sleep delay in
              retry_loop fuel' call (retries + 1)
        | Failed ClientConnectionError =>
            if (max_retries <=? retries)%nat then
              raise ClientConnectionError
            else
              let delay := 2 ^ Z.of_nat retries in
              run! print (MsgConnectionClosed delay (retries + 1)) in
              run! sleep delay in
              retry_loop fuel' call (retries + 1)
        | Failed e => raise e
        end
      else raise MaxRetriesExceeded
  end.

Definition request_with_retries {A} `{Payload A} (call : Call (S:=S) A) : M (World S) (Ret A) :=
  retry_loop (max_retries + 2) call 0.

(** [response, data = await request_with_retries(...)]: unpacking the bare
    response of line 62 raises [TypeError]. *)
Definition unpack_error : Exn :=
  TypeError "cannot unpack non-iterable ClientResponse object".

Definition unpack2 {A} (r : Ret A) : M (World S) (Response A * A) :=
  match r with
  | Pair response data => ret (response, data)
  | Bare _ => raise unpack_error
  end.

End Executor.

(** ** The endpoints of the Phrase API the script calls *)

Record Params := { page : nat; per_page : nat; q : option string }.

Record Service (S : Type) := {
  (* GET /projects *)
  GET_projects : Params -> Call (S:=S) (list Project);
  (* GET /projects/{project_id}/keys *)
  GET_keys : string -> Params -> Call (S:=S) (list Key);
  (* GET /projects/{project_id}/keys/{id} *)
  GET_key : string -> string -> Call (S:=S) Key;
  (* GET /projects/{project_id}/keys/{id}/key_links; the key id is the text
     of [parent_key.get("id")], possibly [None] *)
  GET_key_links : string -> option string -> Call (S:=S) KeyLinks;
  (* POST /projects/{project_id}/keys/{id}/key_links with child_key_ids *)
  POST_key_links : string -> string -> list string -> Call (S:=S) LinkReply
}.
Arguments GET_projects {S} s.
Arguments GET_keys {S} s.
Arguments GET_key {S} s.
Arguments GET_key_links {S} s.
Arguments POST_key_links {S} s.

Definition HARD_CODED_PARENT_PROJECT_ID : string := "b030ce2bb69df7f099af17804e846f7a".

(** [json.loads(pagination_header)] followed by
    [.get("total_pages_count", 1)]. *)
Inductive PaginationParse :=
| PgNotJson
| PgNotObject
| PgObject (total_pages_count : option Z).

Section Script.

Context {S : Type}.
Variable py_int : string -> option Z.
Variable parse_pagination : string -> PaginationParse.
Variable api : Service S.

(** *** get_all_projects (lines 87-121) *)
Fixpoint get_all_projects_loop (fuel : nat) (per_page : nat)
    (projects : list Project) (page : nat) : M (World S) (list Project) :=
  match fuel with
  | O => diverge
  | Datatypes.S fuel' =>
      let params := {| page := page; per_page := per_page; q := None |} in
      let! o := send (GET_projects api params) in
      match o with
      | Failed e => raise e
      | Answered response =>
          run! print (MsgOther "Using API Token") in
          if negb (status response =? 200)%nat then
            run! print (MsgErrorFetchingProjects page (status response)) in
            sys_exit 1
          else
            run! print (MsgProjectsPage page) in
            match content response with
            | NotUtf8 => raise UnicodeDecodeError
            | NotJson => run! print MsgErrorDecodingJson in sys_exit 1
            | Json data =>
                if negb (truthy data) then ret projects
                else get_all_projects_loop fuel' per_page (projects ++ data)%list (page + 1)
            end
      end
  end.

Definition get_all_projects (fuel : nat) (per_page : nat) : M (World S) (list Project) :=
  get_all_projects_loop fuel per_page [] 1.

(** *** get_all_keys (lines 124-162)

    The loop state has the two variables of the source: [totalPage], which
    the loop condition reads, and [total_pages], which line 153 assigns. *)
Fixpoint get_all_keys_loop (fuel : nat) (project_id : string) (per_page : nat)
    (q_string : string) (keys : list Key) (page totalPage : nat)
    (total_pages : option Z) : M (World S) (list Key) :=
  match fuel with
  | O => diverge
  | Datatypes.S fuel' =>
      if (page <=? totalPage)%nat then
        let params := {| page := page; per_page := per_page;
                         q := if truthy_str q_string then Some q_string else None |} in
        let! r := request_with_retries py_int (GET_keys api project_id params) in
        let! '(response, data) := unpack2 r in
        run! (if negb (status response =? 200)%nat then
               let! text := text_of_released response in
               run! print (MsgErrorFetchingKeys project_id page (status response)) in
               sys_exit 1
             else print (MsgKeysPage project_id page)) in
        let! total_pages' :=
          (if truthy_ostr (pagination response) then
             match parse_pagination (default "" (pagination response)) with
             | PgNotJson => run! print MsgErrorDecodingPagination in sys_exit 1
             | PgNotObject => raise AttributeError
             | PgObject count => ret (Some (default 1 count))
             end
           else ret total_pages) in
        if negb (truthy data) then ret keys
        else get_all_keys_loop fuel' project_id per_page q_string
               (keys ++ data)%list (page + 1) totalPage total_pages'
      else ret keys
  end.

Definition get_all_keys (fuel : nat) (project_id : string) (per_page : nat)
    (q_string : string) : M (World S) (list Key) :=
  get_all_keys_loop fuel project_id per_page q_string [] 1 1 None.

(** *** get_key_detail (lines 165-184) *)
Definition get_key_detail_block (project_id key_id : string) : M (World S) (option Key) :=
  try_except any_Exception
    (let! r := request_with_retries py_int (GET_key api project_id key_id) in
     let! '(response, data) := unpack2 r in
     if (status response =? 200)%nat then ret (Some data)
     else run! print (MsgDetailNon200 key_id) in ret None)
    (fun e => run! print (MsgDetailError key_id e) in ret None).

Definition get_key_detail (project_id key_id : string) : M (World S) (option Key) :=
  with_semaphore (get_key_detail_block project_id key_id).

(** *** get_linked_child_keys (lines 186-205) *)
Fixpoint child_ids (l : list Key) : Res (list string) :=
  match l with
  | [] => Ok []
  | k :: rest =>
      match key_id k with
      | None => Raise (KeyError "id")
      | Some i => match child_ids rest with
                  | Ok ids => Ok (i :: ids)
                  | r => r
                  end
      end
  end.

Definition get_linked_child_keys (parent_project_id : string)
    (parent_key_id : option string) : M (World S) (list string) :=
  let! r := request_with_retries py_int
              (GET_key_links api parent_project_id parent_key_id) in
  let! '(response, data) := unpack2 r in
  if (status response =? 400)%nat then ret []
  else if negb (status response =? 200)%nat then
    let! text := text_of_released response in
    run! print (MsgErrorFetchingLinks parent_key_id) in sys_exit 1
  else
    run! print (MsgLinksDownloaded parent_key_id) in
    lift (child_ids (default [] (children data))).

(** *** create_key_link (lines 207-239)

    In the failure message [data['message']] and
    [data['errors'][0]['message']] raise when the reply lacks them
    ([KeyError], or [IndexError] on an empty list of errors); the handler of
    line 236 then prints instead. *)
Definition create_key_link_block (parent_project_id : string)
    (parent_key_id : string) (child_key_ids : list string) : M (World S) unit :=
  try_except any_Exception
    (let! r := request_with_retries py_int
                 (POST_key_links api parent_project_id parent_key_id child_key_ids) in
     let! '(response, data) := unpack2 r in
     if negb (status response =? 201)%nat then
       if truthy data then
         match reply_message data, reply_errors data with
         | None, _ => raise (KeyError "message")
         | Some _, None => raise (KeyError "errors")
         | Some _, Some [] => raise IndexError
         | Some _, Some (None :: _) => raise (KeyError "message")
         | Some _, Some (Some _ :: _) =>
             print (MsgLinkFailed parent_key_id child_key_ids (status response))
         end
       else print (MsgLinkFailed parent_key_id child_key_ids (status response))
     else print (MsgLinked parent_key_id child_key_ids))
    (fun e => print (MsgLinkException parent_key_id child_key_ids e)).

Definition create_key_link (parent_project_id : string)
    (parent_key_id : string) (child_key_ids : list string) : M (World S) unit :=
  with_semaphore (create_key_link_block parent_project_id parent_key_id child_key_ids).

(** *** main (lines 244-325) *)

(** [linked_keys_dict]: parent key id (the value of [parent_key.get("id")])
    to the ids of the child keys already linked to it. *)
Definition build_linked_keys_dict (parent_project_id : string) (parent_keys : list Key)
    : M (World S) (gmap (option string) (list string)) :=
  for_each parent_keys ∅ (fun linked_keys_dict parent_key =>
    let parent_key_id := key_id parent_key in
    let! linked_keys := get_linked_child_keys parent_project_id parent_key_id in
    if truthy_list linked_keys
    then ret (<[parent_key_id := linked_keys]> linked_keys_dict)
    else ret linked_keys_dict).

(** [for i in range(0, len(l), n): l[i:i + n]] *)
Fixpoint slices {A} (fuel n : nat) (l : list A) : list (list A) :=
  match fuel with
  | O => []
  | Datatypes.S fuel' =>
      match l with
      | [] => []
      | _ => take n l :: slices fuel' n (drop n l)
      end
  end.
Definition batches {A} (n : nat) (l : list A) : list (list A) := slices (length l) n l.

(** [{child_key["name"]: child_key["id"] for child_key in child_keys}] *)
Fixpoint child_key_map_of (child_keys : list Key) (acc : gmap string string)
    : Res (gmap string string) :=
  match child_keys with
  | [] => Ok acc
  | child_key :: rest =>
      match key_name child_key with
      | None => Raise (KeyError "name")
      | Some name =>
          match key_id child_key with
          | None => Raise (KeyError "id")
          | Some i => child_key_map_of rest (<[name := i]> acc)
          end
      end
  end.

(** [key_links_map]: a dict in insertion order, parent key id to the child
    key ids to link; lines 309-311. *)
Fixpoint add_link (parent_key_id child_key_id : string)
    (key_links_map : list (string * list string)) : list (string * list string) :=
  match key_links_map with
  | [] => [(parent_key_id, [child_key_id])]
  | (k, ids) :: rest =>
      if String.eqb k parent_key_id then (k, (ids ++ [child_key_id])%list) :: rest
      else (k, ids) :: add_link parent_key_id child_key_id rest
  end.

(** Line 304 and line 306. *)
Definition linked_to_parent (linked_keys_dict : gmap (option string) (list string))
    (parent_key_id child_key_id : string) : bool :=
  match linked_keys_dict !! Some parent_key_id with
  | Some ids => bool_decide (child_key_id ∈ ids)
  | None => false
  end.

Definition linked_to_any (linked_keys_dict : gmap (option string) (list string))
    (child_key_id : string) : bool :=
  existsb (fun ids : list string => bool_decide (child_key_id ∈ ids))
          (map snd (map_to_list linked_keys_dict)).

(** The child key is among the links fetched for some parent key. *)
Definition already_linked (linked_keys_dict : gmap (option string) (list string))
    (child_key_id : string) : Prop :=
  exists parent_key_id ids,
    linked_keys_dict !! parent_key_id = Some ids /\ child_key_id ∈ ids.

(** The scheduled [create_key_link] calls whose payload names the child key. *)
Definition link_calls_naming (child_key_id : string)
    (tasks : list (string * list string)) : nat :=
  length (List.filter (fun task => bool_decide (child_key_id ∈ snd task)) tasks).

(** No scheduled call names an already linked child key. *)
Definition clean (linked_keys_dict : gmap (option string) (list string))
    (key_links_map : list (string * list string)) : Prop :=
  forall child_key_id, already_linked linked_keys_dict child_key_id ->
  forall task, task ∈ key_links_map -> child_key_id ∉ snd task.

(** Lines 295-312: one parent key of the batch against one child project. *)
Definition match_parent_key (linked_keys_dict : gmap (option string) (list string))
    (child_key_map : gmap string string)
    (key_links_map : list (string * list string)) (parent_key : Key)
    : M (World S) (list (string * list string)) :=
  if negb (truthy_ostr (key_id parent_key)) || negb (truthy_ostr (key_name parent_key))
  then ret key_links_map
  else
    let parent_key_id := default "" (key_id parent_key) in
    let parent_key_name := default "" (key_name parent_key) in
    let child_key_id := child_key_map !! parent_key_name in
    if truthy_ostr child_key_id then
      let child_key_id := default "" child_key_id in
      if linked_to_parent linked_keys_dict parent_key_id child_key_id then
        run! print (MsgAlreadyLinked child_key_id) in ret key_links_map
      else if linked_to_any linked_keys_dict child_key_id then
        run! print (MsgAlreadyLinked child_key_id) in ret key_links_map
      else
        run! print (MsgAddedForLinking child_key_id) in
        ret (add_link parent_key_id child_key_id key_links_map)
    else ret key_links_map.

(** Lines 284-312. *)
Definition schedule_links (fuel : nat)
    (linked_keys_dict : gmap (option string) (list string))
    (parent_keys : list Key) (child_projects : list Project)
    : M (World S) (list (string * list string)) :=
  for_each (batches 100 parent_keys) [] (fun key_links_map parent_key_batch =>
    let parent_key_names :=
      omap (fun parent_key => if truthy_ostr (key_name parent_key)
                              then key_name parent_key else None) parent_key_batch in
    let q_string := "name:" ++ join "," parent_key_names in
    for_each child_projects key_links_map (fun key_links_map child_project =>
      let child_project_id := proj_id child_project in
      let! child_keys := get_all_keys fuel child_project_id 100 q_string in
      if truthy_list child_keys then
        let! child_key_map := lift (child_key_map_of child_keys ∅) in
        for_each parent_key_batch key_links_map
                 (match_parent_key linked_keys_dict child_key_map)
      else ret key_links_map)).

(** Lines 246-315: everything up to the list of [create_key_link] calls,
    given as their arguments (parent key id, child key ids). The connector
    of line 246 takes the concurrency limit as its connection limit: below
    zero no connection is ever free and the first request waits for ever. *)
Definition main_tasks (fuel : nat) (concurrency_limit : Z)
    : M (World S) (list (string * list string)) :=
  let! projects := (if (concurrency_limit <? 0)%Z then diverge
                    else get_all_projects fuel 100) in
  if negb (truthy_list projects) then
    run! print (MsgOther "No projects found.") in sys_exit 1
  else
    let parent_project_id := HARD_CODED_PARENT_PROJECT_ID in
    if negb (existsb (fun proj => String.eqb (proj_id proj) parent_project_id) projects) then
      run! print (MsgOther "Hardcoded parent project id not found among projects.") in
      sys_exit 1
    else
      let! parent_keys := get_all_keys fuel parent_project_id 100 "" in
      let! linked_keys_dict := build_linked_keys_dict parent_project_id parent_keys in
      let child_projects :=
        filter (fun proj => proj_id proj ≠ parent_project_id) projects in
      run! Semaphore concurrency_limit in
      schedule_links fuel linked_keys_dict parent_keys child_projects.

End Script.

End KeyLinkr.

Module ExcessUsers.

(** ** remove_excess_users.py *)

Definition USER_LIMIT : Z := 150.

(** A naive [datetime]; Python orders them field by field. *)
Record datetime := {
  year : nat; month : nat; day : nat; hour : nat; minute : nat; second : nat
}.

(** [datetime(2025, 3, 1, 0, 0, 0)] *)
Definition START_DATE : datetime :=
  {| year := 2025; month := 3; day := 1; hour := 0; minute := 0; second := 0 |}.

Definition fields (d : datetime) : list nat :=
  [year d; month d; day d; hour d; minute d; second d].

Fixpoint lex_compare (a b : list nat) : comparison :=
  match a, b with
  | [], [] => Eq
  | [], _ :: _ => Lt
  | _ :: _, [] => Gt
  | x :: a', y :: b' =>
      match Nat.compare x y with
      | Eq => lex_compare a' b'
      | c => c
      end
  end.

Definition dt_compare (a b : datetime) : comparison := lex_compare (fields a) (fields b).
(** [a > b] *)
Definition dt_gtb (a b : datetime) : bool :=
  match dt_compare a b with Gt => true | _ => false end.
(** [a >= b] *)
Definition dt_geb (a b : datetime) : bool :=
  match dt_compare a b with Lt => false | _ => true end.

(** JSON objects of the API; a field is [None] when the key is absent. *)
Record User := { user_id : option string; created_at : option string }.
Record Project := { id : option string }.

Record Reply (A : Type) := {
  status_code : nat;
  json : option A                 (* response.json(); None when it raises *)
}.
Arguments status_code {A} r.
Arguments json {A} r.

Inductive Outcome (A : Type) :=
| Failed (e : Exn)
| Answered (r : Reply A).
Arguments Failed {A} e.
Arguments Answered {A} r.

Inductive Msg :=
| MsgErrorFetchingProjects (status : nat)
| MsgErrorFetchingUsers (project : string) (status : nat)
| MsgRemoved (user project : string)
| MsgErrorRemoving (user project : string) (status : nat)
| MsgNoProjects
| MsgNoUsers (project : string)
| MsgErrorSorting (project : string) (missing_key : string)
| MsgRemoving (count : Z) (project : string)
| MsgMissingKey (project : string) (missing_key : string)
| MsgWithinLimit (project : string).

(** [d[k]] *)
Definition subscript {A} (k : string) (field : option A) : Res A :=
  match field with
  | Some v => Ok v
  | None => Raise (KeyError k)
  end.

(** [[f(x) for x in l]], stopping at the first exception. *)
Fixpoint traverse {A B} (f : A -> Res B) (l : list A) : Res (list B) :=
  match l with
  | [] => Ok []
  | x :: rest =>
      match f x with
      | Ok y => match traverse f rest with
                | Ok ys => Ok (y :: ys)
                | Raise e => Raise e
                | Exit c => Exit c
                | Diverge => Diverge
                end
      | Raise e => Raise e
      | Exit c => Exit c
      | Diverge => Diverge
      end
  end.

(** [list.sort(key=..., reverse=True)] on the decorated list: descending,
    and elements with equal keys keep their order. *)
Fixpoint insert_desc {A} (x : datetime * A) (l : list (datetime * A))
    : list (datetime * A) :=
  match l with
  | [] => [x]
  | y :: rest =>
      if dt_gtb (fst y) (fst x) then y :: insert_desc x rest
      else x :: y :: rest
  end.

Fixpoint sort_desc {A} (l : list (datetime * A)) : list (datetime * A) :=
  match l with
  | [] => []
  | x :: rest => insert_desc x (sort_desc rest)
  end.

(** The key of [x] is no earlier than the key of [y]. *)
Definition newer {A} (x y : datetime * A) : Prop := dt_geb (fst x) (fst y) = true.

Section Script.

Context {S : Type}.

(** [datetime.strptime(text, '%Y-%m-%dT%H:%M:%SZ')], [None] standing for
    [ValueError]. *)
Variable strptime : string -> option datetime.

Record World := { srv : S; out : list Msg }.

Definition Call (A : Type) : Type := S -> Outcome A * S.

Record Service := {
  (* GET /accounts/{account_id}/projects *)
  GET_projects : string -> Call (list Project);
  (* GET /projects/{project_id}/users *)
  GET_users : string -> Call (list User);
  (* DELETE /projects/{project_id}/users/{user_id} *)
  DELETE_user : string -> string -> Call unit
}.

Variable api : Service.

Definition print (m : Msg) : M World unit :=
  fun w => (Ok tt, {| srv := srv w; out := (out w ++ [m])%list |}).

(** [requests.get] / [requests.delete]: an exception of the transport is
    raised to the caller. *)
Definition send {A} (call : Call A) : M World (Reply A) :=
  fun w => match call (srv w) with
           | (Failed e, s') => (Raise e, {| srv := s'; out := out w |})
           | (Answered r, s') => (Ok r, {| srv := s'; out := out w |})
           end.

Definition response_json {A} (r : Reply A) : M World A :=
  match json r with
  | Some v => ret v
  | None => raise JSONDecodeError
  end.

(** Lines 18-26. *)
Definition get_projects (account_id : string) : M World (list Project) :=
  let! response := send (GET_projects api account_id) in
  if (status_code response =? 200)%nat then response_json response
  else run! print (MsgErrorFetchingProjects (status_code response)) in ret [].

(** Lines 28-36. *)
Definition get_users (project_id : string) : M World (list User) :=
  let! response := send (GET_users api project_id) in
  if (status_code response =? 200)%nat then response_json response
  else run! print (MsgErrorFetchingUsers project_id (status_code response)) in ret [].

(** Lines 38-45. *)
Definition remove_user (project_id user_id : string) : M World unit :=
  let! response := send (DELETE_user api project_id user_id) in
  if (status_code response =? 204)%nat then print (MsgRemoved user_id project_id)
  else print (MsgErrorRemoving user_id project_id (status_code response)).

(** [datetime.strptime(u['created_at'], '%Y-%m-%dT%H:%M:%SZ')] *)
Definition created (u : User) : Res datetime :=
  match subscript "created_at" (created_at u) with
  | Ok text => match strptime text with
               | Some d => Ok d
               | None => Raise ValueError
               end
  | Raise e => Raise e
  | Exit c => Exit c
  | Diverge => Diverge
  end.

(** Line 62: the users created after [filter_timestamp]. *)
Definition created_after (filter_timestamp : datetime) (users : list User)
    : Res (list User) :=
  match traverse (fun u => match created u with
                           | Ok d => Ok (dt_gtb d filter_timestamp, u)
                           | Raise e => Raise e
                           | Exit c => Exit c
                           | Diverge => Diverge
                           end) users with
  | Ok flagged => Ok (map snd (List.filter fst flagged))
  | Raise e => Raise e
  | Exit c => Exit c
  | Diverge => Diverge
  end.

(** Line 63: newest first. *)
Definition sort_newest_first (users : list User) : Res (list User) :=
  match traverse (fun u => match created u with
                           | Ok d => Ok (d, u)
                           | Raise e => Raise e
                           | Exit c => Exit c
                           | Diverge => Diverge
                           end) users with
  | Ok decorated => Ok (map snd (sort_desc decorated))
  | Raise e => Raise e
  | Exit c => Exit c
  | Diverge => Diverge
  end.

(** The user was created after [filter_timestamp] (and its timestamp is
    there and readable). *)
Definition is_recent (filter_timestamp : datetime) (u : User) : bool :=
  match created u with
  | Ok d => dt_gtb d filter_timestamp
  | _ => false
  end.

(** [u] was created no earlier than [v]. *)
Definition newer_or_same (u v : User) : Prop :=
  exists du dv, created u = Ok du /\ created v = Ok dv /\ dt_geb du dv = true.

(** Lines 62-63 inside the [try]. *)
Definition candidates (filter_timestamp : datetime) (users : list User)
    : Res (list User) :=
  match created_after filter_timestamp users with
  | Ok recent => sort_newest_first recent
  | r => r
  end.

(** Line 68. *)
Definition excess_user_count (users : list User) : Z :=
  Z.of_nat (length users) - USER_LIMIT.

(** Lines 69-71: the users the removal loop visits, [users[:excess_user_count]]
    when the count is positive and none otherwise. *)
Definition selected (users : list User) : list User :=
  if (0 <? excess_user_count users)%Z
  then take (Z.to_nat (excess_user_count users)) users
  else [].

(** Lines 71-75. *)
Definition remove_selected (project_id : string) (users : list User) : M World unit :=
  for_each users tt (fun _ user =>
    try_except is_KeyError
      (let! user_id := lift (subscript "id" (user_id user)) in
       remove_user project_id user_id)
      (fun e => match e with
                | KeyError k => print (MsgMissingKey project_id k)
                | _ => ret tt
                end)).



(** Lines 55-77: the body of the loop over the projects. *)
Definition process_project (filter_timestamp : datetime) (project : Project)
    : M World unit :=
  let! project_id := lift (subscript "id" (id project)) in
  let! users := get_users project_id in
  if negb (truthy_list users) then print (MsgNoUsers project_id)
  else
    match candidates filter_timestamp users with
    | Raise (KeyError k) => print (MsgErrorSorting project_id k)
    | Raise e => raise e
    | Exit c => sys_exit c
    | Diverge => diverge
    | Ok users =>
        if (0 <? excess_user_count users)%Z then
          run! print (MsgRemoving (excess_user_count users) project_id) in
          remove_selected project_id (take (Z.to_nat (excess_user_count users)) users)
        else print (MsgWithinLimit project_id)
    end.

(** Lines 47-77. *)
Definition remove_excess_users (account_id : string) (filter_timestamp : datetime)
    : M World unit :=
  let! projects := get_projects account_id in
  if negb (truthy_list projects) then print MsgNoProjects
  else for_each projects tt (fun _ project => process_project filter_timestamp project).

End Script.

Arguments World S : clear implicits.
Arguments Service S : clear implicits.
Arguments Call S A : clear implicits.

End ExcessUsers.

Module BulkImport.

(** ** The bulk import tool *)

(** [str.lower] on ASCII letters; other characters are left as they are. *)
Definition lower_ascii (c : ascii) : ascii :=
  let n := nat_of_ascii c in
  if ((65 <=? n) && (n <=? 90))%nat then ascii_of_nat (n + 32) else c.

Fixpoint lower (s : string) : string :=
  match s with
  | EmptyString => EmptyString
  | String c rest => String (lower_ascii c) (lower rest)
  end.

(** [str.strip] on ASCII: the white space of Python below 128 is the
    characters 9 to 13 and 28 to 32. *)
Definition is_space (c : ascii) : bool :=
  let n := nat_of_ascii c in
  (((9 <=? n) && (n <=? 13)) || ((28 <=? n) && (n <=? 32)))%nat.

Fixpoint lstrip (s : string) : string :=
  match s with
  | EmptyString => EmptyString
  | String c rest => if is_space c then lstrip rest else s
  end.

Fixpoint rstrip (s : string) : string :=
  match s with
  | EmptyString => EmptyString
  | String c rest =>
      match rstrip rest with
      | EmptyString => if is_space c then EmptyString else String c EmptyString
      | kept => String c kept
      end
  end.

Definition strip (s : string) : string := rstrip (lstrip s).

(** Lines 23 and 26-31, and the status list of line 52. *)
Definition MAX_RETRIES : nat := 3.
Definition STATUS_FORCELIST : list nat := [500; 502; 503; 504]%nat.

Definition CSV_FIELDS : gmap string (list string) :=
  <["domain" := ["name"; "timezone"]]>
  (<["subdomain" := ["name"; "parent_domain_id"]]>
  (<["client" := ["name"]]>
  (<["business_unit" := ["name"; "client_id"]]> ∅))).

(** A row as [process_csv] yields it: field name to text. *)
Abbreviation Row := (gmap string string).

(** A row as [csv.DictReader] yields it, before [process_csv] normalises
    it: the fields of the header with their text; a line shorter than the
    header leaves the fields it lacks at [None] ([Missing]), a longer one
    puts its surplus fields in a list under the key [None]. *)
Inductive RawValue :=
| Text (s : string)
| Missing
| Surplus (fields : list string).

Abbreviation RawRow := (list (option string * RawValue)).

Record Stats := { success : nat; errors : nat; skipped : nat }.

Record Reply := {
  status_code : nat;
  json : option (gmap string string)   (* response.json(); None when it raises *)
}.

(** What a call of [session.post] gives back to the script: a response, or
    the exception it raises. The session is the one of lines 48-56: its
    adapter sends the request again, up to [MAX_RETRIES] times, on a
    transport error and on a status of [STATUS_FORCELIST], and raises
    ([RetryError] for the statuses) when the retries are used up; all of
    that happens inside the one call. *)
Inductive Outcome :=
| Failed (e : Exn)
| Answered (r : Reply).

(** The levels of [logging]; line 35 sets the threshold to INFO, so that a
    [logging.debug] call writes nothing. *)
Inductive Level := DEBUG | INFO | WARNING | ERROR.

Definition level_no (level : Level) : nat :=
  match level with DEBUG => 10 | INFO => 20 | WARNING => 30 | ERROR => 40 end%nat.

Definition LOG_LEVEL : Level := INFO.

Definition enabled (level : Level) : bool := (level_no LOG_LEVEL <=? level_no level)%nat.

(** What a run leaves behind, in order: the records written to the log, the
    calls of [session.post] ([Login] for line 65, [Post] for line 87), the
    pauses of line 169 and the updates of the progress bar. *)
Inductive Event :=
| LogMissingFields (missing : list string) (name : option string)
| LogInvalidType (type : option string)
| LogConflict (name : option string)
| LogRowError (e : Exn)
| LogFinalStatistics (stats : Stats)
| Login
| Post (entity_type : string) (data : Row)
| Sleep_half_second
| ProgressUpdate (stats : Stats).

(** Lines 102-109; the warning (level WARNING, written) is handed back with
    the verdict. *)
Definition missing_fields (required : list string) (row : Row) : list string :=
  List.filter (fun field => negb (truthy_ostr (row !! field))) required.

Definition validate_row (entity_type : string) (row : Row) : Res (bool * list Event) :=
  match CSV_FIELDS !! entity_type with
  | None => Raise (KeyError entity_type)
  | Some required =>
      let missing := missing_fields required row in
      if truthy_list missing
      then Ok (false, [LogMissingFields missing (row !! "name")])
      else Ok (true, [])
  end.

(** Line 125: [{k.strip().lower(): v.strip() for k, v in row.items()}]. The
    key [None] and the value [None] have no [strip]. *)
Fixpoint normalise (items : RawRow) (acc : Row) : Res Row :=
  match items with
  | [] => Ok acc
  | (None, _) :: _ => Raise AttributeError
  | (Some k, Text v) :: rest => normalise rest (<[lower (strip k) := strip v]> acc)
  | (Some k, _) :: _ => Raise AttributeError
  end.

Section Script.

Context {S : Type}.

Record World := { srv : S; trace : list Event }.

(** [self.session.post(url, json=data, headers=..., timeout=TIMEOUT)] of
    [create_entity], by entity type (which fixes the URL) and payload, with
    the token of the client in its headers. *)
Variable POST_entity : string -> Row -> S -> Outcome * S.

Definition emit (e : Event) : M World unit :=
  fun w => (Ok tt, {| srv := srv w; trace := (trace w ++ [e])%list |}).

Definition emit_all (es : list Event) : M World unit :=
  fun w => (Ok tt, {| srv := srv w; trace := (trace w ++ es)%list |}).

(** [logging.debug], [logging.info], ...: the record is written when its
    level reaches the threshold. *)
Definition log (level : Level) (record : Event) : M World unit :=
  if enabled level then emit record else ret tt.

(** Lines 73-99. The result is the JSON object of the reply, or
    [{'status': 'conflict'}]. *)
Definition create_entity (entity_type : string) (data : Row) : M World (gmap string string) :=
  let! _ := (if String.eqb entity_type "subdomain"
             then lift (match data !! "parent_domain_id" with
                        | Some _ => Ok tt
                        | None => Raise (KeyError "parent_domain_id")
                        end)
             else if bool_decide (entity_type ∈ ["domain"; "client"; "business_unit"])
             then ret tt
             else raise (KeyError entity_type)) in
  run! emit (Post entity_type data) in
  fun w =>
    match POST_entity entity_type data (srv w) with
    | (Failed e, s') => (Raise e, {| srv := s'; trace := trace w |})
    | (Answered response, s') =>
        let w' := {| srv := s'; trace := trace w |} in
        if (status_code response =? 409)%nat then
          (run! log DEBUG (LogConflict (data !! "name")) in
           ret (<["status" := "conflict"]> (∅ : gmap string string))) w'
        else if ((400 <=? status_code response) && (status_code response <? 600))%nat then
          (Raise (HTTPError (status_code response)), w')
        else match json response with
             | Some doc => (Ok doc, w')
             | None => (Raise JSONDecodeError, w')
             end
    end.

(** Lines 143-178: the body of the loop for one row. The [finally] clause
    runs on every way out of the [try]. *)
Definition bump_success (st : Stats) : Stats :=
  {| success := success st + 1; errors := errors st; skipped := skipped st |}.
Definition bump_errors (st : Stats) : Stats :=
  {| success := success st; errors := errors st + 1; skipped := skipped st |}.
Definition bump_skipped (st : Stats) : Stats :=
  {| success := success st; errors := errors st; skipped := skipped st + 1 |}.

Definition import_row_try (dry_run : bool) (stats : Stats) (row : Row) : M World Stats :=
  let entity_type := lower (default "" (row !! "type")) in
  if negb (truthy_str entity_type) || bool_decide (CSV_FIELDS !! entity_type = None) then
    run! log ERROR (LogInvalidType (row !! "type")) in
    ret (bump_errors stats)
  else
    let! '(valid, warnings) := lift (validate_row entity_type row) in
    run! emit_all warnings in
    if negb valid then ret (bump_errors stats)
    else if dry_run then ret (bump_success stats)
    else
      let! result := create_entity entity_type row in
      if bool_decide (result !! "status" = Some "conflict") then ret (bump_skipped stats)
      else if bool_decide (result ≠ ∅) then ret (bump_success stats)
      else ret (bump_skipped stats).

Definition import_row (dry_run : bool) (stats : Stats) (row : Row) : M World Stats :=
  let! stats' :=
    try_except any_Exception (import_row_try dry_run stats row)
      (fun e => run! log DEBUG (LogRowError e) in
                run! emit Sleep_half_second in
                ret (bump_errors stats)) in
  run! emit (ProgressUpdate stats') in
  ret stats'.

End Script.

Arguments World S : clear implicits.

Section Run.

Context {S : Type}.

(** [self.session.post(f"{BASE_URL}/auth/login", json=credentials,
    timeout=TIMEOUT)], and the [session.post] of [create_entity] by the
    token of the client. *)
Variable POST_login : S -> Outcome * S.
Variable POST_entity : string -> string -> Row -> S -> Outcome * S.

(** Lines 59-71; [PhraseTMSClient()] (lines 47-57) comes down to it. *)
Definition authenticate : M (World S) string :=
  run! emit Login in
  fun w =>
    match POST_login (srv w) with
    | (Failed e, s') => (Raise e, {| srv := s'; trace := trace w |})
    | (Answered response, s') =>
        let w' := {| srv := s'; trace := trace w |} in
        if ((400 <=? status_code response) && (status_code response <? 600))%nat then
          (Raise (HTTPError (status_code response)), w')
        else match json response with
             | None => (Raise JSONDecodeError, w')
             | Some doc =>
                 match doc !! "token" with
                 | Some token => (Ok token, w')
                 | None => (Raise (KeyError "token"), w')
                 end
             end
    end.

(** Lines 128-185, for a file that opens and that [csv.DictReader] reads as
    [rows]. The client is built first; the generator of [process_csv]
    normalises each row when the loop asks for it, outside the [try] of the
    loop body. *)
Definition bulk_import (rows : list RawRow) (dry_run : bool) : M (World S) Stats :=
  let! token := authenticate in
  let! stats :=
    for_each rows {| success := 0; errors := 0; skipped := 0 |} (fun stats raw =>
      let! row := lift (normalise raw ∅) in
      import_row (POST_entity token) dry_run stats row) in
  run! log INFO (LogFinalStatistics stats) in
  ret stats.

End Run.

End BulkImport.

Module Scheduler.

Import KeyLinkr.

(** ** The link tasks under the event loop

    [main] creates one [create_key_link] coroutine per entry of
    [key_links_map] and awaits them with [asyncio.as_completed]; the event
    loop resumes whichever task can go on. A task is suspended at
    [async with semaphore] until it gets a permit, then runs its block
    (the governed request) and gives the permit back. *)

Inductive Phase := Pending | InFlight | Done.

#[global] Instance Phase_eq_dec : EqDecision Phase.
Proof. solve_decision. Defined.

Section Scheduler.

Context {S : Type}.
Variable py_int : string -> option Z.
Variable api : Service S.
Variable parent_project_id : string.

(** The arguments of the scheduled [create_key_link] calls. *)
Variable tasks : list (string * list string).

Record Sched := { world : World S; phases : list Phase }.

(** The event loop resumes task [i]; [None] when the task cannot move
    (it waits for a permit, has finished, or does not exist). *)
Definition resume (i : nat) (st : Sched) : option Sched :=
  match phases st !! i, tasks !! i with
  | Some Pending, Some _ =>
      match acquire (world st) with
      | (Ok _, w') => Some {| world := w'; phases := <[i := InFlight]> (phases st) |}
      | _ => None
      end
  | Some InFlight, Some (parent_key_id, child_key_ids) =>
      match create_key_link_block py_int api parent_project_id
              parent_key_id child_key_ids (world st) with
      | (Diverge, _) => None
      | (_, w') => Some {| world := snd (release w'); phases := <[i := Done]> (phases st) |}
      end
  | _, _ => None
  end.

(** All tasks are created before any runs (line 314). *)
Definition start (w : World S) : Sched :=
  {| world := w; phases := replicate (length tasks) Pending |}.

(** A run of the event loop: the tasks it picks, in order; picking a task
    that cannot move changes nothing. *)
Definition run (schedule : list nat) (st : Sched) : Sched :=
  foldl (fun st i => default st (resume i st)) st schedule.

Definition in_flight (st : Sched) : nat :=
  length (List.filter (fun p => bool_decide (p = InFlight)) (phases st)).

Definition all_done (st : Sched) : Prop := Forall (fun p => p = Done) (phases st).

(** The permits checked out are exactly the calls in flight. *)
Definition balanced (N : nat) (st : Sched) : Prop :=
  (in_flight st + permits (world st) = N)%nat /\ length (phases st) = length tasks.

(** Steps a task still has to take. *)
Definition todo (p : Phase) : nat :=
  match p with Pending => 2 | InFlight => 1 | Done => 0 end.
Definition remaining (st : Sched) : nat := sum_list (map todo (phases st)).

End Scheduler.

End Scheduler.

(** * Concrete services and inputs *)

Module Examples.

Import KeyLinkr.

(** Python's [int] on plain decimal texts (an optional sign and digits);
    anything else is a [ValueError]. *)
Definition digit (c : ascii) : option Z :=
  let n := nat_of_ascii c in
  if ((48 <=? n) && (n <=? 57))%nat then Some (Z.of_nat (n - 48)) else None.

Fixpoint decimal (s : string) (acc : Z) : option Z :=
  match s with
  | EmptyString => Some acc
  | String c rest =>
      match digit c with
      | Some d => decimal rest (10 * acc + d)
      | None => None
      end
  end.

Definition parse_int (s : string) : option Z :=
  match s with
  | EmptyString => None
  | String "-" (String c rest) => Z.opp <$> decimal (String c rest) 0
  | String "+" (String c rest) => decimal (String c rest) 0
  | String "-" EmptyString => None
  | String "+" EmptyString => None
  | _ => decimal s 0
  end.

(** A stand-in for pagination headers that carry the page count as bare
    decimal text; [parse_pagination_header] below reads the JSON object the
    API sends. *)
Definition parse_page_count (s : string) : PaginationParse :=
  match parse_int s with
  | Some n => PgObject (Some n)
  | None => PgNotJson
  end.

(** [json.loads] followed by [.get("total_pages_count", 1)] on the headers
    of the examples: the object with the one field [total_pages_count], the
    empty object, and a bare number (which has no [get]); any other text is
    taken as not JSON. *)
Definition quote : string := String (ascii_of_nat 34) EmptyString.

Definition pagination_header (count : string) : string :=
  "{" ++ quote ++ "total_pages_count" ++ quote ++ ": " ++ count ++ "}".

Fixpoint strip_prefix (prefix s : string) : option string :=
  match prefix, s with
  | EmptyString, _ => Some s
  | String c prefix', String c' s' =>
      if Ascii.eqb c c' then strip_prefix prefix' s' else None
  | String _ _, EmptyString => None
  end.

Fixpoint strip_closing_brace (s : string) : option string :=
  match s with
  | EmptyString => None
  | String c EmptyString => if Ascii.eqb c "}" then Some EmptyString else None
  | String c rest => String c <$> strip_closing_brace rest
  end.

Definition parse_pagination_header (s : string) : PaginationParse :=
  match strip_prefix ("{" ++ quote ++ "total_pages_count" ++ quote ++ ": ") s with
  | Some rest =>
      match strip_closing_brace rest ≫= parse_int with
      | Some n => PgObject (Some n)
      | None => PgNotJson
      end
  | None =>
      match parse_int s with
      | Some _ => PgNotObject
      | None => if String.eqb s "{}" then PgObject None else PgNotJson
      end
  end.

Definition answer {A} (st : nat) (hdr : option string) (body : A) : Response A :=
  {| status := st; retry_after := hdr; pagination := None; content := Json body |}.

(** A service that rate-limits every request, without a [Retry-After]
    header; its state counts the requests. *)
Definition throttled_call {A} `{Payload A} : Call (S:=nat) A :=
  fun n => (Answered (answer 429 None empty_dict), Datatypes.S n).

Definition throttled : Service nat :=
  {| GET_projects := fun _ => throttled_call;
     GET_keys := fun _ _ => throttled_call;
     GET_key := fun _ _ => throttled_call;
     GET_key_links := fun _ _ => throttled_call;
     POST_key_links := fun _ _ _ => throttled_call |}.

(** A service that rate-limits the first three requests -- with
    [Retry-After: 5], with no header, with an HTTP date -- and then answers. *)
Definition flaky_call : Call (S:=nat) (list Key) :=
  fun n =>
    (match n with
     | 0%nat => Answered (answer 429 (Some "5") [])
     | 1%nat => Answered (answer 429 None [])
     | 2%nat => Answered (answer 429 (Some "Wed, 21 Oct 2015 07:28:00 GMT") [])
     | _ => Answered (answer 200 None [{| key_id := Some "k1"; key_name := Some "greeting" |}])
     end, Datatypes.S n).

Definition fresh {S} (s : S) (n : nat) : World S := {| srv := s; trace := []; permits := n |}.

(** A synthetic listing: [items] served in pages of the requested size,
    page numbers starting at one, every page with status 200 and, when
    [header] is given, with that Pagination header. *)
Definition page_of {A} (items : list A) (per_page page : nat) : list A :=
  take per_page (drop ((page - 1) * per_page) items).

Definition listing_page {A} (items : list A) (header : option string) (params : Params)
    : Response (list A) :=
  {| status := 200; retry_after := None; pagination := header;
     content := Json (page_of items (per_page params) (page params)) |}.

Definition listing (projects : list Project) (keys : list Key) (header : option string)
    : Service unit :=
  {| GET_projects := fun params s => (Answered (listing_page projects header params), s);
     GET_keys := fun _ params s => (Answered (listing_page keys header params), s);
     GET_key := fun _ _ s => (Answered (answer 404 None empty_dict), s);
     GET_key_links := fun _ _ s => (Answered (answer 400 None empty_dict), s);
     POST_key_links := fun _ _ _ s => (Answered (answer 201 None empty_dict), s) |}.

Definition key (i name : string) : Key := {| key_id := Some i; key_name := Some name |}.

Definition three_keys : list Key := [key "k1" "alpha"; key "k2" "beta"; key "k3" "gamma"].
Definition three_projects : list Project :=
  [{| proj_id := "p1" |}; {| proj_id := "p2" |}; {| proj_id := "p3" |}].

(** A link run: the parent project holds the keys [parent_keys], every other
    project holds [child_keys], and [links] gives the children already linked
    to a parent key (status 400 when it has none). *)
Definition projects_of_run : list Project :=
  [{| proj_id := HARD_CODED_PARENT_PROJECT_ID |}; {| proj_id := "child" |}].

Definition link_run (parent_keys child_keys : list Key)
    (links : option string -> list Key) : Service unit :=
  {| GET_projects := fun params s => (Answered (listing_page projects_of_run None params), s);
     GET_keys := fun project params s =>
       (Answered (listing_page
                    (if String.eqb project HARD_CODED_PARENT_PROJECT_ID
                     then parent_keys else child_keys) None params), s);
     GET_key := fun _ _ s => (Answered (answer 404 None empty_dict), s);
     GET_key_links := fun _ parent s =>
       (match links parent with
        | [] => Answered (answer 400 None empty_dict)
        | linked => Answered (answer 200 None {| children := Some linked |})
        end, s);
     POST_key_links := fun _ _ _ s => (Answered (answer 201 None empty_dict), s) |}.

(** Two parent keys with the same name, one child key of that name, no
    existing link. *)
Definition twins : Service unit :=
  link_run [key "A" "greeting"; key "B" "greeting"] [key "X" "greeting"] (fun _ => []).

(** As [twins], with a third parent key and its child, and the child [X]
    already linked to parent [A]. *)
Definition twins_linked : Service unit :=
  link_run [key "A" "greeting"; key "B" "greeting"; key "C" "farewell"]
           [key "X" "greeting"; key "Y" "farewell"]
           (fun parent => if bool_decide (parent = Some "A") then [key "X" "greeting"] else []).

(** Two link tasks for the scheduler. *)
Definition two_tasks : list (string * list string) := [("A", ["X"]); ("B", ["Y"])].
Definition one_task : list (string * list string) := [("A", ["X"])].

End Examples.

Module UserExamples.

Import ExcessUsers.

(** [strptime] on timestamps written in full, [YYYY-MM-DDTHH:MM:SSZ]. *)
Definition digit (c : ascii) : option nat :=
  let n := nat_of_ascii c in
  if ((48 <=? n) && (n <=? 57))%nat then Some (n - 48)%nat else None.

Fixpoint number (width : nat) (s : string) (acc : nat) : option (nat * string) :=
  match width with
  | O => Some (acc, s)
  | Datatypes.S width' =>
      match s with
      | String c rest =>
          match digit c with
          | Some d => number width' rest (10 * acc + d)%nat
          | None => None
          end
      | EmptyString => None
      end
  end.

Definition expect (c : ascii) (s : string) : option string :=
  match s with
  | String c' rest => if Ascii.eqb c c' then Some rest else None
  | EmptyString => None
  end.

Definition strptime_iso (s : string) : option datetime :=
  '(y, s) ← number 4 s 0%nat; s ← expect "-" s;
  '(mo, s) ← number 2 s 0%nat; s ← expect "-" s;
  '(d, s) ← number 2 s 0%nat; s ← expect "T" s;
  '(h, s) ← number 2 s 0%nat; s ← expect ":" s;
  '(mi, s) ← number 2 s 0%nat; s ← expect ":" s;
  '(se, s) ← number 2 s 0%nat; s ← expect "Z" s;
  if String.eqb s ""
     && (1 <=? mo)%nat && (mo <=? 12)%nat && (1 <=? d)%nat && (d <=? 31)%nat
     && (h <? 24)%nat && (mi <? 60)%nat && (se <? 62)%nat
  then Some {| year := y; month := mo; day := d; hour := h; minute := mi; second := se |}
  else None.

Definition two_digits (n : nat) : string :=
  String (ascii_of_nat (48 + n / 10)) (String (ascii_of_nat (48 + n mod 10)) "").

Definition three_digits (n : nat) : string :=
  String (ascii_of_nat (48 + n / 100)) (two_digits (n mod 100)).

(** User number [i], created [i] seconds after midnight on 2 March 2025. *)
Definition new_user (i : nat) : User :=
  {| user_id := Some ("u" ++ three_digits i);
     created_at := Some ("2025-03-02T00:" ++ two_digits (i / 60) ++ ":"
                           ++ two_digits (i mod 60) ++ "Z") |}.

(** User number [i] of the old guard, created in February 2025. *)
Definition old_user (i : nat) : User :=
  {| user_id := Some ("o" ++ three_digits i);
     created_at := Some ("2025-02-01T00:00:" ++ two_digits (i mod 60) ++ "Z") |}.

(** A user created at the cutoff itself. *)
Definition boundary_user : User :=
  {| user_id := Some "b000"; created_at := Some "2025-03-01T00:00:00Z" |}.

(** A user whose record has no creation timestamp, and one with no id. *)
Definition undated_user : User := {| user_id := Some "x000"; created_at := None |}.
Definition unnamed_user : User :=
  {| user_id := None; created_at := Some "2025-03-02T12:00:00Z" |}.

Definition new_users (n : nat) : list User := map new_user (seq 0 n).
Definition old_users (n : nat) : list User := map old_user (seq 0 n).

(** One account with one project ["p"] whose users are [users]; every
    removal is answered 204. *)
Definition account (users : list User) : Service unit :=
  {| GET_projects := fun _ s =>
       (Answered {| status_code := 200; json := Some [{| id := Some "p" |}] |}, s);
     GET_users := fun _ s =>
       (Answered {| status_code := 200; json := Some users |}, s);
     DELETE_user := fun _ _ s =>
       (Answered {| status_code := 204; json := None |}, s) |}.

Definition fresh : World unit := {| srv := tt; out := [] |}.

(** The same account keeping a ledger of the DELETE requests it receives,
    (project id, user id) in the order of arrival. *)
Definition ledger (users : list User) : Service (list (string * string)) :=
  {| GET_projects := fun _ s =>
       (Answered {| status_code := 200; json := Some [{| id := Some "p" |}] |}, s);
     GET_users := fun _ s =>
       (Answered {| status_code := 200; json := Some users |}, s);
     DELETE_user := fun project_id user_id s =>
       (Answered {| status_code := 204; json := None |},
        (s ++ [(project_id, user_id)])%list) |}.

Definition fresh_ledger : World (list (string * string)) := {| srv := []; out := [] |}.


(** Five users of the old guard and 160 created after the cutoff. *)
Definition crowd : list User := (old_users 5 ++ new_users 160)%list.

End UserExamples.

Module ImportExamples.

Import BulkImport.

(** The row [{type: "client", name: ""}]. *)
Definition nameless_client : Row := <["type" := "client"]> (<["name" := ""]> ∅).

(** A service that creates whatever it is asked to. *)
Definition obliging : string -> Row -> unit -> Outcome * unit :=
  fun _ data s => (Answered {| status_code := 201; json := Some data |}, s).

Definition fresh : World unit := {| srv := tt; trace := [] |}.

(** A login that hands out the token [t0], and a CSV line with the fields
    [type] and [name]. *)
Definition welcoming : unit -> Outcome * unit :=
  fun s => (Answered {| status_code := 200; json := Some (<["token" := "t0"]> ∅) |}, s).

Definition line (type name : string) : RawRow :=
  [(Some "Type", Text type); (Some " name ", Text name)].

End ImportExamples.

(** * Further definitions *)

Module ExecutorExtra.

Import KeyLinkr.

(** The state of the service after [n] requests of the same call. *)
Fixpoint state_after {S A} (call : S -> Outcome A * S) (s : S) (n : nat) : S :=
  match n with
  | O => s
  | Datatypes.S n' => state_after call (snd (call s)) n'
  end.

(** What the body of a non-429 answer decodes to (lines 51-59): the pair, or
    the [UnicodeDecodeError] of line 52. *)
Definition decoded {A} `{Payload A} (r : Response A) : Res (Ret A) :=
  match content r with
  | NotUtf8 => Raise UnicodeDecodeError
  | NotJson => Ok (Pair r empty_dict)
  | Json data => Ok (Pair r data)
  end.

(** A service whose connection drops on every request. *)
Definition dropping_call {A} : Call (S:=nat) A :=
  fun n => (Failed ClientConnectionError, Datatypes.S n).

(** A service that times out on the third request, after two dropped
    connections. *)
Definition timing_out_call : Call (S:=nat) (list Key) :=
  fun n =>
    (match n with
     | 0%nat | 1%nat => Failed ClientConnectionError
     | _ => Failed TimeoutError
     end, Datatypes.S n).

(** A service that answers the third request, after a dropped connection
    and a rate limit, with a body that is not JSON. *)
Definition garbled_call : Call (S:=nat) (list Key) :=
  fun n =>
    (match n with
     | 0%nat => Failed ClientConnectionError
     | 1%nat => Answered (Examples.answer 429 None [])
     | _ => Answered {| status := 200; retry_after := None; pagination := None;
                        content := NotJson |}
     end, Datatypes.S n).

End ExecutorExtra.

Module LinkExtra.

Import KeyLinkr.

(** What the list of link tasks looks like at the end of the scheduling
    loop: one entry per parent key id, each for a parent key of the listing
    with a non-empty id, each naming at least one child, and no empty child
    id. *)
Definition well_formed_tasks (parent_keys : list Key)
    (tasks : list (string * list string)) : Prop :=
  NoDup (map fst tasks)
  /\ forall parent_key_id child_key_ids,
       (parent_key_id, child_key_ids) ∈ tasks ->
       child_key_ids <> []
       /\ Forall (fun child_key_id => truthy_str child_key_id = true) child_key_ids
       /\ truthy_str parent_key_id = true
       /\ exists parent_key, parent_key ∈ parent_keys
                             /\ key_id parent_key = Some parent_key_id.


End LinkExtra.

Module UsersExtra.

Import ExcessUsers.

(** The user's creation timestamp is there, readable, and is the instant
    [d]. *)
Definition same_instant (strptime : string -> option datetime) (d : datetime)
    (u : User) : bool :=
  match created strptime u with
  | Ok d' => match dt_compare d' d with Eq => true | _ => false end
  | _ => false
  end.

(** The user's creation timestamp is there and readable. *)
Definition readable (strptime : string -> option datetime) (u : User) : Prop :=
  exists d, created strptime u = Ok d.

(** The key of the decorated entry is the instant [d]. *)
Definition key_is {A} (d : datetime) (p : datetime * A) : bool :=
  match dt_compare (fst p) d with Eq => true | _ => false end.

(** Three users created at the same second, listed among others. *)
Definition tied (i : string) : User :=
  {| user_id := Some i; created_at := Some "2025-03-02T09:00:00Z" |}.

Definition with_ties : list User :=
  [UserExamples.new_user 7; tied "t1"; UserExamples.new_user 3; tied "t2";
   UserExamples.old_user 1; tied "t3"].

(** A user whose timestamp is not in the expected format. *)
Definition misdated_user : User :=
  {| user_id := Some "m000"; created_at := Some "02/03/2025 09:00" |}.

(** An account whose project listing is refused, and one whose user listing
    is refused. *)
Definition locked_account : Service unit :=
  {| GET_projects := fun _ s => (Answered {| status_code := 403; json := None |}, s);
     GET_users := fun _ s => (Answered {| status_code := 403; json := None |}, s);
     DELETE_user := fun _ _ s => (Answered {| status_code := 204; json := None |}, s) |}.

(** An account that refuses every removal and keeps a ledger of the DELETE
    requests it receives. *)
Definition stubborn_ledger (users : list User) : Service (list (string * string)) :=
  {| GET_projects := fun _ s =>
       (Answered {| status_code := 200; json := Some [{| id := Some "p" |}] |}, s);
     GET_users := fun _ s =>
       (Answered {| status_code := 200; json := Some users |}, s);
     DELETE_user := fun project_id user_id s =>
       (Answered {| status_code := 403; json := None |},
        (s ++ [(project_id, user_id)])%list) |}.

End UsersExtra.

Module ImportExtra.

Import BulkImport.

(** The entity type of a row as bulk_import reads it (line 144). *)
Definition entity_type_of (row : Row) : string := lower (default "" (row !! "type")).

(** The row passes the checks of lines 145-152: its type is one of the
    schemas and none of the required fields is missing. *)
Definition valid (row : Row) : Prop :=
  truthy_str (entity_type_of row) = true
  /\ exists required, CSV_FIELDS !! entity_type_of row = Some required
                      /\ missing_fields required row = [].

(** The line has as many fields as the header: [process_csv] yields a row
    for it. *)
Definition well_formed (raw : RawRow) : Prop := exists row, normalise raw ∅ = Ok row.

Definition posts (t : list Event) : nat :=
  length (List.filter (fun e => match e with Post _ _ => true | _ => false end) t).

Definition progress_updates (t : list Event) : nat :=
  length (List.filter (fun e => match e with ProgressUpdate _ => true | _ => false end) t).

Definition total (stats : Stats) : nat := success stats + errors stats + skipped stats.

(** Rows and services of the examples. *)
Definition acme : Row := <["type" := "Client"]> (<["name" := "Acme"]> ∅).
Definition mystery : Row := <["type" := "gadget"]> (<["name" := "Acme"]> ∅).

Definition conflicting : string -> Row -> unit -> Outcome * unit :=
  fun _ _ s => (Answered {| status_code := 409; json := None |}, s).
Definition not_found : string -> Row -> unit -> Outcome * unit :=
  fun _ _ s => (Answered {| status_code := 404; json := None |}, s).

(** A login that is refused, and a CSV line that stops after its first
    field. *)
Definition unwelcoming : unit -> Outcome * unit :=
  fun s => (Answered {| status_code := 401; json := None |}, s).

Definition short_line : RawRow := [(Some "type", Text "client"); (Some "name", Missing)].

End ImportExtra.

(** * Properties *)

Local Open Scope list_scope.

Module ExecutorProofs.

Import KeyLinkr.

#[local] Arguments max_retries : simpl never.
#[local] Arguments Nat.leb : simpl never.
#[local] Arguments Nat.eqb : simpl never.

Ltac no_more := first [ exists []; simpl; rewrite app_nil_r; split; reflexivity
                      | eexists; simpl; split; reflexivity ].

Section Executor.

Context {S : Type}.
Variable py_int : string -> option Z.

Implicit Types w : World S.

Lemma sleeps_app (t1 t2 : list Event) : sleeps (t1 ++ t2) = sleeps t1 ++ sleeps t2.
Proof. unfold sleeps. apply omap_app. Qed.

(** One iteration of the loop on a rate-limited answer below the cap:
    print, sleep for the computed delay, and go round again with one more
    retry counted. *)
Lemma retry_loop_429 {A} `{Payload A} fuel (call : Call (S:=S) A) retries w r s' :
  call (srv w) = (Answered r, s') ->
  status r = 429%nat ->
  (retries < max_retries)%nat ->
  retry_loop py_int (Datatypes.S fuel) call retries w =
  retry_loop py_int fuel call (retries + 1)
    {| srv := s';
       trace := trace w ++
                [EvRequest;
                 EvPrint (MsgRateLimited (backoff_delay py_int (retry_after r) retries)
                                         (retries + 1));
                 EvSleep (backoff_delay py_int (retry_after r) retries)];
       permits := permits w |}.
Proof.
  intros Hcall Hst Hlt. simpl.
  assert (Hle : (retries <=? max_retries)%nat = true) by (apply Nat.leb_le; lia).
  rewrite Hle. unfold bind at 1. unfold send. rewrite Hcall. simpl.
  rewrite Hst. simpl.
  assert (Hge : (max_retries <=? retries)%nat = false) by (apply Nat.leb_gt; lia).
  rewrite Hge. unfold bind, print, sleep, emit. simpl.
  rewrite <- !app_assoc. reflexivity.
Qed.

Lemma retry_loop_connection_error {A} `{Payload A} fuel (call : Call (S:=S) A) retries w s' :
  call (srv w) = (Failed ClientConnectionError, s') ->
  (retries < max_retries)%nat ->
  retry_loop py_int (Datatypes.S fuel) call retries w =
  retry_loop py_int fuel call (retries + 1)
    {| srv := s';
       trace := trace w ++
                [EvRequest;
                 EvPrint (MsgConnectionClosed (2 ^ Z.of_nat retries) (retries + 1));
                 EvSleep (2 ^ Z.of_nat retries)];
       permits := permits w |}.
Proof.
  intros Hcall Hlt. simpl.
  assert (Hle : (retries <=? max_retries)%nat = true) by (apply Nat.leb_le; lia).
  rewrite Hle. unfold bind at 1. unfold send. rewrite Hcall. simpl.
  assert (Hge : (max_retries <=? retries)%nat = false) by (apply Nat.leb_gt; lia).
  rewrite Hge. unfold bind, print, sleep, emit. simpl.
  rewrite <- !app_assoc. reflexivity.
Qed.

(** On the last permitted attempt a rate-limited answer is handed back bare. *)
Lemma retry_loop_last_429 {A} `{Payload A} fuel (call : Call (S:=S) A) w r s' :
  call (srv w) = (Answered r, s') ->
  status r = 429%nat ->
  retry_loop py_int (Datatypes.S fuel) call max_retries w =
  (Ok (Bare r), {| srv := s'; trace := trace w ++ [EvRequest]; permits := permits w |}).
Proof.
  intros Hcall Hst. simpl. unfold bind at 1. unfold send. rewrite Hcall. simpl.
  rewrite Hst. reflexivity.
Qed.

(** One iteration of the loop, spelled out on worlds. *)
Lemma retry_loop_step {A} `{Payload A} fuel (call : Call (S:=S) A) retries w :
  retry_loop py_int (Datatypes.S fuel) call retries w =
  if (retries <=? max_retries)%nat then
    let w1 := {| srv := snd (call (srv w)); trace := trace w ++ [EvRequest];
                 permits := permits w |} in
    match fst (call (srv w)) with
    | Answered r =>
        if negb (status r =? 429)%nat then
          match content r with
          | NotUtf8 => (Raise UnicodeDecodeError, w1)
          | NotJson => (Ok (Pair r empty_dict), w1)
          | Json data => (Ok (Pair r data), w1)
          end
        else if (max_retries <=? retries)%nat then (Ok (Bare r), w1)
        else
          let d := backoff_delay py_int (retry_after r) retries in
          retry_loop py_int fuel call (retries + 1)
            {| srv := snd (call (srv w));
               trace := trace w ++ [EvRequest; EvPrint (MsgRateLimited d (retries + 1));
                                    EvSleep d];
               permits := permits w |}
    | Failed ClientConnectionError =>
        if (max_retries <=? retries)%nat then (Raise ClientConnectionError, w1)
        else
          let d := 2 ^ Z.of_nat retries in
          retry_loop py_int fuel call (retries + 1)
            {| srv := snd (call (srv w));
               trace := trace w ++ [EvRequest; EvPrint (MsgConnectionClosed d (retries + 1));
                                    EvSleep d];
               permits := permits w |}
    | Failed e => (Raise e, w1)
    end
  else (Raise MaxRetriesExceeded, w).
Proof.
  simpl. destruct (retries <=? max_retries)%nat; [|reflexivity].
  unfold bind at 1. unfold send. cbv beta.
  destruct (call (srv w)) as [o s']. simpl.
  destruct o as [e|r].
  - destruct e; try reflexivity.
    destruct (max_retries <=? retries)%nat; [reflexivity|].
    unfold bind, print, sleep, emit. simpl. rewrite <- !app_assoc. reflexivity.
  - destruct (negb (status r =? 429)%nat).
    + destruct (content r); reflexivity.
    + destruct (max_retries <=? retries)%nat; [reflexivity|].
      unfold bind, print, sleep, emit. simpl. rewrite <- !app_assoc. reflexivity.
Qed.

(** The loop only ever adds to the trace, and leaves the permits alone. *)
Lemma retry_loop_extends {A} `{Payload A} fuel (call : Call (S:=S) A) retries w :
  exists t, trace (snd (retry_loop py_int fuel call retries w)) = trace w ++ t
            /\ permits (snd (retry_loop py_int fuel call retries w)) = permits w.
Proof.
  revert retries w. induction fuel as [|fuel IH]; intros retries w.
  - no_more.
  - rewrite retry_loop_step.
    destruct (retries <=? max_retries)%nat; [|no_more]. cbv zeta.
    destruct (fst (call (srv w))) as [e|r].
    + destruct e; try no_more.
      destruct (max_retries <=? retries)%nat; [no_more|].
      match goal with |- context [retry_loop _ _ _ _ ?w1] =>
        destruct (IH (retries + 1)%nat w1) as (t & Ht & Hp) end.
      rewrite Ht, Hp. simpl. rewrite <- !app_assoc. eauto.
    + destruct (negb (status r =? 429)%nat).
      * destruct (content r); no_more.
      * destruct (max_retries <=? retries)%nat; [no_more|].
        match goal with |- context [retry_loop _ _ _ _ ?w1] =>
          destruct (IH (retries + 1)%nat w1) as (t & Ht & Hp) end.
        rewrite Ht, Hp. simpl. rewrite <- !app_assoc. eauto.
Qed.

(** Rate-limited on the last permitted attempt, after transient failures on
    all the attempts before: the bare response comes back. *)
Lemma retry_loop_exhausted {A} `{Payload A} (call : Call (S:=S) A) r n :
  forall fuel retries w,
  (retries + n = max_retries)%nat ->
  (n < fuel)%nat ->
  (forall k, (k < n)%nat -> is_transient (fst (outcome_at call (srv w) k)) = true) ->
  fst (outcome_at call (srv w) n) = Answered r ->
  status r = 429%nat ->
  exists w', retry_loop py_int fuel call retries w = (Ok (Bare r), w')
             /\ permits w' = permits w.
Proof.
  induction n as [|n IH]; intros fuel retries w Hn Hfuel Hpre Hlast Hst.
  - destruct fuel as [|fuel]; [lia|].
    assert (retries = max_retries) as -> by lia.
    simpl in Hlast. destruct (call (srv w)) as [o s'] eqn:Hcall. simpl in Hlast. subst o.
    rewrite (retry_loop_last_429 _ _ _ _ _ Hcall Hst). eauto.
  - destruct fuel as [|fuel]; [lia|].
    pose proof (Hpre 0%nat ltac:(lia)) as H0. simpl in H0.
    destruct (call (srv w)) as [o s'] eqn:Hcall. simpl in H0.
    assert (Hlt : (retries < max_retries)%nat) by lia.
    destruct o as [e|r0].
    + destruct e; try discriminate.
      rewrite (retry_loop_connection_error _ _ _ _ _ Hcall Hlt).
      match goal with |- context [retry_loop _ _ _ _ ?w1] =>
        destruct (IH fuel (retries + 1)%nat w1) as (w' & Hw' & Hp) end;
        [lia|lia| | |exact Hst|].
      3:{ exists w'. split; [exact Hw'|]. rewrite Hp. reflexivity. }
      * intros k Hk. simpl. specialize (Hpre (Datatypes.S k) ltac:(lia)).
        simpl in Hpre. rewrite Hcall in Hpre. exact Hpre.
      * simpl. simpl in Hlast. rewrite Hcall in Hlast. exact Hlast.
    + simpl in H0. apply Nat.eqb_eq in H0.
      rewrite (retry_loop_429 _ _ _ _ _ _ Hcall H0 Hlt).
      match goal with |- context [retry_loop _ _ _ _ ?w1] =>
        destruct (IH fuel (retries + 1)%nat w1) as (w' & Hw' & Hp) end;
        [lia|lia| | |exact Hst|].
      3:{ exists w'. split; [exact Hw'|]. rewrite Hp. reflexivity. }
      * intros k Hk. simpl. specialize (Hpre (Datatypes.S k) ltac:(lia)).
        simpl in Hpre. rewrite Hcall in Hpre. exact Hpre.
      * simpl. simpl in Hlast. rewrite Hcall in Hlast. exact Hlast.
Qed.

(** The sleep that follows attempt [retries + j], when that attempt is
    rate-limited below the cap. *)
Lemma retry_loop_sleep_at {A} `{Payload A} (call : Call (S:=S) A) r j :
  forall fuel retries w,
  (retries + j < max_retries)%nat ->
  (j < fuel)%nat ->
  (forall k, (k < j)%nat -> is_transient (fst (outcome_at call (srv w) k)) = true) ->
  fst (outcome_at call (srv w) j) = Answered r ->
  status r = 429%nat ->
  sleeps (trace (snd (retry_loop py_int fuel call retries w)))
    !! (length (sleeps (trace w)) + j)%nat
  = Some (backoff_delay py_int (retry_after r) (retries + j)).
Proof.
  induction j as [|j IH]; intros fuel retries w Hn Hfuel Hpre Hlast Hst.
  - destruct fuel as [|fuel]; [lia|].
    simpl in Hlast. destruct (call (srv w)) as [o s'] eqn:Hcall. simpl in Hlast. subst o.
    rewrite (retry_loop_429 _ _ _ _ _ _ Hcall Hst) by lia.
    match goal with |- context [retry_loop _ ?f _ ?k ?w1] =>
      destruct (retry_loop_extends f call k w1) as (t & Ht & _) end.
    rewrite Ht. simpl. rewrite !sleeps_app. simpl.
    rewrite Nat.add_0_r. rewrite <- app_assoc.
    rewrite lookup_app_r by lia. rewrite Nat.sub_diag. simpl.
    rewrite (Nat.add_0_r retries). reflexivity.
  - destruct fuel as [|fuel]; [lia|].
    pose proof (Hpre 0%nat ltac:(lia)) as H0. simpl in H0.
    destruct (call (srv w)) as [o s'] eqn:Hcall. simpl in H0.
    assert (Hlt : (retries < max_retries)%nat) by lia.
    destruct o as [e|r0].
    + destruct e; try discriminate.
      rewrite (retry_loop_connection_error _ _ _ _ _ Hcall Hlt).
      match goal with |- context [retry_loop _ ?f _ ?k ?w1] =>
        pose proof (IH f k w1) as IH' end.
      simpl in IH'. rewrite sleeps_app in IH'. simpl in IH'.
      rewrite length_app in IH'. simpl in IH'.
      replace (length (sleeps (trace w)) + Datatypes.S j)%nat
        with (length (sleeps (trace w)) + 1 + j)%nat by lia.
      replace (retries + Datatypes.S j)%nat with (retries + 1 + j)%nat by lia.
      apply IH'; [lia|lia| | |exact Hst].
      * intros k Hk. specialize (Hpre (Datatypes.S k) ltac:(lia)).
        simpl in Hpre. rewrite Hcall in Hpre. exact Hpre.
      * simpl in Hlast. rewrite Hcall in Hlast. exact Hlast.
    + simpl in H0. apply Nat.eqb_eq in H0.
      rewrite (retry_loop_429 _ _ _ _ _ _ Hcall H0 Hlt).
      match goal with |- context [retry_loop _ ?f _ ?k ?w1] =>
        pose proof (IH f k w1) as IH' end.
      simpl in IH'. rewrite sleeps_app in IH'. simpl in IH'.
      rewrite length_app in IH'. simpl in IH'.
      replace (length (sleeps (trace w)) + Datatypes.S j)%nat
        with (length (sleeps (trace w)) + 1 + j)%nat by lia.
      replace (retries + Datatypes.S j)%nat with (retries + 1 + j)%nat by lia.
      apply IH'; [lia|lia| | |exact Hst].
      * intros k Hk. specialize (Hpre (Datatypes.S k) ltac:(lia)).
        simpl in Hpre. rewrite Hcall in Hpre. exact Hpre.
      * simpl in Hlast. rewrite Hcall in Hlast. exact Hlast.
Qed.

Lemma requests_app (t1 t2 : list Event) :
  requests (t1 ++ t2) = (requests t1 + requests t2)%nat.
Proof. unfold requests. rewrite List.filter_app, length_app. reflexivity. Qed.

(** An iteration that is entered starts by sending the request. *)
Lemma retry_loop_begins_with_request {A} `{Payload A} fuel (call : Call (S:=S) A) retries w :
  (retries <= max_retries)%nat ->
  exists t, trace (snd (retry_loop py_int (Datatypes.S fuel) call retries w))
            = trace w ++ EvRequest :: t.
Proof.
  intros Hle. rewrite retry_loop_step.
  apply Nat.leb_le in Hle. rewrite Hle. cbv zeta.
  destruct (fst (call (srv w))) as [e|r].
  - destruct e; try (exists []; reflexivity).
    destruct (max_retries <=? retries)%nat; [exists []; reflexivity|].
    match goal with |- context [retry_loop _ ?f _ ?k ?w1] =>
      destruct (retry_loop_extends f call k w1) as (t & Ht & _) end.
    rewrite Ht. simpl. rewrite <- app_assoc. simpl. eauto.
  - destruct (negb (status r =? 429)%nat).
    + destruct (content r); exists []; reflexivity.
    + destruct (max_retries <=? retries)%nat; [exists []; reflexivity|].
      match goal with |- context [retry_loop _ ?f _ ?k ?w1] =>
        destruct (retry_loop_extends f call k w1) as (t & Ht & _) end.
      rewrite Ht. simpl. rewrite <- app_assoc. simpl. eauto.
Qed.

(** Attempt [retries + j], rate-limited below the cap, is followed by the
    printed notice, the sleep for the computed delay, and only then by the
    next attempt. [before] holds the [j] attempts made earlier. *)
Lemma retry_loop_backoff_at {A} `{Payload A} (call : Call (S:=S) A) r j :
  forall fuel retries w,
  (retries + j < max_retries)%nat ->
  (j + 1 < fuel)%nat ->
  (forall k, (k < j)%nat -> is_transient (fst (outcome_at call (srv w) k)) = true) ->
  fst (outcome_at call (srv w) j) = Answered r ->
  status r = 429%nat ->
  exists before after,
    trace (snd (retry_loop py_int fuel call retries w)) =
      trace w ++ before ++
        [EvRequest;
         EvPrint (MsgRateLimited (backoff_delay py_int (retry_after r) (retries + j))
                                 (retries + j + 1));
         EvSleep (backoff_delay py_int (retry_after r) (retries + j));
         EvRequest] ++ after
    /\ requests before = j.
Proof.
  induction j as [|j IH]; intros fuel retries w Hn Hfuel Hpre Hlast Hst.
  - destruct fuel as [|fuel]; [lia|]. destruct fuel as [|fuel]; [lia|].
    simpl in Hlast. destruct (call (srv w)) as [o s'] eqn:Hcall. simpl in Hlast. subst o.
    rewrite (retry_loop_429 _ _ _ _ _ _ Hcall Hst) by lia.
    match goal with |- context [retry_loop _ (Datatypes.S ?f) _ ?k ?w1] =>
      destruct (retry_loop_begins_with_request f call k w1) as (t & Ht); [lia|] end.
    rewrite Ht. simpl. exists [], t. rewrite (Nat.add_0_r retries).
    split; [|reflexivity]. simpl. rewrite <- app_assoc. reflexivity.
  - destruct fuel as [|fuel]; [lia|].
    pose proof (Hpre 0%nat ltac:(lia)) as H0. simpl in H0.
    destruct (call (srv w)) as [o s'] eqn:Hcall. simpl in H0.
    assert (Hlt : (retries < max_retries)%nat) by lia.
    assert (Hpre' : forall k, (k < j)%nat ->
              is_transient (fst (outcome_at call s' k)) = true).
    { intros k Hk. specialize (Hpre (Datatypes.S k) ltac:(lia)).
      simpl in Hpre. rewrite Hcall in Hpre. exact Hpre. }
    assert (Hlast' : fst (outcome_at call s' j) = Answered r).
    { simpl in Hlast. rewrite Hcall in Hlast. exact Hlast. }
    destruct o as [e|r0].
    + destruct e; try discriminate.
      rewrite (retry_loop_connection_error _ _ _ _ _ Hcall Hlt).
      match goal with |- context [retry_loop _ ?f _ ?k ?w1] =>
        destruct (IH f k w1) as (before & after & Ht & Hb);
          [lia|lia|exact Hpre'|exact Hlast'|exact Hst|] end.
      rewrite Ht. simpl.
      eexists (_ :: _ :: _ :: before), after. split.
      * rewrite <- app_assoc. simpl.
        replace (retries + 1 + j)%nat with (retries + Datatypes.S j)%nat by lia.
        reflexivity.
      * unfold requests in *. simpl. rewrite Hb. reflexivity.
    + simpl in H0. apply Nat.eqb_eq in H0.
      rewrite (retry_loop_429 _ _ _ _ _ _ Hcall H0 Hlt).
      match goal with |- context [retry_loop _ ?f _ ?k ?w1] =>
        destruct (IH f k w1) as (before & after & Ht & Hb);
          [lia|lia|exact Hpre'|exact Hlast'|exact Hst|] end.
      rewrite Ht. simpl.
      eexists (_ :: _ :: _ :: before), after. split.
      * rewrite <- app_assoc. simpl.
        replace (retries + 1 + j)%nat with (retries + Datatypes.S j)%nat by lia.
        reflexivity.
      * unfold requests in *. simpl. rewrite Hb. reflexivity.
Qed.

(** The loop always comes back: with the fuel [request_with_retries] gives
    it, it never runs dry. *)
Lemma retry_loop_returns {A} `{Payload A} (call : Call (S:=S) A) n :
  forall fuel retries w,
  (retries + n = max_retries)%nat ->
  (n < fuel)%nat ->
  fst (retry_loop py_int fuel call retries w) <> Diverge.
Proof.
  induction n as [|n IH]; intros fuel retries w Hn Hfuel;
    (destruct fuel as [|fuel]; [lia|]); rewrite retry_loop_step;
    (assert (Hle : (retries <=? max_retries)%nat = true) by (apply Nat.leb_le; lia));
    rewrite Hle; cbv zeta.
  - assert (Hge : (max_retries <=? retries)%nat = true) by (apply Nat.leb_le; lia).
    rewrite Hge.
    destruct (fst (call (srv w))) as [e|r].
    + destruct e; discriminate.
    + destruct (negb (status r =? 429)%nat); [destruct (content r)|]; discriminate.
  - destruct (fst (call (srv w))) as [e|r].
    + destruct e; try discriminate.
      destruct (max_retries <=? retries)%nat; [discriminate|]. apply IH; lia.
    + destruct (negb (status r =? 429)%nat); [destruct (content r); discriminate|].
      destruct (max_retries <=? retries)%nat; [discriminate|]. apply IH; lia.
Qed.

Lemma request_with_retries_returns {A} `{Payload A} (call : Call (S:=S) A) w :
  fst (request_with_retries py_int call w) <> Diverge.
Proof.
  unfold request_with_retries. apply (retry_loop_returns call max_retries); [lia|].
  unfold max_retries. lia.
Qed.

(** The [raise] after the loop (line 81) is dead code: the loop is left only
    through a [return] or a [raise] inside it. *)
Lemma retry_loop_never_leaves_while {A} `{Payload A} (call : Call (S:=S) A) :
  forall fuel retries w,
  (retries <= max_retries)%nat ->
  (forall s, fst (call s) <> Failed MaxRetriesExceeded) ->
  fst (retry_loop py_int fuel call retries w) <> Raise MaxRetriesExceeded.
Proof.
  induction fuel as [|fuel IH]; intros retries w Hle Hcall; [discriminate|].
  rewrite retry_loop_step.
  assert (Hle' : (retries <=? max_retries)%nat = true) by (apply Nat.leb_le; lia).
  rewrite Hle'. cbv zeta.
  pose proof (Hcall (srv w)) as Hc.
  destruct (fst (call (srv w))) as [e|r].
  - destruct e; try discriminate; [|congruence].
    destruct (max_retries <=? retries)%nat eqn:Hge; [discriminate|].
    apply IH; [apply Nat.leb_gt in Hge; lia|exact Hcall].
  - destruct (negb (status r =? 429)%nat); [destruct (content r); discriminate|].
    destruct (max_retries <=? retries)%nat eqn:Hge; [discriminate|].
    apply IH; [apply Nat.leb_gt in Hge; lia|exact Hcall].
Qed.

Lemma claimed_delay_backoff_delay k hdr d :
  claimed_delay py_int k hdr d -> d = backoff_delay py_int hdr k.
Proof.
  intros Hd. destruct Hd as [text h Hh| |text Hh]; unfold backoff_delay;
    try rewrite Hh; reflexivity.
Qed.

Lemma request_with_retries_exhausted {A} `{Payload A} (call : Call (S:=S) A) w :
  exhausted_by_429 call (srv w) ->
  exists r w', request_with_retries py_int call w = (Ok (Bare r), w')
               /\ status r = 429%nat /\ permits w' = permits w
               /\ exists t, trace w' = trace w ++ t.
Proof.
  intros [Hpre (r & Hlast & Hst)].
  destruct (retry_loop_exhausted call r max_retries (max_retries + 2) 0 w)
    as (w' & Hw' & Hp); [reflexivity|unfold max_retries; lia|exact Hpre|exact Hlast|exact Hst|].
  exists r, w'. unfold request_with_retries. repeat split; try assumption.
  destruct (retry_loop_extends (max_retries + 2) call 0 w) as (t & Ht & _).
  rewrite Hw' in Ht. simpl in Ht. eauto.
Qed.

(** ** Backoff *)

(** C4. On a rate-limited answer to attempt [k] (counted from zero, below
    the cap of ten retries), the executor prints its notice, sleeps for the
    delay the specification gives -- the integer of the Retry-After header
    when there is one, two to the power [k] when the header is absent or is
    not an integer -- and only then sends the next attempt. *)
Theorem backoff_delay_before_next_attempt {A} `{Payload A}
    (call : Call (S:=S) A) (w : World S) (k : nat) (r : Response A) (d : Z) :
  (k < max_retries)%nat ->
  (forall j, (j < k)%nat -> is_transient (fst (outcome_at call (srv w) j)) = true) ->
  fst (outcome_at call (srv w) k) = Answered r ->
  status r = 429%nat ->
  claimed_delay py_int k (retry_after r) d ->
  exists before after,
    trace (snd (request_with_retries py_int call w)) =
      trace w ++ before ++
        [EvRequest; EvPrint (MsgRateLimited d (k + 1)); EvSleep d; EvRequest] ++ after
    /\ requests before = k.
Proof.
  intros Hk Hpre Hlast Hst Hd.
  apply claimed_delay_backoff_delay in Hd. subst d.
  unfold request_with_retries.
  destruct (retry_loop_backoff_at call r k (max_retries + 2) 0 w)
    as (before & after & Ht & Hb); try assumption; try (unfold max_retries in *; lia).
  exists before, after. split; [exact Ht|exact Hb].
Qed.

End Executor.

(** The first retry honours [Retry-After: 5]. *)
Lemma backoff_delay_before_next_attempt_witness :
  exists before after,
    trace (snd (request_with_retries Examples.parse_int Examples.flaky_call
                  (Examples.fresh 0%nat 0))) =
      [] ++ before ++
        [EvRequest; EvPrint (MsgRateLimited 5 (0 + 1)); EvSleep 5; EvRequest] ++ after
    /\ requests before = 0%nat.
Proof.
  apply (backoff_delay_before_next_attempt Examples.parse_int Examples.flaky_call
           (Examples.fresh 0%nat 0) 0 (Examples.answer 429 (Some "5") []) 5).
  - unfold max_retries. lia.
  - intros j Hj. lia.
  - reflexivity.
  - reflexivity.
  - apply delay_from_header. reflexivity.
Defined.

(** The delays of the flaky service: 5 from the header, then 2 and 4. *)
Example flaky_sleeps :
  sleeps (trace (snd (request_with_retries Examples.parse_int Examples.flaky_call
                        (Examples.fresh 0%nat 0)))) = [5; 2; 4].
Proof. vm_compute. reflexivity. Qed.

(** ** Exhaustion *)

(** C2. Rate-limited on all eleven attempts, the executor hands back the
    bare last response as an ordinary value, after sleeping
    1, 2, 4, ..., 512 seconds: no exception reaches the caller. *)
Theorem always_429_returns_bare_response :
  fst (request_with_retries (A := list Key) Examples.parse_int Examples.throttled_call
         (Examples.fresh 0%nat 0))
  = Ok (Bare (Examples.answer 429 None []))
  /\ requests (trace (snd (request_with_retries (A := list Key) Examples.parse_int
                             Examples.throttled_call (Examples.fresh 0%nat 0))))
     = 11%nat
  /\ sleeps (trace (snd (request_with_retries (A := list Key) Examples.parse_int
                           Examples.throttled_call (Examples.fresh 0%nat 0))))
     = [1; 2; 4; 8; 16; 32; 64; 128; 256; 512].
Proof. repeat split; vm_compute; reflexivity. Qed.

End ExecutorProofs.

Module CallerProofs.

Import KeyLinkr.
Import ExecutorProofs.

Section Callers.

Context {S : Type}.
Variable py_int : string -> option Z.
Variable parse_pagination : string -> PaginationParse.
Variable api : Service S.

Implicit Types w : World S.

(** [let! x := m in k] when [m] is known to yield a value. *)
Lemma bind_ok {W A B} (m : M W A) (k : A -> M W B) (w : W) a (w' : W) :
  m w = (Ok a, w') -> (let! x := m in k x) w = k a w'.
Proof. intros Hm. unfold bind. rewrite Hm. reflexivity. Qed.

Lemma bind_raise {W A B} (m : M W A) (k : A -> M W B) (w : W) e (w' : W) :
  m w = (Raise e, w') -> (let! x := m in k x) w = (Raise e, w').
Proof. intros Hm. unfold bind. rewrite Hm. reflexivity. Qed.

(** ** Callers of an exhausted request *)

(** C9. When the last permitted attempt (the eleventh) is answered 429,
    request_with_retries returns the response alone, not a pair; unpacking it
    into two values raises TypeError at the call: get_all_keys and
    get_linked_child_keys let it escape, get_key_detail and create_key_link
    land in their exception handlers (no key detail, no link, the error
    printed). *)
Theorem bare_response_breaks_callers {A} `{Payload A} (call : Call (S:=S) A)
    (w : World S) (fuel per_page : nat)
    (project_id q_string key_id parent_key_id : string) (child_key_ids : list string) :
  exhausted_by_429 call (srv w) ->
  exhausted_by_429
    (GET_keys api project_id
       {| page := 1; per_page := per_page;
          q := if truthy_str q_string then Some q_string else None |}) (srv w) ->
  exhausted_by_429 (GET_key api project_id key_id) (srv w) ->
  exhausted_by_429 (GET_key_links api project_id (Some parent_key_id)) (srv w) ->
  exhausted_by_429 (POST_key_links api project_id parent_key_id child_key_ids) (srv w) ->
  (0 < permits w)%nat ->
  (exists r w',
      request_with_retries py_int call w = (Ok (Bare r), w')
      /\ status r = 429%nat
      /\ unpack2 (Bare r) w' = (Raise unpack_error, w'))
  /\ (exists w',
        get_all_keys py_int parse_pagination api (Datatypes.S fuel)
          project_id per_page q_string w = (Raise unpack_error, w'))
  /\ (exists w',
        get_key_detail py_int api project_id key_id w = (Ok None, w')
        /\ exists t, trace w' = t ++ [EvPrint (MsgDetailError key_id unpack_error)])
  /\ (exists w',
        get_linked_child_keys py_int api project_id (Some parent_key_id) w
        = (Raise unpack_error, w'))
  /\ (exists w',
        create_key_link py_int api project_id parent_key_id child_key_ids w = (Ok tt, w')
        /\ exists t, trace w'
                     = t ++ [EvPrint (MsgLinkException parent_key_id child_key_ids
                                        unpack_error)]).
Proof.
  intros Hcall Hkeys Hkey Hlinks Hpost Hpermits.
  split; [|split; [|split; [|split]]].
  - destruct (request_with_retries_exhausted py_int call w Hcall)
      as (r & w' & Hr & Hst & _).
    exists r, w'. repeat split; assumption.
  - destruct (request_with_retries_exhausted py_int _ w Hkeys)
      as (r & w' & Hr & Hst & _).
    exists w'. unfold get_all_keys. simpl.
    rewrite (bind_ok _ _ _ _ _ Hr). reflexivity.
  - destruct (permits w) as [|n] eqn:Hn; [lia|].
    set (w1 := {| srv := srv w; trace := trace w; permits := n |}).
    destruct (request_with_retries_exhausted py_int (GET_key api project_id key_id) w1 Hkey)
      as (r & w' & Hr & Hst & _ & t & Ht).
    eexists. unfold get_key_detail, with_semaphore, acquire. rewrite Hn. fold w1.
    unfold get_key_detail_block, try_except.
    rewrite (bind_ok _ _ _ _ _ Hr). simpl.
    split; [reflexivity|]. simpl. eexists. reflexivity.
  - destruct (request_with_retries_exhausted py_int _ w Hlinks)
      as (r & w' & Hr & Hst & _).
    exists w'. unfold get_linked_child_keys.
    rewrite (bind_ok _ _ _ _ _ Hr). reflexivity.
  - destruct (permits w) as [|n] eqn:Hn; [lia|].
    set (w1 := {| srv := srv w; trace := trace w; permits := n |}).
    destruct (request_with_retries_exhausted py_int
                (POST_key_links api project_id parent_key_id child_key_ids) w1 Hpost)
      as (r & w' & Hr & Hst & _ & t & Ht).
    eexists. unfold create_key_link, with_semaphore, acquire. rewrite Hn. fold w1.
    unfold create_key_link_block, try_except.
    rewrite (bind_ok _ _ _ _ _ Hr). simpl.
    split; [reflexivity|]. simpl. eexists. reflexivity.
Qed.

End Callers.

Ltac throttled_exhausted :=
  split;
  [ let k := fresh "k" in let Hk := fresh "Hk" in
    intros k Hk; unfold max_retries in Hk;
    do 10 (destruct k as [|k]; [reflexivity|]); lia
  | eexists; split; reflexivity ].

(** Against the service that rate-limits every request. *)
Lemma bare_response_breaks_callers_witness :
  (exists r w',
      request_with_retries Examples.parse_int (Examples.throttled_call (A := list Key))
        (Examples.fresh 0%nat 1) = (Ok (Bare r), w')
      /\ status r = 429%nat
      /\ unpack2 (Bare r) w' = (Raise unpack_error, w'))
  /\ (exists w',
        get_all_keys Examples.parse_int Examples.parse_page_count Examples.throttled 1
          "child" 100 "" (Examples.fresh 0%nat 1) = (Raise unpack_error, w'))
  /\ (exists w',
        get_key_detail Examples.parse_int Examples.throttled "child" "k1"
          (Examples.fresh 0%nat 1) = (Ok None, w')
        /\ exists t, trace w' = t ++ [EvPrint (MsgDetailError "k1" unpack_error)])
  /\ (exists w',
        get_linked_child_keys Examples.parse_int Examples.throttled "child" (Some "p1")
          (Examples.fresh 0%nat 1) = (Raise unpack_error, w'))
  /\ (exists w',
        create_key_link Examples.parse_int Examples.throttled "child" "p1" ["k1"]
          (Examples.fresh 0%nat 1) = (Ok tt, w')
        /\ exists t, trace w'
                     = t ++ [EvPrint (MsgLinkException "p1" ["k1"] unpack_error)]).
Proof.
  apply (bare_response_breaks_callers Examples.parse_int Examples.parse_page_count
           Examples.throttled (Examples.throttled_call (A := list Key))
           (Examples.fresh 0%nat 1) 0 100 "child" "" "k1" "p1" ["k1"]).
  - throttled_exhausted.
  - throttled_exhausted.
  - throttled_exhausted.
  - throttled_exhausted.
  - throttled_exhausted.
  - simpl. lia.
Defined.

End CallerProofs.

Module PaginatorProofs.

Import KeyLinkr.
Import ExecutorProofs.
Import CallerProofs.

Section Paginator.

Context {S : Type}.
Variable py_int : string -> option Z.
Variable parse_pagination : string -> PaginationParse.
Variable api : Service S.

(** An answer other than 429 comes back from the first attempt. *)
Lemma request_with_retries_answered {A} `{Payload A} (call : Call (S:=S) A)
    (w : World S) r data :
  fst (call (srv w)) = Answered r ->
  (status r =? 429)%nat = false ->
  content r = Json data ->
  request_with_retries py_int call w =
  (Ok (Pair r data),
   {| srv := snd (call (srv w)); trace := trace w ++ [EvRequest]; permits := permits w |}).
Proof.
  intros Hcall Hst Hc. unfold request_with_retries.
  change (max_retries + 2)%nat with (Datatypes.S (max_retries + 1)).
  rewrite retry_loop_step. simpl. rewrite Hcall, Hst, Hc. reflexivity.
Qed.

(** get_all_keys never asks for a second page: [totalPage] stays at 1, so
    after a first page with items the loop condition fails. *)
Lemma get_all_keys_one_page (fuel : nat) (project_id : string) (per_page : nat)
    (q_string : string) (w : World S) r data :
  let call := GET_keys api project_id
                {| page := 1; per_page := per_page;
                   q := if truthy_str q_string then Some q_string else None |} in
  fst (call (srv w)) = Answered r ->
  status r = 200%nat ->
  content r = Json data ->
  (truthy_ostr (pagination r) = false
   \/ exists c, parse_pagination (default "" (pagination r)) = PgObject c) ->
  get_all_keys py_int parse_pagination api (Datatypes.S (Datatypes.S fuel))
    project_id per_page q_string w
  = (Ok data,
     {| srv := snd (call (srv w));
        trace := trace w ++ [EvRequest; EvPrint (MsgKeysPage project_id 1)];
        permits := permits w |}).
Proof.
  intros call Hcall Hst Hc Hpg.
  assert (Hr := request_with_retries_answered call w r data Hcall
                  ltac:(rewrite Hst; reflexivity) Hc).
  unfold get_all_keys.
  cbn [get_all_keys_loop]. change (1 <=? 1)%nat with true. cbv iota.
  fold call. rewrite (bind_ok _ _ _ _ _ Hr).
  unfold unpack2, bind, ret, print, emit, sys_exit, raise. cbv beta iota.
  rewrite Hst. simpl.
  destruct Hpg as [Hpg|[c Hpg]].
  - rewrite Hpg. destruct data as [|x data]; simpl; rewrite <- app_assoc; reflexivity.
  - destruct (truthy_ostr (pagination r)).
    + rewrite Hpg. destruct data as [|x data]; simpl; rewrite <- app_assoc; reflexivity.
    + destruct data as [|x data]; simpl; rewrite <- app_assoc; reflexivity.
Qed.

End Paginator.

(** ** Synthetic listings *)

(** On a synthetic listing get_all_keys returns the first page and nothing
    else, in both modes: without a Pagination header and with one that
    [json.loads] accepts. *)
Lemma get_all_keys_listing (parse_pagination : string -> PaginationParse)
    (projects : list Project) (keys : list Key) (header : option string)
    (fuel per_page : nat) (project_id q_string : string) (w : World unit) :
  (header = None \/ exists c, parse_pagination (default "" header) = PgObject c) ->
  fst (get_all_keys Examples.parse_int parse_pagination
         (Examples.listing projects keys header)
         (Datatypes.S (Datatypes.S fuel)) project_id per_page q_string w)
  = Ok (take per_page keys)
  /\ requests (trace (snd (get_all_keys Examples.parse_int parse_pagination
                             (Examples.listing projects keys header)
                             (Datatypes.S (Datatypes.S fuel)) project_id per_page
                             q_string w)))
     = Datatypes.S (requests (trace w)).
Proof.
  intros Hh.
  erewrite get_all_keys_one_page; [| reflexivity | reflexivity | reflexivity |].
  - simpl. split; [reflexivity|]. rewrite requests_app. unfold requests. simpl. lia.
  - simpl. destruct Hh as [->|Hh]; [left; reflexivity|right; exact Hh].
Qed.

(** C1. A listing of three keys in pages of two: get_all_keys yields the two
    keys of the first page and stops after one request, whether the pages
    carry no Pagination header (empty-page mode) or the header with the page
    count 2 (total-page-count mode). *)
Theorem get_all_keys_stops_after_first_page :
  fst (get_all_keys Examples.parse_int Examples.parse_page_count
         (Examples.listing [] Examples.three_keys None) 10 "child" 2 ""
         (Examples.fresh tt 0))
  = Ok [Examples.key "k1" "alpha"; Examples.key "k2" "beta"]
  /\ fst (get_all_keys Examples.parse_int Examples.parse_page_count
            (Examples.listing [] Examples.three_keys (Some "2")) 10 "child" 2 ""
            (Examples.fresh tt 0))
     = Ok [Examples.key "k1" "alpha"; Examples.key "k2" "beta"]
  /\ requests (trace (snd (get_all_keys Examples.parse_int Examples.parse_page_count
                             (Examples.listing [] Examples.three_keys (Some "2")) 10
                             "child" 2 "" (Examples.fresh tt 0))))
     = 1%nat.
Proof. repeat split; vm_compute; reflexivity. Qed.

(** The same with the header as the API sends it, a JSON object with the
    page count 2: the count is stored in [total_pages] and never read, and
    the loop stops after the first page all the same. A header that is a
    bare number has no [get]: AttributeError. *)
Example get_all_keys_object_header :
  get_all_keys Examples.parse_int Examples.parse_pagination_header
    (Examples.listing [] Examples.three_keys (Some (Examples.pagination_header "2")))
    10 "child" 2 "" (Examples.fresh tt 0)
  = (Ok [Examples.key "k1" "alpha"; Examples.key "k2" "beta"],
     {| srv := tt; trace := [EvRequest; EvPrint (MsgKeysPage "child" 1)]; permits := 0 |})
  /\ fst (get_all_keys Examples.parse_int Examples.parse_pagination_header
            (Examples.listing [] Examples.three_keys (Some "2"))
            10 "child" 2 "" (Examples.fresh tt 0))
     = Raise AttributeError.
Proof. split; vm_compute; reflexivity. Qed.

(** *** The sibling loop of get_all_projects does traverse the listing *)

Lemma page_of_next {A} (items : list A) (per_page k : nat) :
  take (k * per_page) items ++ Examples.page_of items per_page (k + 1)
  = take ((k + 1) * per_page) items.
Proof.
  unfold Examples.page_of. replace (k + 1 - 1)%nat with k by lia.
  replace ((k + 1) * per_page)%nat with (k * per_page + per_page)%nat by lia.
  apply take_take_drop.
Qed.

Lemma get_all_projects_loop_listing (projects : list Project) (keys : list Key)
    (header : option string) (per_page : nat) :
  (0 < per_page)%nat ->
  forall fuel k (w : World unit),
  (length (drop (k * per_page) projects) < fuel)%nat ->
  fst (get_all_projects_loop (Examples.listing projects keys header) fuel per_page
         (take (k * per_page) projects) (k + 1) w)
  = Ok projects.
Proof.
  intros Hpp. induction fuel as [|fuel IH]; intros k w Hfuel; [lia|].
  cbn [get_all_projects_loop].
  unfold bind at 1. unfold send. cbn [Examples.listing GET_projects].
  cbv beta iota. simpl status. simpl content.
  unfold bind at 1. unfold print at 1, emit at 1. cbv beta iota.
  change (negb (200 =? 200)%nat) with false. cbv iota.
  unfold bind at 1. unfold print at 1, emit at 1. cbv beta iota.
  cbn [KeyLinkr.page KeyLinkr.per_page].
  destruct (Examples.page_of projects per_page (k + 1)) as [|x data] eqn:Hpage.
  - simpl. f_equal.
    unfold Examples.page_of in Hpage. replace (k + 1 - 1)%nat with k in Hpage by lia.
    assert (Hd : drop (k * per_page) projects = []).
    { destruct (drop (k * per_page) projects) as [|y rest]; [reflexivity|].
      destruct per_page; [lia|]. discriminate. }
    rewrite <- (take_drop (k * per_page) projects) at 2. rewrite Hd, app_nil_r.
    reflexivity.
  - cbn [truthy Payload_list truthy_list negb]. rewrite <- Hpage, page_of_next.
    replace (k + 1 + 1)%nat with ((k + 1) + 1)%nat by lia.
    apply IH.
    unfold Examples.page_of in Hpage. replace (k + 1 - 1)%nat with k in Hpage by lia.
    assert (Hlen : (k * per_page < length projects)%nat).
    { destruct (decide (k * per_page < length projects)%nat) as [|Hge]; [assumption|].
      rewrite drop_ge in Hpage by lia. rewrite take_nil in Hpage. discriminate. }
    rewrite length_drop in *. nia.
Qed.

(** Empty-page termination does work where the loop is written for it:
    get_all_projects returns every item of a synthetic listing, once each. *)
Lemma get_all_projects_complete (projects : list Project) (keys : list Key)
    (header : option string) (fuel per_page : nat) (w : World unit) :
  (0 < per_page)%nat ->
  (length projects < fuel)%nat ->
  fst (get_all_projects (Examples.listing projects keys header) fuel per_page w)
  = Ok projects.
Proof.
  intros Hpp Hfuel. unfold get_all_projects.
  apply (get_all_projects_loop_listing projects keys header per_page Hpp fuel 0 w).
  simpl. exact Hfuel.
Qed.

End PaginatorProofs.

Module LinkProofs.

Import KeyLinkr.

(** A loop keeps what each round keeps. *)
Lemma for_each_invariant {W A B} (I : B -> Prop) (body : B -> A -> M W B) (l : list A) :
  (forall acc x (w : W) acc' (w' : W),
      x ∈ l -> I acc -> body acc x w = (Ok acc', w') -> I acc') ->
  forall acc (w : W) r (w' : W),
  I acc -> for_each l acc body w = (Ok r, w') -> I r.
Proof.
  induction l as [|x l IH]; intros Hbody acc w r w' Hacc Hrun; simpl in Hrun.
  - unfold ret in Hrun. congruence.
  - unfold bind in Hrun. destruct (body acc x w) as [[acc1| | |] w1] eqn:Hx;
      try discriminate.
    eapply IH; [| |exact Hrun].
    + intros. eapply Hbody; [right|..]; eassumption.
    + eapply Hbody; [left|exact Hacc|exact Hx].
Qed.

Section Links.

Context {S : Type}.
Variable py_int : string -> option Z.
Variable parse_pagination : string -> PaginationParse.
Variable api : Service S.

Lemma linked_to_any_true linked_keys_dict child_key_id :
  already_linked linked_keys_dict child_key_id ->
  linked_to_any linked_keys_dict child_key_id = true.
Proof.
  intros (parent & ids & Hlook & Hin). unfold linked_to_any.
  apply existsb_exists. exists ids. split.
  - apply in_map_iff. exists (parent, ids). split; [reflexivity|].
    apply list_elem_of_In. apply elem_of_map_to_list. exact Hlook.
  - apply bool_decide_eq_true. exact Hin.
Qed.

Lemma add_link_elem parent_key_id child_key_id key_links_map task :
  task ∈ add_link parent_key_id child_key_id key_links_map ->
  task ∈ key_links_map
  \/ (exists ids, task = (parent_key_id, ids ++ [child_key_id])
                 /\ (parent_key_id, ids) ∈ key_links_map)
  \/ task = (parent_key_id, [child_key_id]).
Proof.
  induction key_links_map as [|[k ids] rest IH]; simpl; intros Hin.
  - apply list_elem_of_singleton in Hin. right; right; exact Hin.
  - destruct (String.eqb k parent_key_id) eqn:Hk.
    + apply String.eqb_eq in Hk. subst k.
      apply elem_of_cons in Hin as [->|Hin].
      * right; left. exists ids. split; [reflexivity|left].
      * left. right. exact Hin.
    + apply elem_of_cons in Hin as [->|Hin].
      * left. left.
      * destruct (IH Hin) as [H1|[(ids' & -> & H2)| -> ]].
        -- left. right. exact H1.
        -- right; left. exists ids'. split; [reflexivity|right; exact H2].
        -- right; right. reflexivity.
Qed.

Lemma add_link_clean linked_keys_dict parent_key_id child_key_id key_links_map :
  linked_to_any linked_keys_dict child_key_id = false ->
  clean linked_keys_dict key_links_map ->
  clean linked_keys_dict (add_link parent_key_id child_key_id key_links_map).
Proof.
  intros Hnot Hclean x Hx task Htask Hin.
  assert (Hne : x <> child_key_id).
  { intros ->. rewrite (linked_to_any_true _ _ Hx) in Hnot. discriminate. }
  destruct (add_link_elem _ _ _ _ Htask) as [H1|[(ids & -> & H2)| -> ]].
  - exact (Hclean x Hx task H1 Hin).
  - simpl in Hin. apply elem_of_app in Hin as [Hin|Hin].
    + exact (Hclean x Hx _ H2 Hin).
    + apply list_elem_of_singleton in Hin. contradiction.
  - simpl in Hin. apply list_elem_of_singleton in Hin. contradiction.
Qed.

Lemma match_parent_key_clean linked_keys_dict child_key_map key_links_map parent_key
    (w : World S) key_links_map' (w' : World S) :
  clean linked_keys_dict key_links_map ->
  match_parent_key linked_keys_dict child_key_map key_links_map parent_key w
    = (Ok key_links_map', w') ->
  clean linked_keys_dict key_links_map'.
Proof.
  intros Hclean. unfold match_parent_key.
  destruct (negb (truthy_ostr (key_id parent_key))
            || negb (truthy_ostr (key_name parent_key))).
  { unfold ret. intros [= <- _]. exact Hclean. }
  destruct (truthy_ostr (child_key_map !! default "" (key_name parent_key))).
  2:{ unfold ret. intros [= <- _]. exact Hclean. }
  destruct (linked_to_parent _ _ _).
  { unfold bind, print, emit, ret. intros [= <- _]. exact Hclean. }
  destruct (linked_to_any _ _) eqn:Hany.
  { unfold bind, print, emit, ret. intros [= <- _]. exact Hclean. }
  unfold bind, print, emit, ret. intros [= <- _].
  apply add_link_clean; assumption.
Qed.

Lemma schedule_links_clean (fuel : nat) linked_keys_dict
    (parent_keys : list Key) (child_projects : list Project)
    (w : World S) tasks (w' : World S) :
  schedule_links py_int parse_pagination api fuel linked_keys_dict
    parent_keys child_projects w = (Ok tasks, w') ->
  clean linked_keys_dict tasks.
Proof.
  unfold schedule_links. apply for_each_invariant.
  - intros acc batch w1 acc1 w1' _ Hacc.
    apply for_each_invariant; [|exact Hacc].
    intros acc2 project w2 acc2' w2' _ Hacc2.
    unfold bind at 1.
    destruct (get_all_keys _ _ _ _ _ _ _ w2) as [[child_keys| | |] w3]; try discriminate.
    destruct (truthy_list child_keys).
    2:{ unfold ret. intros [= <- _]. exact Hacc2. }
    unfold bind at 1. unfold lift.
    destruct (child_key_map_of child_keys ∅) as [child_key_map| | |]; try discriminate.
    apply for_each_invariant; [|exact Hacc2].
    intros acc3 parent_key w4 acc3' w4' _ Hacc3. apply match_parent_key_clean. exact Hacc3.
  - intros x _ task Htask. apply elem_of_nil in Htask. contradiction.
Qed.

(** ** Link dedup *)

(** C3, as the code has it. In every linking run, a child key that the
    existing-links fetch showed linked to any parent key -- the one being
    matched or another -- is named by no scheduled link-creation call. *)
Theorem linked_child_never_scheduled (fuel : nat)
    (linked_keys_dict : gmap (option string) (list string))
    (parent_keys : list Key) (child_projects : list Project)
    (w : World S) (tasks : list (string * list string)) (child_key_id : string) :
  fst (schedule_links py_int parse_pagination api fuel linked_keys_dict
         parent_keys child_projects w) = Ok tasks ->
  already_linked linked_keys_dict child_key_id ->
  link_calls_naming child_key_id tasks = 0%nat.
Proof.
  intros Hrun Hlinked.
  destruct (schedule_links _ _ _ _ _ _ _ w) as [r w'] eqn:Hs. simpl in Hrun. subst r.
  pose proof (schedule_links_clean _ _ _ _ _ _ _ Hs) as Hclean.
  unfold link_calls_naming.
  assert (Hnone : forall l : list (string * list string),
            (forall task, task ∈ l -> child_key_id ∉ snd task) ->
            List.filter (fun task => bool_decide (child_key_id ∈ snd task)) l = []).
  { induction l as [|task l IH]; intros Hl; [reflexivity|]. simpl.
    rewrite bool_decide_eq_false_2 by (apply Hl; left).
    apply IH. intros t Ht. apply Hl. right. exact Ht. }
  rewrite Hnone; [reflexivity|]. exact (Hclean child_key_id Hlinked).
Qed.

End Links.

(** Child [X] is linked to parent [A] and has the name of parents [A] and
    [B]: only [Y] is scheduled. *)
Lemma linked_child_never_scheduled_witness :
  link_calls_naming "X" [("C", ["Y"])] = 0%nat.
Proof.
  apply (linked_child_never_scheduled Examples.parse_int Examples.parse_page_count
           Examples.twins_linked 5 {[ Some "A" := ["X"] ]}
           [Examples.key "A" "greeting"; Examples.key "B" "greeting";
            Examples.key "C" "farewell"]
           [{| proj_id := "child" |}] (Examples.fresh tt 4)).
  - vm_compute. reflexivity.
  - exists (Some "A"), ["X"]. split; [reflexivity|]. apply list_elem_of_singleton. reflexivity.
Defined.

Example main_tasks_twins_linked :
  fst (main_tasks Examples.parse_int Examples.parse_page_count Examples.twins_linked
         5 4 (Examples.fresh tt 0))
  = Ok [("C", ["Y"])].
Proof. vm_compute. reflexivity. Qed.

(** C3 as stated fails: two parent keys of one name, neither linked, and the
    child key of that name is put in the link-creation call of each. *)
Lemma twin_parents_schedule_child_twice :
  exists tasks,
    fst (main_tasks Examples.parse_int Examples.parse_page_count Examples.twins
           5 4 (Examples.fresh tt 0)) = Ok tasks
    /\ tasks = [("A", ["X"]); ("B", ["X"])]
    /\ link_calls_naming "X" tasks = 2%nat.
Proof.
  exists [("A", ["X"]); ("B", ["X"])].
  split; [vm_compute; reflexivity|]. split; [reflexivity|]. vm_compute. reflexivity.
Qed.

End LinkProofs.

Module SchedulerProofs.

Import KeyLinkr.
Import Scheduler.
Import ExecutorProofs.

Section Block.

Context {S : Type}.
Variable py_int : string -> option Z.
Variable api : Service S.

Lemma retry_loop_no_exit {A} `{Payload A} (call : Call (S:=S) A) :
  forall fuel retries (w : World S) c,
  fst (retry_loop py_int fuel call retries w) <> Exit c.
Proof.
  induction fuel as [|fuel IH]; intros retries w c; [discriminate|].
  rewrite retry_loop_step.
  destruct (retries <=? max_retries)%nat; [|discriminate]. cbv zeta.
  destruct (fst (call (srv w))) as [e|r].
  - destruct e; try discriminate.
    destruct (max_retries <=? retries)%nat; [discriminate|]. apply IH.
  - destruct (negb (status r =? 429)%nat); [destruct (content r); discriminate|].
    destruct (max_retries <=? retries)%nat; [discriminate|]. apply IH.
Qed.

(** The governed block of create_key_link always ends, and normally: what
    goes wrong inside is printed by its handlers. It leaves the permits as
    they are. *)
Lemma create_key_link_block_ok (parent_project_id parent_key_id : string)
    (child_key_ids : list string) (w : World S) :
  exists w', create_key_link_block py_int api parent_project_id parent_key_id
               child_key_ids w = (Ok tt, w')
             /\ permits w' = permits w.
Proof.
  unfold create_key_link_block, try_except.
  set (call := POST_key_links api parent_project_id parent_key_id child_key_ids).
  unfold bind at 1.
  pose proof (request_with_retries_returns py_int call w) as Hd.
  pose proof (retry_loop_no_exit call (max_retries + 2) 0 w) as He.
  destruct (retry_loop_extends py_int (max_retries + 2) call 0 w) as (t & _ & Hp).
  fold (request_with_retries py_int call) in He, Hp.
  destruct (request_with_retries py_int call w) as [[r|e|c|] w1]; simpl in *.
  - destruct r as [response data|response]; simpl.
    + unfold bind, ret, print, emit, raise.
      destruct data as [[m|] [[|[m0|] errors]|] [|]];
        destruct (negb (status response =? 201)%nat);
        simpl; eexists; (split; [reflexivity|simpl; exact Hp]).
    + unfold bind, raise, print, emit. simpl. eexists. split; [reflexivity|exact Hp].
  - unfold print, emit. simpl. eexists. split; [reflexivity|exact Hp].
  - exfalso. exact (He c eq_refl).
  - exfalso. exact (Hd eq_refl).
Qed.

(** create_key_link takes one permit before its governed block and gives it
    back after, whatever happened inside; with no permit free it waits. *)
Lemma create_key_link_permit (parent_project_id parent_key_id : string)
    (child_key_ids : list string) (w : World S) :
  match permits w with
  | O => fst (create_key_link py_int api parent_project_id parent_key_id
                child_key_ids w) = Diverge
  | Datatypes.S n =>
      exists w1,
        create_key_link_block py_int api parent_project_id parent_key_id child_key_ids
          {| srv := srv w; trace := trace w; permits := n |} = (Ok tt, w1)
        /\ permits w1 = n
        /\ create_key_link py_int api parent_project_id parent_key_id child_key_ids w
           = (Ok tt, {| srv := srv w1; trace := trace w1; permits := Datatypes.S n |})
  end.
Proof.
  unfold create_key_link, with_semaphore, acquire.
  destruct (permits w) as [|n]; [reflexivity|].
  destruct (create_key_link_block_ok parent_project_id parent_key_id child_key_ids
              {| srv := srv w; trace := trace w; permits := n |}) as (w1 & Hb & Hp).
  exists w1. rewrite Hb. simpl in Hp. repeat split; [exact Hp|].
  unfold release. simpl. rewrite Hp. reflexivity.
Qed.

End Block.

Section EventLoop.

Context {S : Type}.
Variable py_int : string -> option Z.
Variable api : Service S.
Variable parent_project_id : string.
Variable tasks : list (string * list string).

Abbreviation resume := (resume py_int api parent_project_id tasks).
Abbreviation run := (run py_int api parent_project_id tasks).
Abbreviation start := (start (S:=S) tasks).
Abbreviation Sched := (Sched (S:=S)).
Abbreviation balanced := (balanced (S:=S) tasks).

(** What one resumption does: a pending task takes a permit, a task in
    flight finishes its block and gives the permit back. *)
Lemma resume_inv (i : nat) (st st' : Sched) :
  resume i st = Some st' ->
  (phases st !! i = Some Pending
   /\ permits (world st) = Datatypes.S (permits (world st'))
   /\ phases st' = <[i := InFlight]> (phases st))
  \/ (phases st !! i = Some InFlight
      /\ permits (world st') = Datatypes.S (permits (world st))
      /\ phases st' = <[i := Done]> (phases st)).
Proof.
  unfold Scheduler.resume.
  destruct (phases st !! i) as [[| |]|] eqn:Hp; try discriminate.
  - destruct (tasks !! i) as [task|]; [|discriminate].
    unfold acquire. destruct (permits (world st)) as [|n] eqn:Hn; [discriminate|].
    intros [= <-]. left. simpl. auto.
  - destruct (tasks !! i) as [[parent_key_id child_key_ids]|]; [|discriminate].
    destruct (create_key_link_block_ok py_int api parent_project_id parent_key_id
                child_key_ids (world st)) as (w1 & Hb & Hperm).
    rewrite Hb. intros [= <-]. right. simpl. rewrite Hperm. auto.
Qed.

Lemma resume_pending (i : nat) (st : Sched) :
  phases st !! i = Some Pending ->
  (i < length tasks)%nat ->
  (0 < permits (world st))%nat ->
  exists st', resume i st = Some st'.
Proof.
  intros Hp Hi Hn. unfold Scheduler.resume. rewrite Hp.
  destruct (lookup_lt_is_Some_2 tasks i Hi) as [task ->].
  unfold acquire. destruct (permits (world st)); [lia|]. eauto.
Qed.

Lemma resume_in_flight (i : nat) (st : Sched) :
  phases st !! i = Some InFlight ->
  (i < length tasks)%nat ->
  exists st', resume i st = Some st'.
Proof.
  intros Hp Hi. unfold Scheduler.resume. rewrite Hp.
  destruct (lookup_lt_is_Some_2 tasks i Hi) as [[parent_key_id child_key_ids] ->].
  destruct (create_key_link_block_ok py_int api parent_project_id parent_key_id
              child_key_ids (world st)) as (w1 & Hb & _).
  rewrite Hb. eauto.
Qed.

Lemma sum_insert (f : Phase -> nat) (ps : list Phase) (i : nat) (p q : Phase) :
  ps !! i = Some p ->
  (sum_list (map f (<[i := q]> ps)) + f p = sum_list (map f ps) + f q)%nat.
Proof.
  revert i. induction ps as [|x ps IH]; intros i Hi; [discriminate|].
  destruct i as [|i]; simpl in *.
  - injection Hi as ->. lia.
  - specialize (IH i Hi). lia.
Qed.

Lemma in_flight_sum (st : Sched) :
  in_flight st
  = sum_list (map (fun p => if bool_decide (p = InFlight) then 1%nat else 0%nat) (phases st)).
Proof.
  unfold in_flight. induction (phases st) as [|p ps IH]; [reflexivity|].
  simpl. destruct (bool_decide (p = InFlight)); simpl; rewrite IH; reflexivity.
Qed.

Lemma resume_balanced (N i : nat) (st st' : Sched) :
  balanced N st -> resume i st = Some st' -> balanced N st'.
Proof.
  intros [Hb Hl] Hr. unfold balanced. rewrite !in_flight_sum in *.
  destruct (resume_inv i st st' Hr) as [(Hp & Hn & Hph)|(Hp & Hn & Hph)];
    rewrite Hph, length_insert; (split; [|exact Hl]).
  - pose proof (sum_insert (fun p => if bool_decide (p = InFlight) then 1%nat else 0%nat)
                  _ i Pending InFlight Hp) as Hs. simpl in Hs. lia.
  - pose proof (sum_insert (fun p => if bool_decide (p = InFlight) then 1%nat else 0%nat)
                  _ i InFlight Done Hp) as Hs. simpl in Hs. lia.
Qed.

Lemma run_balanced (N : nat) (schedule : list nat) :
  forall st, balanced N st -> balanced N (run schedule st).
Proof.
  induction schedule as [|i schedule IH]; intros st Hb; [exact Hb|].
  simpl. apply IH. destruct (resume i st) as [st'|] eqn:Hr; simpl.
  - exact (resume_balanced N i st st' Hb Hr).
  - exact Hb.
Qed.

Lemma start_balanced (w : World S) : balanced (permits w) (start w).
Proof.
  unfold balanced. rewrite in_flight_sum. simpl. rewrite length_replicate.
  split; [|reflexivity].
  induction (length tasks) as [|n IH]; simpl; [reflexivity|exact IH].
Qed.

(** Every resumption that moves a task brings the run closer to the end. *)
Lemma resume_remaining (i : nat) (st st' : Sched) :
  resume i st = Some st' -> (remaining st' < remaining st)%nat.
Proof.
  intros Hr. unfold remaining.
  destruct (resume_inv i st st' Hr) as [(Hp & _ & Hph)|(Hp & _ & Hph)]; rewrite Hph.
  - pose proof (sum_insert todo _ i Pending InFlight Hp) as Hs. simpl in Hs. lia.
  - pose proof (sum_insert todo _ i InFlight Done Hp) as Hs. simpl in Hs. lia.
Qed.

Lemma remaining_zero (st : Sched) : remaining st = 0%nat -> all_done st.
Proof.
  unfold remaining, all_done. induction (phases st) as [|p ps IH]; intros Hz.
  - constructor.
  - simpl in Hz. destruct p; simpl in Hz; try lia. constructor; [reflexivity|].
    apply IH. exact Hz.
Qed.

Lemma phases_cases (ps : list Phase) :
  Forall (fun p => p = Done) ps
  \/ (exists i, ps !! i = Some InFlight)
  \/ ((exists i, ps !! i = Some Pending)
      /\ sum_list (map (fun p => if bool_decide (p = InFlight) then 1%nat else 0%nat) ps)
         = 0%nat).
Proof.
  induction ps as [|p ps IH]; [left; constructor|].
  destruct p.
  - destruct IH as [Hd|[(i & Hi)|((i & Hi) & Hz)]].
    + right; right. split; [exists 0%nat; reflexivity|].
      simpl. clear -Hd. induction Hd as [|q qs -> _ IH]; [reflexivity|exact IH].
    + right; left. exists (Datatypes.S i). exact Hi.
    + right; right. split; [exists 0%nat; reflexivity|]. simpl. exact Hz.
  - right; left. exists 0%nat. reflexivity.
  - destruct IH as [Hd|[(i & Hi)|((i & Hi) & Hz)]].
    + left. constructor; [reflexivity|exact Hd].
    + right; left. exists (Datatypes.S i). exact Hi.
    + right; right. split; [exists (Datatypes.S i); exact Hi|]. simpl. exact Hz.
Qed.

(** With at least one permit the run never gets stuck: as long as a task is
    unfinished, some task can be resumed. *)
Lemma progress (N : nat) (st : Sched) :
  (1 <= N)%nat -> balanced N st ->
  all_done st \/ exists i st', resume i st = Some st'.
Proof.
  intros HN [Hb Hl].
  destruct (phases_cases (phases st)) as [Hd|[(i & Hi)|((i & Hi) & Hz)]].
  - left. exact Hd.
  - right. exists i. apply resume_in_flight; [exact Hi|].
    rewrite <- Hl. apply lookup_lt_Some in Hi. exact Hi.
  - right. exists i. apply resume_pending; [exact Hi| |].
    + rewrite <- Hl. apply lookup_lt_Some in Hi. exact Hi.
    + rewrite in_flight_sum in Hb. lia.
Qed.

(** From wherever the event loop has got to, the run can be completed. *)
Lemma completion (N : nat) :
  (1 <= N)%nat ->
  forall n (st : Sched), (remaining st <= n)%nat -> balanced N st ->
  exists rest, all_done (run rest st) /\ (length rest <= n)%nat.
Proof.
  intros HN. induction n as [|n IH]; intros st Hn Hb.
  - exists []. split; [|simpl; lia]. apply remaining_zero. simpl. lia.
  - destruct (progress N st HN Hb) as [Hd|(i & st' & Hr)].
    + exists []. split; [exact Hd|simpl; lia].
    + destruct (IH st') as (rest & Hdone & Hlen).
      * pose proof (resume_remaining i st st' Hr). lia.
      * exact (resume_balanced N i st st' Hb Hr).
      * exists (i :: rest). split; [|simpl; lia]. simpl. rewrite Hr. exact Hdone.
Qed.

Lemma run_app (s1 s2 : list nat) (st : Sched) :
  run (s1 ++ s2) st = run s2 (run s1 st).
Proof. unfold Scheduler.run. apply foldl_app. Qed.

Lemma remaining_start (w : World S) : remaining (start w) = (2 * length tasks)%nat.
Proof.
  unfold remaining. simpl.
  induction (length tasks) as [|n IH]; simpl; [reflexivity|]. rewrite IH. lia.
Qed.

Lemma run_remaining (schedule : list nat) :
  forall st : Sched, (remaining (run schedule st) <= remaining st)%nat.
Proof.
  induction schedule as [|i schedule IH]; intros st; [simpl; lia|].
  simpl. etransitivity; [apply IH|].
  destruct (resume i st) as [st'|] eqn:Hr; simpl; [|lia].
  pose proof (resume_remaining i st st' Hr). lia.
Qed.

(** ** Concurrency bound *)

(** C5, for a limit of at least one. With N >= 1 permits and any number of
    link tasks, under every interleaving the event loop may choose: at most
    N governed calls are in flight at any point; create_key_link takes one
    permit before its governed block and gives it back after, whether the
    request succeeded or failed (and waits when none is free); and the run can
    always be brought to the end where every task is done, each resumption
    that moves a task bringing it strictly closer. *)
Theorem bounded_in_flight_and_completion (N : nat) (w : World S) (schedule : list nat) :
  permits w = N ->
  (1 <= N)%nat ->
  (in_flight (run schedule (start w)) <= N)%nat
  /\ (forall parent_key_id child_key_ids (w0 : World S),
        match permits w0 with
        | O => fst (create_key_link py_int api parent_project_id parent_key_id
                      child_key_ids w0) = Diverge
        | Datatypes.S n =>
            exists w1,
              create_key_link_block py_int api parent_project_id parent_key_id
                child_key_ids {| srv := srv w0; trace := trace w0; permits := n |}
              = (Ok tt, w1)
              /\ permits w1 = n
              /\ create_key_link py_int api parent_project_id parent_key_id
                   child_key_ids w0
                 = (Ok tt, {| srv := srv w1; trace := trace w1; permits := Datatypes.S n |})
        end)
  /\ (exists rest,
        all_done (run (schedule ++ rest) (start w))
        /\ (length rest <= 2 * length tasks)%nat)
  /\ (forall i st', resume i (run schedule (start w)) = Some st' ->
                    (remaining st' < remaining (run schedule (start w)))%nat).
Proof.
  intros HN H1.
  assert (Hb : balanced N (run schedule (start w))).
  { apply run_balanced. rewrite <- HN. apply start_balanced. }
  split; [|split; [|split]].
  - destruct Hb as [Hb _]. lia.
  - intros. apply create_key_link_permit.
  - destruct (completion N H1 (2 * length tasks) (run schedule (start w)))
      as (rest & Hd & Hlen).
    + etransitivity; [apply run_remaining|]. rewrite remaining_start. lia.
    + exact Hb.
    + exists rest. rewrite run_app. split; assumption.
  - intros i st'. apply resume_remaining.
Qed.

End EventLoop.

(** One permit, two tasks: the first takes the permit, the second has to
    wait, the first finishes. *)
Lemma bounded_in_flight_and_completion_witness :
  (in_flight (run Examples.parse_int (Examples.listing [] [] None) "parent"
                Examples.two_tasks [0; 1; 0]%nat
                (start Examples.two_tasks (Examples.fresh tt 1))) <= 1)%nat
  /\ (forall parent_key_id child_key_ids (w0 : World unit),
        match permits w0 with
        | O => fst (create_key_link Examples.parse_int (Examples.listing [] [] None)
                      "parent" parent_key_id child_key_ids w0) = Diverge
        | Datatypes.S n =>
            exists w1,
              create_key_link_block Examples.parse_int (Examples.listing [] [] None)
                "parent" parent_key_id child_key_ids
                {| srv := srv w0; trace := trace w0; permits := n |}
              = (Ok tt, w1)
              /\ permits w1 = n
              /\ create_key_link Examples.parse_int (Examples.listing [] [] None)
                   "parent" parent_key_id child_key_ids w0
                 = (Ok tt, {| srv := srv w1; trace := trace w1; permits := Datatypes.S n |})
        end)
  /\ (exists rest,
        all_done (run Examples.parse_int (Examples.listing [] [] None) "parent"
                    Examples.two_tasks ([0; 1; 0]%nat ++ rest)
                    (start Examples.two_tasks (Examples.fresh tt 1)))
        /\ (length rest <= 2 * length Examples.two_tasks)%nat)
  /\ (forall i st',
        resume Examples.parse_int (Examples.listing [] [] None) "parent"
          Examples.two_tasks i
          (run Examples.parse_int (Examples.listing [] [] None) "parent"
             Examples.two_tasks [0; 1; 0]%nat
             (start Examples.two_tasks (Examples.fresh tt 1))) = Some st' ->
        (remaining st'
         < remaining (run Examples.parse_int (Examples.listing [] [] None) "parent"
                        Examples.two_tasks [0; 1; 0]%nat
                        (start Examples.two_tasks (Examples.fresh tt 1))))%nat).
Proof.
  apply (bounded_in_flight_and_completion Examples.parse_int
           (Examples.listing [] [] None) "parent" Examples.two_tasks 1
           (Examples.fresh tt 1) [0; 1; 0]%nat).
  - reflexivity.
  - lia.
Defined.

(** While the first task holds the only permit the second cannot start. *)
Example second_task_waits :
  phases (run Examples.parse_int (Examples.listing [] [] None) "parent"
            Examples.two_tasks [0; 1]%nat
            (start Examples.two_tasks (Examples.fresh tt 1)))
  = [InFlight; Pending]
  /\ phases (run Examples.parse_int (Examples.listing [] [] None) "parent"
               Examples.two_tasks [0; 1; 0; 1; 1]%nat
               (start Examples.two_tasks (Examples.fresh tt 1)))
     = [Done; Done].
Proof. split; vm_compute; reflexivity. Qed.

(** C5 as stated fails for the limit N = 0 (and W = 1 > N): the semaphore
    has no permit to give, the task waits at [async with semaphore] under
    every schedule and never completes. *)
Lemma zero_permits_never_complete :
  ~ exists schedule,
      all_done (run Examples.parse_int (Examples.listing [] [] None) "parent"
                  Examples.one_task schedule
                  (start Examples.one_task (Examples.fresh tt 0))).
Proof.
  intros [schedule Hdone].
  assert (Hstuck : run Examples.parse_int (Examples.listing [] [] None) "parent"
                     Examples.one_task schedule
                     (start Examples.one_task (Examples.fresh tt 0))
                   = start Examples.one_task (Examples.fresh tt 0)).
  { clear Hdone. induction schedule as [|i schedule IH]; [reflexivity|].
    destruct i as [|[|i]]; exact IH. }
  rewrite Hstuck in Hdone. unfold all_done in Hdone. simpl in Hdone.
  inversion Hdone as [|p ps Hp _]. discriminate.
Qed.

End SchedulerProofs.

Module ExcessUsersProofs.

Import ExcessUsers.

(** ** The order on timestamps *)

Lemma lex_compare_antisym (a b : list nat) :
  lex_compare a b = CompOpp (lex_compare b a).
Proof.
  revert b. induction a as [|x a IH]; intros [|y b]; simpl; try reflexivity.
  rewrite (Nat.compare_antisym y x).
  destruct (Nat.compare y x); simpl; [apply IH|reflexivity|reflexivity].
Qed.

Lemma lex_compare_refl (a : list nat) : lex_compare a a = Eq.
Proof.
  induction a as [|x a IH]; simpl; [reflexivity|].
  rewrite Nat.compare_refl. exact IH.
Qed.

Lemma lex_compare_ge_trans (a b c : list nat) :
  lex_compare a b <> Lt -> lex_compare b c <> Lt -> lex_compare a c <> Lt.
Proof.
  revert b c. induction a as [|x a IH]; intros [|y b] [|z c]; simpl; try congruence.
  destruct (Nat.compare_spec x y), (Nat.compare_spec y z), (Nat.compare_spec x z);
    subst; try congruence; try lia; intros; eauto.
Qed.

Lemma dt_gtb_irrefl (d : datetime) : dt_gtb d d = false.
Proof. unfold dt_gtb, dt_compare. rewrite lex_compare_refl. reflexivity. Qed.

Lemma dt_gtb_geb (a b : datetime) : dt_gtb a b = true -> dt_geb a b = true.
Proof. unfold dt_gtb, dt_geb. destruct (dt_compare a b); congruence. Qed.

Lemma dt_not_gtb_geb (a b : datetime) : dt_gtb a b = false -> dt_geb b a = true.
Proof.
  unfold dt_gtb, dt_geb, dt_compare. rewrite (lex_compare_antisym (fields b)).
  destruct (lex_compare (fields a) (fields b)); simpl; congruence.
Qed.

Lemma dt_geb_trans (a b c : datetime) :
  dt_geb a b = true -> dt_geb b c = true -> dt_geb a c = true.
Proof.
  unfold dt_geb, dt_compare. intros Hab Hbc.
  pose proof (lex_compare_ge_trans (fields a) (fields b) (fields c)) as Ht.
  destruct (lex_compare (fields a) (fields b)); try discriminate;
    destruct (lex_compare (fields b) (fields c)); try discriminate;
    destruct (lex_compare (fields a) (fields c)); try reflexivity;
    exfalso; apply Ht; congruence.
Qed.

(** ** The stable descending sort *)

Section Sort.

Context {A : Type}.

Lemma insert_desc_perm (x : datetime * A) (l : list (datetime * A)) :
  insert_desc x l ≡ₚ x :: l.
Proof.
  induction l as [|y l IH]; simpl; [reflexivity|].
  destruct (dt_gtb (fst y) (fst x)); [|reflexivity].
  rewrite IH. apply Permutation_swap.
Qed.

Lemma sort_desc_perm (l : list (datetime * A)) : sort_desc l ≡ₚ l.
Proof.
  induction l as [|x l IH]; simpl; [reflexivity|].
  rewrite insert_desc_perm, IH. reflexivity.
Qed.

Lemma insert_desc_sorted (x : datetime * A) (l : list (datetime * A)) :
  StronglySorted newer l -> StronglySorted newer (insert_desc x l).
Proof.
  induction l as [|y l IH]; intros Hs; simpl.
  - repeat constructor.
  - apply StronglySorted_inv in Hs as [Hl Hy].
    destruct (dt_gtb (fst y) (fst x)) eqn:Hyx.
    + constructor; [apply IH; exact Hl|].
      apply Forall_forall. intros z Hz.
      rewrite insert_desc_perm in Hz.
      apply elem_of_cons in Hz as [->|Hz].
      * apply dt_gtb_geb. exact Hyx.
      * rewrite Forall_forall in Hy. apply Hy. exact Hz.
    + assert (Hxy : newer x y) by (apply dt_not_gtb_geb; exact Hyx).
      constructor; [constructor; assumption|].
      constructor; [exact Hxy|].
      eapply Forall_impl; [exact Hy|]. intros z Hz.
      unfold newer in *. eapply dt_geb_trans; eassumption.
Qed.

Lemma sort_desc_sorted (l : list (datetime * A)) : StronglySorted newer (sort_desc l).
Proof.
  induction l as [|x l IH]; simpl; [constructor|]. apply insert_desc_sorted. exact IH.
Qed.

End Sort.

Lemma traverse_ok {A B} (f : A -> Res B) (l : list A) (ys : list B) :
  traverse f l = Ok ys -> Forall2 (fun x y => f x = Ok y) l ys.
Proof.
  revert ys. induction l as [|x l IH]; simpl; intros ys Hys.
  - injection Hys as <-. constructor.
  - destruct (f x) as [y| | |] eqn:Hx; try discriminate.
    destruct (traverse f l) as [ys'| | |]; try discriminate.
    injection Hys as <-. constructor; [exact Hx|]. apply IH. reflexivity.
Qed.

Lemma StronglySorted_map {A B} (R : A -> A -> Prop) (R' : B -> B -> Prop)
    (f : A -> B) (l : list A) :
  (forall x y, x ∈ l -> y ∈ l -> R x y -> R' (f x) (f y)) ->
  StronglySorted R l -> StronglySorted R' (map f l).
Proof.
  induction l as [|x l IH]; intros Hf Hs; simpl; [constructor|].
  apply StronglySorted_inv in Hs as [Hl Hx]. constructor.
  - apply IH; [|exact Hl]. intros a b Ha Hb. apply Hf; right; assumption.
  - apply Forall_forall. intros b Hb.
    apply list_elem_of_fmap in Hb as (a & -> & Ha).
    apply Hf; [left|right; exact Ha|].
    rewrite Forall_forall in Hx. apply Hx. exact Ha.
Qed.


Section Prune.

Variable strptime : string -> option datetime.

Abbreviation created := (created strptime).
Abbreviation is_recent := (is_recent strptime).
Abbreviation newer_or_same := (newer_or_same strptime).
Abbreviation candidates := (candidates strptime).

(** Line 62 keeps exactly the users created after the cutoff, in the order
    of the listing; it succeeds only when every timestamp is there and
    readable. *)
Lemma created_after_ok (filter_timestamp : datetime) (users recent : list User) :
  created_after strptime filter_timestamp users = Ok recent ->
  recent = List.filter (is_recent filter_timestamp) users
  /\ Forall (fun u => exists d, created u = Ok d) users.
Proof.
  unfold created_after.
  destruct (traverse _ users) as [flagged| | |] eqn:Ht; try discriminate.
  intros [= <-]. apply traverse_ok in Ht.
  induction Ht as [|u [b u'] users flagged Hu _ IH]; simpl; [split; [reflexivity|constructor]|].
  destruct IH as [IH1 IH2].
  unfold ExcessUsers.is_recent.
  destruct (created u) as [d| | |] eqn:Hd; try discriminate.
  injection Hu as <- <-. split.
  - simpl. destruct (dt_gtb d filter_timestamp); simpl; rewrite IH1; reflexivity.
  - constructor; [eauto|exact IH2].
Qed.

(** Line 63 reorders, newest first. *)
Lemma sort_newest_first_ok (users sorted : list User) :
  sort_newest_first strptime users = Ok sorted ->
  sorted ≡ₚ users /\ StronglySorted newer_or_same sorted.
Proof.
  unfold sort_newest_first.
  destruct (traverse _ users) as [decorated| | |] eqn:Ht; try discriminate.
  intros [= <-]. apply traverse_ok in Ht.
  assert (Hsnd : map snd decorated = users).
  { induction Ht as [|u p us ps Hu _ IH]; simpl; [reflexivity|].
    destruct (created u); try discriminate. injection Hu as <-. simpl. rewrite IH.
    reflexivity. }
  assert (Hkey : forall p, p ∈ decorated -> created (snd p) = Ok (fst p)).
  { clear Hsnd. induction Ht as [|u p us ps Hu _ IH]; intros q Hq.
    - apply elem_of_nil in Hq. contradiction.
    - apply elem_of_cons in Hq as [->|Hq]; [|apply IH; exact Hq].
      destruct (created u) eqn:Hc; try discriminate. injection Hu as <-. simpl. exact Hc. }
  split.
  - rewrite <- Hsnd. apply fmap_Permutation. apply sort_desc_perm.
  - apply (StronglySorted_map newer); [|apply sort_desc_sorted].
    intros x y Hx Hy Hxy. rewrite sort_desc_perm in Hx, Hy.
    exists (fst x), (fst y). repeat split; [apply Hkey; exact Hx|apply Hkey; exact Hy|exact Hxy].
Qed.

Lemma candidates_ok (filter_timestamp : datetime) (users cs : list User) :
  candidates filter_timestamp users = Ok cs ->
  cs ≡ₚ List.filter (is_recent filter_timestamp) users
  /\ StronglySorted newer_or_same cs.
Proof.
  unfold ExcessUsers.candidates.
  destruct (created_after strptime filter_timestamp users) as [recent| | |] eqn:Hr;
    try discriminate.
  intros Hs. apply created_after_ok in Hr as [-> _].
  apply sort_newest_first_ok in Hs. exact Hs.
Qed.

Lemma candidates_recent (filter_timestamp : datetime) (users cs : list User) (u : User) :
  candidates filter_timestamp users = Ok cs ->
  u ∈ cs -> u ∈ users /\ is_recent filter_timestamp u = true.
Proof.
  intros Hc Hu. apply candidates_ok in Hc as [Hp _]. rewrite Hp in Hu.
  apply list_elem_of_In in Hu. apply filter_In in Hu as [Hin Hrec].
  split; [apply list_elem_of_In; exact Hin|exact Hrec].
Qed.

Lemma selected_subseteq (cs : list User) (u : User) : u ∈ selected cs -> u ∈ cs.
Proof.
  unfold selected. destruct (0 <? excess_user_count cs)%Z.
  - apply subseteq_take.
  - intros Hu. apply elem_of_nil in Hu. contradiction.
Qed.


Lemma traverse_total {A B} (f : A -> Res B) (l : list A) :
  Forall (fun x => exists y, f x = Ok y) l -> exists ys, traverse f l = Ok ys.
Proof.
  induction 1 as [|x l [y Hx] _ [ys IH]]; simpl; [eauto|].
  rewrite Hx, IH. eauto.
Qed.

(** Lines 62-63 go through whenever every timestamp is there and readable. *)
Lemma candidates_total (filter_timestamp : datetime) (users : list User) :
  Forall (fun u => exists d, created u = Ok d) users ->
  exists cs, candidates filter_timestamp users = Ok cs
             /\ length cs = length (List.filter (is_recent filter_timestamp) users).
Proof.
  intros Hall. unfold ExcessUsers.candidates.
  destruct (traverse_total
              (fun u => match created u with
                        | Ok d => Ok (dt_gtb d filter_timestamp, u)
                        | Raise e => Raise e | Exit c => Exit c | Diverge => Diverge
                        end) users) as (flagged & Hf).
  { eapply Forall_impl; [exact Hall|]. intros u [d Hd]. rewrite Hd. eauto. }
  assert (Hrecent : created_after strptime filter_timestamp users
                    = Ok (map snd (List.filter fst flagged))).
  { unfold created_after. rewrite Hf. reflexivity. }
  rewrite Hrecent.
  destruct (created_after_ok _ _ _ Hrecent) as [Heq _].
  destruct (traverse_total
              (fun u => match created u with
                        | Ok d => Ok (d, u)
                        | Raise e => Raise e | Exit c => Exit c | Diverge => Diverge
                        end) (map snd (List.filter fst flagged))) as (decorated & Hd).
  { rewrite Heq. apply Forall_forall. intros u Hu.
    apply list_elem_of_In, filter_In in Hu as [Hu _].
    rewrite Forall_forall in Hall.
    destruct (Hall u (proj2 (list_elem_of_In _ _) Hu)) as [d Hd].
    rewrite Hd. eauto. }
  assert (Hs : sort_newest_first strptime (map snd (List.filter fst flagged))
               = Ok (map snd (sort_desc decorated))).
  { unfold sort_newest_first. rewrite Hd. reflexivity. }
  exists (map snd (sort_desc decorated)). split; [exact Hs|].
  destruct (sort_newest_first_ok _ _ Hs) as [Hperm _].
  rewrite Hperm, Heq. reflexivity.
Qed.

(** What process_project does with the candidates: the removal loop runs
    over [selected], and only when the excess is positive. *)
Lemma process_project_visits_selected {S : Type} (api : Service S)
    (filter_timestamp : datetime) (project_id : string)
    (users cs : list User) (w : World S) (s' : S) :
  GET_users api project_id (srv w)
  = (Answered {| status_code := 200; json := Some users |}, s') ->
  users <> [] ->
  candidates filter_timestamp users = Ok cs ->
  process_project strptime api filter_timestamp {| id := Some project_id |} w
  = (if (0 <? excess_user_count cs)%Z
     then run! print (MsgRemoving (excess_user_count cs) project_id)
          in remove_selected api project_id (selected cs)
     else print (MsgWithinLimit project_id))
      {| srv := s'; out := out w |}.
Proof.
  intros Hget Hne Hc.
  assert (Husers : get_users api project_id w = (Ok users, {| srv := s'; out := out w |})).
  { unfold get_users, bind, send. rewrite Hget. reflexivity. }
  unfold process_project.
  rewrite (CallerProofs.bind_ok _ _ w project_id w) by reflexivity.
  rewrite (CallerProofs.bind_ok _ _ _ _ _ Husers).
  destruct users as [|u users]; [congruence|]. simpl negb. cbv iota.
  rewrite Hc. unfold selected.
  destruct (0 <? excess_user_count cs)%Z; reflexivity.
Qed.


(** ** Quota prune *)


(** C10. A user whose creation timestamp equals the cutoff is not among the
    candidates (the filter of line 62 is a strict [>]), so the removal loop
    never visits it. *)
Theorem boundary_user_not_removed (filter_timestamp : datetime)
    (users cs : list User) (u : User) :
  candidates filter_timestamp users = Ok cs ->
  created u = Ok filter_timestamp ->
  (u ∉ cs) /\ (u ∉ selected cs).
Proof.
  intros Hc Hu.
  assert (Hnot : u ∉ cs).
  { intros Hin. destruct (candidates_recent _ _ _ _ Hc Hin) as [_ Hrec].
    unfold ExcessUsers.is_recent in Hrec. rewrite Hu, dt_gtb_irrefl in Hrec.
    discriminate. }
  split; [exact Hnot|]. intros Hin. apply Hnot. apply selected_subseteq. exact Hin.
Qed.

End Prune.

Ltac all_readable :=
  repeat (constructor; [eexists; cbv; reflexivity|]); try constructor.


(** The run itself: the ten newest of the 160 are deleted, newest first, and
    nobody else. *)
Example ten_newest_removed :
  remove_excess_users UserExamples.strptime_iso (UserExamples.ledger UserExamples.crowd)
    "account" START_DATE UserExamples.fresh_ledger
  = (Ok tt,
     {| srv := [("p", "u159"); ("p", "u158"); ("p", "u157"); ("p", "u156");
                ("p", "u155"); ("p", "u154"); ("p", "u153"); ("p", "u152");
                ("p", "u151"); ("p", "u150")];
        out := [MsgRemoving 10 "p";
                MsgRemoved "u159" "p"; MsgRemoved "u158" "p"; MsgRemoved "u157" "p";
                MsgRemoved "u156" "p"; MsgRemoved "u155" "p"; MsgRemoved "u154" "p";
                MsgRemoved "u153" "p"; MsgRemoved "u152" "p"; MsgRemoved "u151" "p";
                MsgRemoved "u150" "p"] |}).
Proof. vm_compute. reflexivity. Qed.


(** A user created at the cutoff, with 151 users created after it. *)
Lemma boundary_user_not_removed_witness :
  (UserExamples.boundary_user ∉ rev (UserExamples.new_users 151))
  /\ (UserExamples.boundary_user ∉ selected (rev (UserExamples.new_users 151))).
Proof.
  apply (boundary_user_not_removed UserExamples.strptime_iso START_DATE
           (UserExamples.boundary_user :: UserExamples.new_users 151)).
  - vm_compute. reflexivity.
  - vm_compute. reflexivity.
Defined.

End ExcessUsersProofs.

Module BulkImportProofs.

Import BulkImport.

Section ImportRun.

Context {S : Type}.
Variable POST_entity : string -> Row -> S -> Outcome * S.

(** A row of a known type that lacks a required field: the warning is
    logged, the error counter goes up by one, nothing is posted, and the
    progress bar moves on. *)
Lemma import_row_missing_field (dry_run : bool) (stats : Stats) (row : Row)
    (required : list string) (w : World S) :
  truthy_str (lower (default "" (row !! "type"))) = true ->
  CSV_FIELDS !! lower (default "" (row !! "type")) = Some required ->
  missing_fields required row <> [] ->
  import_row POST_entity dry_run stats row w
  = (Ok (bump_errors stats),
     {| srv := srv w;
        trace := trace w ++ [LogMissingFields (missing_fields required row) (row !! "name");
                             ProgressUpdate (bump_errors stats)] |}).
Proof.
  intros Htype Hfields Hmissing.
  unfold import_row, import_row_try, validate_row.
  rewrite Htype, Hfields. simpl negb. rewrite bool_decide_eq_false_2 by discriminate.
  simpl orb. cbv iota.
  destruct (missing_fields required row) as [|field missing] eqn:Hm; [congruence|].
  unfold try_except, bind, lift, emit_all, emit, ret. simpl.
  rewrite <- app_assoc. reflexivity.
Qed.

(** ** The nameless client row *)

(** C8. A row with type "client" and an empty name is turned away by
    validate_row: the run logs the missing field, adds one to the error
    count and to nothing else, posts nothing, and goes on with the next row. *)
Theorem nameless_client_counts_one_error (dry_run : bool) (stats : Stats)
    (row : Row) (rest : list Row) (w : World S) :
  row !! "type" = Some "client" ->
  row !! "name" = Some "" ->
  validate_row "client" row = Ok (false, [LogMissingFields ["name"] (Some "")])
  /\ import_row POST_entity dry_run stats row w
     = (Ok {| success := success stats; errors := errors stats + 1;
              skipped := skipped stats |},
        {| srv := srv w;
           trace := trace w ++ [LogMissingFields ["name"] (Some "");
                                ProgressUpdate (bump_errors stats)] |})
  /\ for_each (row :: rest) stats (import_row POST_entity dry_run) w
     = for_each rest (bump_errors stats) (import_row POST_entity dry_run)
         {| srv := srv w;
            trace := trace w ++ [LogMissingFields ["name"] (Some "");
                                 ProgressUpdate (bump_errors stats)] |}.
Proof.
  intros Htype Hname.
  assert (Hm : missing_fields ["name"] row = ["name"]).
  { unfold missing_fields. simpl. rewrite Hname. reflexivity. }
  assert (Hrow : import_row POST_entity dry_run stats row w
                 = (Ok (bump_errors stats),
                    {| srv := srv w;
                       trace := trace w ++ [LogMissingFields ["name"] (Some "");
                                            ProgressUpdate (bump_errors stats)] |})).
  { rewrite (import_row_missing_field dry_run stats row ["name"]).
    - rewrite Hm, Hname. reflexivity.
    - rewrite Htype. reflexivity.
    - rewrite Htype. vm_compute. reflexivity.
    - rewrite Hm. discriminate. }
  split; [|split].
  - unfold validate_row.
    replace (CSV_FIELDS !! "client") with (Some ["name"]) by (vm_compute; reflexivity).
    rewrite Hm, Hname. reflexivity.
  - exact Hrow.
  - simpl. unfold bind at 1. rewrite Hrow. reflexivity.
Qed.

End ImportRun.

(** The row [{type: "client", name: ""}] itself, against a service that
    would have created it: no [Post] in the trace. *)
Lemma nameless_client_counts_one_error_witness :
  validate_row "client" ImportExamples.nameless_client
    = Ok (false, [LogMissingFields ["name"] (Some "")])
  /\ import_row ImportExamples.obliging false
       {| success := 0; errors := 0; skipped := 0 |}
       ImportExamples.nameless_client ImportExamples.fresh
     = (Ok {| success := 0; errors := 0 + 1; skipped := 0 |},
        {| srv := srv ImportExamples.fresh;
           trace := trace ImportExamples.fresh
                    ++ [LogMissingFields ["name"] (Some "");
                        ProgressUpdate
                          (bump_errors {| success := 0; errors := 0; skipped := 0 |})] |})
  /\ for_each [ImportExamples.nameless_client]
       {| success := 0; errors := 0; skipped := 0 |}
       (import_row ImportExamples.obliging false) ImportExamples.fresh
     = for_each [] (bump_errors {| success := 0; errors := 0; skipped := 0 |})
         (import_row ImportExamples.obliging false)
         {| srv := srv ImportExamples.fresh;
            trace := trace ImportExamples.fresh
                     ++ [LogMissingFields ["name"] (Some "");
                         ProgressUpdate
                           (bump_errors {| success := 0; errors := 0; skipped := 0 |})] |}.
Proof.
  apply (nameless_client_counts_one_error ImportExamples.obliging false
           {| success := 0; errors := 0; skipped := 0 |}
           ImportExamples.nameless_client [] ImportExamples.fresh).
  - vm_compute. reflexivity.
  - vm_compute. reflexivity.
Defined.

(** One nameless client between two good rows: the good rows are created,
    the nameless one is counted as the only error. *)
Example nameless_client_between_good_rows :
  fst (bulk_import ImportExamples.welcoming (fun _ => ImportExamples.obliging)
         [ImportExamples.line "client" "Acme";
          ImportExamples.line "client" "";
          ImportExamples.line "Client" " Zenith "]
         false ImportExamples.fresh)
  = Ok {| success := 2; errors := 1; skipped := 0 |}.
Proof. vm_compute. reflexivity. Qed.

End BulkImportProofs.

Module PartialRecordProofs.

Section Prune.

Context {S : Type}.
Variable strptime : string -> option ExcessUsers.datetime.
Variable api : ExcessUsers.Service S.

Lemma traverse_raises {A B} (f : A -> Res B) (good : list A) (bad : A) (rest : list A) e :
  Forall (fun x => exists y, f x = Ok y) good ->
  f bad = Raise e ->
  ExcessUsers.traverse f (good ++ bad :: rest) = Raise e.
Proof.
  intros Hgood Hbad. induction Hgood as [|x good [y Hx] _ IH]; simpl.
  - rewrite Hbad. reflexivity.
  - rewrite Hx, IH. reflexivity.
Qed.

(** The first record without a creation timestamp stops lines 62-63 with
    KeyError. *)
Lemma candidates_missing_timestamp (filter_timestamp : ExcessUsers.datetime)
    (good : list ExcessUsers.User) (bad : ExcessUsers.User) (rest : list ExcessUsers.User) :
  Forall (fun u => exists d, ExcessUsers.created strptime u = Ok d) good ->
  ExcessUsers.created_at bad = None ->
  ExcessUsers.candidates strptime filter_timestamp (good ++ bad :: rest)
  = Raise (KeyError "created_at").
Proof.
  intros Hgood Hbad. unfold ExcessUsers.candidates, ExcessUsers.created_after.
  rewrite (traverse_raises _ good bad rest (KeyError "created_at")); [reflexivity| |].
  - eapply Forall_impl; [exact Hgood|]. intros u [d Hd]. rewrite Hd. eauto.
  - unfold ExcessUsers.created. rewrite Hbad. reflexivity.
Qed.

(** A project with such a record is skipped as a whole: the error is
    printed, nobody is removed, and the loop over the projects goes on. *)
Lemma process_project_missing_timestamp (filter_timestamp : ExcessUsers.datetime)
    (project_id : string) (good : list ExcessUsers.User) (bad : ExcessUsers.User)
    (rest : list ExcessUsers.User) (w : ExcessUsers.World S) (s' : S) :
  ExcessUsers.GET_users api project_id (ExcessUsers.srv w)
  = (ExcessUsers.Answered
       {| ExcessUsers.status_code := 200; ExcessUsers.json := Some (good ++ bad :: rest) |},
     s') ->
  Forall (fun u => exists d, ExcessUsers.created strptime u = Ok d) good ->
  ExcessUsers.created_at bad = None ->
  ExcessUsers.process_project strptime api filter_timestamp
    {| ExcessUsers.id := Some project_id |} w
  = (Ok tt, {| ExcessUsers.srv := s';
               ExcessUsers.out := ExcessUsers.out w
                                  ++ [ExcessUsers.MsgErrorSorting project_id "created_at"] |}).
Proof.
  intros Hget Hgood Hbad.
  unfold ExcessUsers.process_project, ExcessUsers.get_users, ExcessUsers.send,
    ExcessUsers.response_json.
  unfold bind, lift, ret. simpl. rewrite Hget. simpl.
  rewrite (candidates_missing_timestamp filter_timestamp good bad rest Hgood Hbad).
  destruct good; reflexivity.
Qed.

(** A record without an id in the removal loop is skipped alone: the error
    is printed and the loop goes on with the next user. *)
Lemma remove_selected_missing_id (project_id : string) (u : ExcessUsers.User)
    (others : list ExcessUsers.User) (w : ExcessUsers.World S) :
  ExcessUsers.user_id u = None ->
  ExcessUsers.remove_selected api project_id (u :: others) w
  = ExcessUsers.remove_selected api project_id others
      {| ExcessUsers.srv := ExcessUsers.srv w;
         ExcessUsers.out := ExcessUsers.out w
                            ++ [ExcessUsers.MsgMissingKey project_id "id"] |}.
Proof.
  intros Hid. unfold ExcessUsers.remove_selected. simpl.
  unfold bind at 1. unfold try_except, bind, lift. rewrite Hid. reflexivity.
Qed.

End Prune.

Section Link.

Context {S : Type}.

(** A parent key without id or name is passed over in the scheduling loop:
    nothing is scheduled for it and nothing is printed. *)
Lemma match_parent_key_partial (linked_keys_dict : gmap (option string) (list string))
    (child_key_map : gmap string string) (key_links_map : list (string * list string))
    (parent_key : KeyLinkr.Key) (w : KeyLinkr.World S) :
  truthy_ostr (KeyLinkr.key_id parent_key) = false
  \/ truthy_ostr (KeyLinkr.key_name parent_key) = false ->
  KeyLinkr.match_parent_key linked_keys_dict child_key_map key_links_map parent_key w
  = (Ok key_links_map, w).
Proof.
  intros [H|H]; unfold KeyLinkr.match_parent_key; rewrite H; simpl;
    [|rewrite orb_true_r]; reflexivity.
Qed.

End Link.

(** ** Partial records *)

(** C6, as the code has it. Prune-if-over-quota: a user record without an
    id is skipped alone in the removal loop, with a printed line, and the
    loop goes on; a user record without a creation timestamp makes the whole
    project be passed over -- the error is printed, nobody of that project is
    removed -- and the run goes on with the next project. Create-if-absent: a
    row lacking a required field is skipped alone, logged and counted as an
    error. Link-if-unlinked: a parent key without id or name is passed over
    alone in the scheduling loop, without a printed line. *)
Theorem partial_records_skipped {S1 S2 S3 : Type}
    (strptime : string -> option ExcessUsers.datetime)
    (api : ExcessUsers.Service S1) (filter_timestamp : ExcessUsers.datetime)
    (project_id : string) (good : list ExcessUsers.User) (bad : ExcessUsers.User)
    (rest : list ExcessUsers.User) (w1 : ExcessUsers.World S1) (s' : S1)
    (u : ExcessUsers.User) (others : list ExcessUsers.User)
    (POST_entity : string -> BulkImport.Row -> S2 -> BulkImport.Outcome * S2)
    (dry_run : bool) (stats : BulkImport.Stats) (row : BulkImport.Row)
    (required : list string) (w2 : BulkImport.World S2)
    (linked_keys_dict : gmap (option string) (list string))
    (child_key_map : gmap string string) (key_links_map : list (string * list string))
    (parent_key : KeyLinkr.Key) (w3 : KeyLinkr.World S3) :
  ExcessUsers.GET_users api project_id (ExcessUsers.srv w1)
  = (ExcessUsers.Answered
       {| ExcessUsers.status_code := 200; ExcessUsers.json := Some (good ++ bad :: rest) |},
     s') ->
  Forall (fun u => exists d, ExcessUsers.created strptime u = Ok d) good ->
  ExcessUsers.created_at bad = None ->
  ExcessUsers.user_id u = None ->
  truthy_str (BulkImport.lower (default "" (row !! "type"))) = true ->
  BulkImport.CSV_FIELDS !! BulkImport.lower (default "" (row !! "type")) = Some required ->
  BulkImport.missing_fields required row <> [] ->
  (truthy_ostr (KeyLinkr.key_id parent_key) = false
   \/ truthy_ostr (KeyLinkr.key_name parent_key) = false) ->
  ExcessUsers.process_project strptime api filter_timestamp
    {| ExcessUsers.id := Some project_id |} w1
  = (Ok tt, {| ExcessUsers.srv := s';
               ExcessUsers.out := ExcessUsers.out w1
                                  ++ [ExcessUsers.MsgErrorSorting project_id "created_at"] |})
  /\ ExcessUsers.remove_selected api project_id (u :: others) w1
     = ExcessUsers.remove_selected api project_id others
         {| ExcessUsers.srv := ExcessUsers.srv w1;
            ExcessUsers.out := ExcessUsers.out w1
                               ++ [ExcessUsers.MsgMissingKey project_id "id"] |}
  /\ BulkImport.import_row POST_entity dry_run stats row w2
     = (Ok (BulkImport.bump_errors stats),
        {| BulkImport.srv := BulkImport.srv w2;
           BulkImport.trace :=
             BulkImport.trace w2
             ++ [BulkImport.LogMissingFields (BulkImport.missing_fields required row)
                   (row !! "name");
                 BulkImport.ProgressUpdate (BulkImport.bump_errors stats)] |})
  /\ KeyLinkr.match_parent_key linked_keys_dict child_key_map key_links_map parent_key w3
     = (Ok key_links_map, w3).
Proof.
  intros Hget Hgood Hbad Hid Htype Hfields Hmissing Hkey.
  split; [|split; [|split]].
  - apply (process_project_missing_timestamp strptime api filter_timestamp project_id
             good bad rest w1 s'); assumption.
  - apply remove_selected_missing_id. exact Hid.
  - apply BulkImportProofs.import_row_missing_field; assumption.
  - apply match_parent_key_partial. exact Hkey.
Qed.

(** A project whose first user has no creation timestamp; a user without an
    id at the head of a removal; the nameless client row; a parent key
    without an id. *)
Lemma partial_records_skipped_witness :
  ExcessUsers.process_project UserExamples.strptime_iso
    (UserExamples.account (UserExamples.undated_user :: UserExamples.new_users 151))
    ExcessUsers.START_DATE {| ExcessUsers.id := Some "p" |} UserExamples.fresh
  = (Ok tt, {| ExcessUsers.srv := tt;
               ExcessUsers.out := ExcessUsers.out UserExamples.fresh
                                  ++ [ExcessUsers.MsgErrorSorting "p" "created_at"] |})
  /\ ExcessUsers.remove_selected
       (UserExamples.account (UserExamples.undated_user :: UserExamples.new_users 151))
       "p" [UserExamples.unnamed_user; UserExamples.new_user 0] UserExamples.fresh
     = ExcessUsers.remove_selected
         (UserExamples.account (UserExamples.undated_user :: UserExamples.new_users 151))
         "p" [UserExamples.new_user 0]
         {| ExcessUsers.srv := ExcessUsers.srv UserExamples.fresh;
            ExcessUsers.out := ExcessUsers.out UserExamples.fresh
                               ++ [ExcessUsers.MsgMissingKey "p" "id"] |}
  /\ BulkImport.import_row ImportExamples.obliging false
       {| BulkImport.success := 0; BulkImport.errors := 0; BulkImport.skipped := 0 |}
       ImportExamples.nameless_client ImportExamples.fresh
     = (Ok (BulkImport.bump_errors
              {| BulkImport.success := 0; BulkImport.errors := 0; BulkImport.skipped := 0 |}),
        {| BulkImport.srv := BulkImport.srv ImportExamples.fresh;
           BulkImport.trace :=
             BulkImport.trace ImportExamples.fresh
             ++ [BulkImport.LogMissingFields
                   (BulkImport.missing_fields ["name"] ImportExamples.nameless_client)
                   (ImportExamples.nameless_client !! "name");
                 BulkImport.ProgressUpdate
                   (BulkImport.bump_errors
                      {| BulkImport.success := 0; BulkImport.errors := 0;
                         BulkImport.skipped := 0 |})] |})
  /\ KeyLinkr.match_parent_key (S := unit) ∅ ∅ []
       {| KeyLinkr.key_id := None; KeyLinkr.key_name := Some "greeting" |}
       (Examples.fresh tt 0)
     = (Ok [], Examples.fresh tt 0).
Proof.
  apply (partial_records_skipped UserExamples.strptime_iso
           (UserExamples.account (UserExamples.undated_user :: UserExamples.new_users 151))
           ExcessUsers.START_DATE "p" [] UserExamples.undated_user
           (UserExamples.new_users 151) UserExamples.fresh tt
           UserExamples.unnamed_user [UserExamples.new_user 0]
           ImportExamples.obliging false
           {| BulkImport.success := 0; BulkImport.errors := 0; BulkImport.skipped := 0 |}
           ImportExamples.nameless_client ["name"] ImportExamples.fresh
           ∅ ∅ [] {| KeyLinkr.key_id := None; KeyLinkr.key_name := Some "greeting" |}
           (Examples.fresh tt 0)).
  - reflexivity.
  - constructor.
  - reflexivity.
  - reflexivity.
  - vm_compute. reflexivity.
  - vm_compute. reflexivity.
  - vm_compute. discriminate.
  - left. reflexivity.
Defined.

(** C6 as stated fails: 151 users created after the cutoff lose their newest
    member; put one record without a creation timestamp in front of them and
    the whole project is passed over -- the 151 complete records are dropped
    with the partial one, and nobody is removed. *)
Lemma undated_user_discards_project :
  ExcessUsers.out
    (snd (ExcessUsers.remove_excess_users UserExamples.strptime_iso
            (UserExamples.account (UserExamples.new_users 151))
            "account" ExcessUsers.START_DATE UserExamples.fresh))
  = [ExcessUsers.MsgRemoving 1 "p"; ExcessUsers.MsgRemoved "u150" "p"]
  /\ ExcessUsers.out
       (snd (ExcessUsers.remove_excess_users UserExamples.strptime_iso
               (UserExamples.account
                  (UserExamples.undated_user :: UserExamples.new_users 151))
               "account" ExcessUsers.START_DATE UserExamples.fresh))
     = [ExcessUsers.MsgErrorSorting "p" "created_at"].
Proof. split; vm_compute; reflexivity. Qed.

End PartialRecordProofs.

(** * Further properties *)

Module ExecutorExtraProofs.

Import KeyLinkr.
Import ExecutorExtra.
Import ExecutorProofs.

#[local] Arguments max_retries : simpl never.
#[local] Arguments Nat.leb : simpl never.
#[local] Arguments Nat.eqb : simpl never.

Section Executor.

Context {S : Type}.
Variable py_int : string -> option Z.

Lemma outcome_at_state_after {A} (call : Call (S:=S) A) (s : S) (n : nat) :
  outcome_at call s n = call (state_after call s n).
Proof.
  revert s. induction n as [|n IH]; intros s; simpl; [reflexivity|apply IH].
Qed.

(** The loop passes over a run of transient outcomes, one request, one
    notice and one sleep each. *)
Lemma retry_loop_skip {A} `{Payload A} (call : Call (S:=S) A) (j : nat) :
  forall fuel retries (w : World S),
  (retries + j <= max_retries)%nat ->
  (forall k, (k < j)%nat -> is_transient (fst (outcome_at call (srv w) k)) = true) ->
  exists before,
    retry_loop py_int (j + fuel) call retries w
    = retry_loop py_int fuel call (retries + j)
        {| srv := state_after call (srv w) j; trace := trace w ++ before;
           permits := permits w |}
    /\ requests before = j /\ length (sleeps before) = j.
Proof.
  induction j as [|j IH]; intros fuel retries w Hle Hpre.
  - exists []. rewrite app_nil_r, Nat.add_0_r. destruct w; simpl. auto.
  - pose proof (Hpre 0%nat ltac:(lia)) as H0. simpl in H0.
    destruct (call (srv w)) as [o s'] eqn:Hcall. simpl in H0.
    assert (Hlt : (retries < max_retries)%nat) by lia.
    assert (Hpre' : forall k, (k < j)%nat ->
              is_transient (fst (outcome_at call s' k)) = true).
    { intros k Hk. specialize (Hpre (Datatypes.S k) ltac:(lia)).
      simpl in Hpre. rewrite Hcall in Hpre. exact Hpre. }
    change (Datatypes.S j + fuel)%nat with (Datatypes.S (j + fuel)).
    destruct o as [e|r0].
    + destruct e; try discriminate.
      rewrite (retry_loop_connection_error _ _ _ _ _ _ Hcall Hlt).
      match goal with |- context [retry_loop _ _ _ _ ?w1] =>
        destruct (IH fuel (retries + 1)%nat w1) as (before & Heq & Hr & Hs);
          [lia|exact Hpre'|] end.
      rewrite Heq. simpl. rewrite Hcall. simpl.
      eexists (_ :: _ :: _ :: before).
      replace (retries + 1 + j)%nat with (retries + Datatypes.S j)%nat by lia.
      rewrite <- app_assoc. simpl. split; [reflexivity|].
      unfold requests, sleeps in *. simpl. rewrite Hr, Hs. auto.
    + simpl in H0. apply Nat.eqb_eq in H0.
      rewrite (retry_loop_429 _ _ _ _ _ _ _ Hcall H0 Hlt).
      match goal with |- context [retry_loop _ _ _ _ ?w1] =>
        destruct (IH fuel (retries + 1)%nat w1) as (before & Heq & Hr & Hs);
          [lia|exact Hpre'|] end.
      rewrite Heq. simpl. rewrite Hcall. simpl.
      eexists (_ :: _ :: _ :: before).
      replace (retries + 1 + j)%nat with (retries + Datatypes.S j)%nat by lia.
      rewrite <- app_assoc. simpl. split; [reflexivity|].
      unfold requests, sleeps in *. simpl. rewrite Hr, Hs. auto.
Qed.

(** The loop from the attempt that settles the call. *)
Lemma retry_loop_from {A} `{Payload A} (call : Call (S:=S) A) (w : World S) (j : nat) :
  (j <= max_retries)%nat ->
  (forall k, (k < j)%nat -> is_transient (fst (outcome_at call (srv w) k)) = true) ->
  exists before,
    request_with_retries py_int call w
    = retry_loop py_int (Datatypes.S (max_retries + 1 - j)) call j
        {| srv := state_after call (srv w) j; trace := trace w ++ before;
           permits := permits w |}
    /\ requests before = j /\ length (sleeps before) = j.
Proof.
  intros Hj Hpre. unfold request_with_retries.
  replace (max_retries + 2)%nat with (j + Datatypes.S (max_retries + 1 - j))%nat by lia.
  destruct (retry_loop_skip call j (Datatypes.S (max_retries + 1 - j)) 0 w)
    as (before & Heq & Hr & Hs); [lia|exact Hpre|].
  exists before. rewrite Heq. auto.
Qed.

(** ** Retry, then an answer *)

(** After any number of rate limits and dropped connections within the cap,
    the first other answer settles the call at once: the response comes back
    with its decoded body -- the empty object when the body is not JSON --
    after one request per attempt and one sleep per failed attempt. *)
Theorem answer_after_transient_failures {A} `{Payload A} (call : Call (S:=S) A)
    (w : World S) (j : nat) (r : Response A) :
  (j <= max_retries)%nat ->
  (forall k, (k < j)%nat -> is_transient (fst (outcome_at call (srv w) k)) = true) ->
  fst (outcome_at call (srv w) j) = Answered r ->
  status r <> 429%nat ->
  exists before,
    request_with_retries py_int call w
    = (decoded r,
       {| srv := state_after call (srv w) (Datatypes.S j);
          trace := trace w ++ before ++ [EvRequest]; permits := permits w |})
    /\ requests before = j /\ length (sleeps before) = j.
Proof.
  intros Hj Hpre Hlast Hst.
  destruct (retry_loop_from call w j Hj Hpre) as (before & Heq & Hr & Hs).
  exists before. split; [|auto]. rewrite Heq, retry_loop_step.
  assert (Hle : (j <=? max_retries)%nat = true) by (apply Nat.leb_le; exact Hj).
  rewrite Hle. cbv zeta. cbn [srv trace permits].
  rewrite outcome_at_state_after in Hlast. rewrite Hlast.
  apply Nat.eqb_neq in Hst. rewrite Hst. cbn [negb].
  rewrite <- app_assoc.
  replace (state_after call (srv w) (Datatypes.S j))
    with (snd (call (state_after call (srv w) j))).
  - unfold decoded. destruct (content r); reflexivity.
  - clear. generalize (srv w). induction j as [|j IH]; intros s; simpl; [reflexivity|apply IH].
Qed.

(** ** Errors that are not retried *)

(** An exception of the transport other than a connection error ends the
    call at the attempt where it occurs: it is raised to the caller, with no
    sleep and no further request. *)
Theorem other_exception_not_retried {A} `{Payload A} (call : Call (S:=S) A)
    (w : World S) (j : nat) (e : Exn) :
  (j <= max_retries)%nat ->
  (forall k, (k < j)%nat -> is_transient (fst (outcome_at call (srv w) k)) = true) ->
  fst (outcome_at call (srv w) j) = Failed e ->
  e <> ClientConnectionError ->
  exists before,
    request_with_retries py_int call w
    = (Raise e,
       {| srv := state_after call (srv w) (Datatypes.S j);
          trace := trace w ++ before ++ [EvRequest]; permits := permits w |})
    /\ requests before = j /\ length (sleeps before) = j.
Proof.
  intros Hj Hpre Hlast He.
  destruct (retry_loop_from call w j Hj Hpre) as (before & Heq & Hr & Hs).
  exists before. split; [|auto]. rewrite Heq, retry_loop_step.
  assert (Hle : (j <=? max_retries)%nat = true) by (apply Nat.leb_le; exact Hj).
  rewrite Hle. cbv zeta. cbn [srv trace permits].
  rewrite outcome_at_state_after in Hlast. rewrite Hlast.
  rewrite <- app_assoc.
  replace (state_after call (srv w) (Datatypes.S j))
    with (snd (call (state_after call (srv w) j))).
  - destruct e; try reflexivity. congruence.
  - clear. generalize (srv w). induction j as [|j IH]; intros s; simpl; [reflexivity|apply IH].
Qed.

(** ** Connection errors to the end *)

(** A connection error on the last permitted attempt, after transient
    failures on the ten attempts before, is raised to the caller: eleven
    requests, ten sleeps. *)
Theorem connection_error_reraised_when_exhausted {A} `{Payload A}
    (call : Call (S:=S) A) (w : World S) :
  (forall k, (k < max_retries)%nat ->
             is_transient (fst (outcome_at call (srv w) k)) = true) ->
  fst (outcome_at call (srv w) max_retries) = Failed ClientConnectionError ->
  exists before,
    request_with_retries py_int call w
    = (Raise ClientConnectionError,
       {| srv := state_after call (srv w) (Datatypes.S max_retries);
          trace := trace w ++ before ++ [EvRequest]; permits := permits w |})
    /\ requests before = max_retries /\ length (sleeps before) = max_retries.
Proof.
  intros Hpre Hlast.
  destruct (retry_loop_from call w max_retries (Nat.le_refl _) Hpre)
    as (before & Heq & Hr & Hs).
  exists before. split; [|auto]. rewrite Heq, retry_loop_step.
  rewrite Nat.leb_refl. cbv zeta. cbn [srv trace permits].
  rewrite outcome_at_state_after in Hlast. rewrite Hlast.
  rewrite <- app_assoc.
  replace (state_after call (srv w) (Datatypes.S max_retries))
    with (snd (call (state_after call (srv w) max_retries))).
  - reflexivity.
  - clear. generalize (srv w). generalize max_retries.
    induction n as [|j IH]; intros s; simpl; [reflexivity|apply IH].
Qed.

(** ** Backoff after a connection error *)

(** A connection error on attempt [k] below the cap is followed by the
    printed notice, a sleep of two to the power [k] seconds, and then the
    next attempt. *)
Theorem connection_error_backoff {A} `{Payload A} (call : Call (S:=S) A)
    (w : World S) (k : nat) :
  (k < max_retries)%nat ->
  (forall j, (j < k)%nat -> is_transient (fst (outcome_at call (srv w) j)) = true) ->
  fst (outcome_at call (srv w) k) = Failed ClientConnectionError ->
  exists before after,
    trace (snd (request_with_retries py_int call w)) =
      trace w ++ before ++
        [EvRequest; EvPrint (MsgConnectionClosed (2 ^ Z.of_nat k) (k + 1));
         EvSleep (2 ^ Z.of_nat k); EvRequest] ++ after
    /\ requests before = k.
Proof.
  intros Hk Hpre Hlast.
  destruct (retry_loop_from call w k ltac:(lia) Hpre) as (before & Heq & Hr & Hs).
  rewrite Heq. rewrite outcome_at_state_after in Hlast.
  destruct (call (state_after call (srv w) k)) as [o s'] eqn:Hcall.
  simpl in Hlast. subst o.
  rewrite (retry_loop_connection_error py_int _ call k _ s'); [|exact Hcall|exact Hk].
  replace (max_retries + 1 - k)%nat with (Datatypes.S (max_retries - k)) by lia.
  match goal with |- context [retry_loop _ (Datatypes.S ?f) _ ?n ?w1] =>
    destruct (retry_loop_begins_with_request py_int f call n w1) as (t & Ht); [lia|] end.
  rewrite Ht. simpl. exists before, t. split; [|exact Hr].
  rewrite <- !app_assoc. reflexivity.
Qed.

(** ** Bounds *)

Lemma retry_loop_bounded {A} `{Payload A} (call : Call (S:=S) A) :
  forall fuel retries (w : World S),
  (retries <= max_retries)%nat ->
  (requests (trace (snd (retry_loop py_int fuel call retries w))) + retries
   <= requests (trace w) + max_retries + 1)%nat
  /\ (length (sleeps (trace (snd (retry_loop py_int fuel call retries w)))) + retries
      <= length (sleeps (trace w)) + max_retries)%nat.
Proof.
  induction fuel as [|fuel IH]; intros retries w Hle; [simpl; lia|].
  rewrite retry_loop_step.
  assert (Hle' : (retries <=? max_retries)%nat = true) by (apply Nat.leb_le; exact Hle).
  rewrite Hle'. cbv zeta.
  assert (Hone : requests (trace w ++ [EvRequest]) = (requests (trace w) + 1)%nat
                 /\ sleeps (trace w ++ [EvRequest]) = sleeps (trace w)).
  { rewrite requests_app, sleeps_app. simpl. rewrite app_nil_r. auto. }
  destruct Hone as [Hq Hs].
  destruct (fst (call (srv w))) as [e|r].
  - destruct e; simpl; rewrite ?Hq, ?Hs; try lia.
    destruct (max_retries <=? retries)%nat eqn:Hge; [simpl; rewrite Hq, Hs; lia|].
    apply Nat.leb_gt in Hge.
    match goal with |- context [retry_loop _ _ _ _ ?w1] =>
      destruct (IH (retries + 1)%nat w1 ltac:(lia)) as [IHq IHs] end.
    simpl in IHq, IHs. rewrite requests_app in IHq. rewrite sleeps_app in IHs.
    rewrite length_app in IHs. unfold requests in IHq at 3. simpl in IHq, IHs. lia.
  - destruct (negb (status r =? 429)%nat).
    + destruct (content r); simpl; rewrite ?Hq, ?Hs; lia.
    + destruct (max_retries <=? retries)%nat eqn:Hge; [simpl; rewrite Hq, Hs; lia|].
      apply Nat.leb_gt in Hge.
      match goal with |- context [retry_loop _ _ _ _ ?w1] =>
        destruct (IH (retries + 1)%nat w1 ltac:(lia)) as [IHq IHs] end.
      simpl in IHq, IHs. rewrite requests_app in IHq. rewrite sleeps_app in IHs.
      rewrite length_app in IHs. unfold requests in IHq at 3. simpl in IHq, IHs. lia.
Qed.

(** Whatever the service does, request_with_retries comes back after at
    least one and at most eleven requests and at most ten sleeps, and leaves
    the semaphore alone. *)
Theorem request_with_retries_bounded {A} `{Payload A} (call : Call (S:=S) A) (w : World S) :
  fst (request_with_retries py_int call w) <> Diverge
  /\ (requests (trace w) + 1
      <= requests (trace (snd (request_with_retries py_int call w)))
      <= requests (trace w) + 11)%nat
  /\ (length (sleeps (trace (snd (request_with_retries py_int call w))))
      <= length (sleeps (trace w)) + 10)%nat
  /\ permits (snd (request_with_retries py_int call w)) = permits w.
Proof.
  split; [apply request_with_retries_returns|].
  unfold request_with_retries.
  destruct (retry_loop_bounded call (max_retries + 2) 0 w ltac:(lia)) as [Hq Hs].
  destruct (retry_loop_extends py_int (max_retries + 2) call 0 w) as (t & _ & Hp).
  destruct (retry_loop_begins_with_request py_int (max_retries + 1) call 0 w ltac:(lia))
    as (t' & Ht').
  replace (Datatypes.S (max_retries + 1)) with (max_retries + 2)%nat in Ht' by lia.
  split; [|split; [|exact Hp]].
  - split; [|unfold max_retries in *; lia].
    rewrite Ht', requests_app. unfold requests at 3. simpl. lia.
  - unfold max_retries in *. lia.
Qed.

(** The [raise] that follows the loop (line 81) is never reached: unless the
    transport itself raises that exception, the call never ends with it. *)
Theorem max_retries_exception_unreachable {A} `{Payload A} (call : Call (S:=S) A)
    (w : World S) :
  (forall s, fst (call s) <> Failed MaxRetriesExceeded) ->
  fst (request_with_retries py_int call w) <> Raise MaxRetriesExceeded.
Proof.
  intros Hcall. unfold request_with_retries.
  apply retry_loop_never_leaves_while; [lia|exact Hcall].
Qed.

End Executor.

Tactic Notation "first_attempts" integer(n) :=
  let k := fresh "k" in let Hk := fresh "Hk" in
  intros k Hk; unfold max_retries in Hk;
  do n (destruct k as [|k]; [reflexivity|]); lia.

(** A dropped connection, a rate limit, then status 200 with a body that is
    no JSON: the caller gets the response with the empty object. *)
Lemma answer_after_transient_failures_witness :
  exists before,
    request_with_retries Examples.parse_int garbled_call (Examples.fresh 0%nat 0)
    = (Ok (Pair {| status := 200; retry_after := None; pagination := None;
                   content := NotJson |} []),
       {| srv := state_after garbled_call 0%nat 3;
          trace := [] ++ before ++ [EvRequest]; permits := 0 |})
    /\ requests before = 2%nat /\ length (sleeps before) = 2%nat.
Proof.
  refine (answer_after_transient_failures Examples.parse_int garbled_call
            (Examples.fresh 0%nat 0) 2
            {| status := 200; retry_after := None; pagination := None;
               content := NotJson |} _ _ _ _).
  - unfold max_retries. lia.
  - first_attempts 2.
  - reflexivity.
  - simpl. lia.
Defined.

(** Two dropped connections, then a timeout: the timeout is raised after the
    third request. *)
Lemma other_exception_not_retried_witness :
  exists before,
    request_with_retries Examples.parse_int timing_out_call (Examples.fresh 0%nat 0)
    = (Raise TimeoutError,
       {| srv := state_after timing_out_call 0%nat 3;
          trace := [] ++ before ++ [EvRequest]; permits := 0 |})
    /\ requests before = 2%nat /\ length (sleeps before) = 2%nat.
Proof.
  apply (other_exception_not_retried Examples.parse_int timing_out_call
           (Examples.fresh 0%nat 0) 2 TimeoutError).
  - unfold max_retries. lia.
  - first_attempts 2.
  - reflexivity.
  - discriminate.
Defined.

(** The connection drops on every request. *)
Lemma connection_error_reraised_when_exhausted_witness :
  exists before,
    request_with_retries (A := list Key) Examples.parse_int dropping_call
      (Examples.fresh 0%nat 0)
    = (Raise ClientConnectionError,
       {| srv := state_after (A := list Key) dropping_call 0%nat
                   (Datatypes.S max_retries);
          trace := [] ++ before ++ [EvRequest]; permits := 0 |})
    /\ requests before = max_retries /\ length (sleeps before) = max_retries.
Proof.
  apply (connection_error_reraised_when_exhausted (A := list Key) Examples.parse_int
           dropping_call (Examples.fresh 0%nat 0)).
  - first_attempts 10.
  - reflexivity.
Defined.

(** The fourth dropped connection is followed by a sleep of eight seconds. *)
Lemma connection_error_backoff_witness :
  exists before after,
    trace (snd (request_with_retries (A := list Key) Examples.parse_int dropping_call
                  (Examples.fresh 0%nat 0))) =
      [] ++ before ++
        [EvRequest; EvPrint (MsgConnectionClosed (2 ^ Z.of_nat 3) (3 + 1));
         EvSleep (2 ^ Z.of_nat 3); EvRequest] ++ after
    /\ requests before = 3%nat.
Proof.
  apply (connection_error_backoff (A := list Key) Examples.parse_int dropping_call
           (Examples.fresh 0%nat 0) 3).
  - unfold max_retries. lia.
  - first_attempts 3.
  - reflexivity.
Defined.

Lemma max_retries_exception_unreachable_witness :
  fst (request_with_retries (A := list Key) Examples.parse_int dropping_call
         (Examples.fresh 0%nat 0))
  <> Raise MaxRetriesExceeded.
Proof.
  apply (max_retries_exception_unreachable (A := list Key) Examples.parse_int
           dropping_call (Examples.fresh 0%nat 0)).
  intros s. simpl. discriminate.
Defined.

End ExecutorExtraProofs.

Module PaginatorExtraProofs.

Import KeyLinkr.
Import ExecutorProofs.
Import CallerProofs.
Import PaginatorProofs.

Lemma pages_step (m per_page : nat) :
  (0 < per_page)%nat -> (0 < m)%nat ->
  ((m + per_page - 1) / per_page = 1 + (m - per_page + per_page - 1) / per_page)%nat.
Proof.
  intros Hpp Hm. destruct (Nat.le_gt_cases per_page m) as [Hle|Hgt].
  - replace (m + per_page - 1)%nat with ((m - per_page + per_page - 1) + 1 * per_page)%nat
      by lia.
    rewrite Nat.div_add by lia. lia.
  - replace (m - per_page + per_page - 1)%nat with (per_page - 1)%nat by lia.
    rewrite (Nat.div_small (per_page - 1)) by lia.
    symmetry. apply (Nat.div_unique _ _ _ (m - 1)); lia.
Qed.

(** The loop of get_all_projects from page [k + 1] of a synthetic listing:
    it gathers the rest of the items and sends one request per page left,
    and one more for the empty page that ends it. *)
Lemma get_all_projects_loop_requests (projects : list Project) (keys : list Key)
    (header : option string) (per_page : nat) :
  (0 < per_page)%nat ->
  forall fuel k (w : World unit),
  (length (drop (k * per_page) projects) < fuel)%nat ->
  exists w',
    get_all_projects_loop (Examples.listing projects keys header) fuel per_page
      (take (k * per_page) projects) (k + 1) w = (Ok projects, w')
    /\ requests (trace w')
       = (requests (trace w)
          + (length (drop (k * per_page) projects) + per_page - 1) / per_page + 1)%nat.
Proof.
  intros Hpp. induction fuel as [|fuel IH]; intros k w Hfuel; [lia|].
  cbn [get_all_projects_loop].
  unfold bind at 1. unfold send. cbn [Examples.listing GET_projects].
  cbv beta iota. simpl status. simpl content.
  unfold bind at 1. unfold print at 1, emit at 1. cbv beta iota.
  change (negb (200 =? 200)%nat) with false. cbv iota.
  unfold bind at 1. unfold print at 1, emit at 1. cbv beta iota.
  cbn [KeyLinkr.page KeyLinkr.per_page].
  destruct (Examples.page_of projects per_page (k + 1)) as [|x data] eqn:Hpage.
  - simpl. eexists. split.
    + unfold ret. f_equal. f_equal.
      unfold Examples.page_of in Hpage. replace (k + 1 - 1)%nat with k in Hpage by lia.
      assert (Hd : drop (k * per_page) projects = []).
      { destruct (drop (k * per_page) projects) as [|y rest]; [reflexivity|].
        destruct per_page; [lia|]. discriminate. }
      rewrite <- (take_drop (k * per_page) projects) at 2.
      rewrite Hd, app_nil_r. reflexivity.
    + unfold Examples.page_of in Hpage. replace (k + 1 - 1)%nat with k in Hpage by lia.
      assert (Hd : drop (k * per_page) projects = []).
      { destruct (drop (k * per_page) projects) as [|y rest]; [reflexivity|].
        destruct per_page; [lia|]. discriminate. }
      rewrite Hd. cbn [length trace].
      replace (0 + per_page - 1)%nat with (per_page - 1)%nat by lia.
      rewrite (Nat.div_small (per_page - 1)) by lia.
      rewrite !requests_app. unfold requests at 2 3 4. simpl. lia.
  - cbn [truthy Payload_list truthy_list negb]. rewrite <- Hpage, page_of_next.
    replace (k + 1 + 1)%nat with ((k + 1) + 1)%nat by lia.
    unfold Examples.page_of in Hpage. replace (k + 1 - 1)%nat with k in Hpage by lia.
    assert (Hlen : (k * per_page < length projects)%nat).
    { destruct (decide (k * per_page < length projects)%nat) as [|Hge]; [assumption|].
      rewrite drop_ge in Hpage by lia. rewrite take_nil in Hpage. discriminate. }
    match goal with |- context [get_all_projects_loop _ _ _ _ _ ?w1] =>
      destruct (IH (k + 1)%nat w1) as (w' & IH1 & IH2) end.
    { rewrite length_drop in *. nia. }
    exists w'. split; [exact IH1|]. rewrite IH2. simpl.
    rewrite !requests_app. unfold requests at 2 3 4. simpl.
    rewrite !length_drop.
    rewrite (pages_step (length projects - k * per_page) per_page) by lia.
    replace (length projects - (k + 1) * per_page)%nat
      with (length projects - k * per_page - per_page)%nat by lia.
    lia.
Qed.

(** ** Traversal of a listing by get_all_projects *)

(** get_all_projects gathers every item of a paged listing, in order and
    once each, and stops at the first empty page: one request per page and
    one for the empty page after the last. *)
Theorem get_all_projects_traverses_listing (projects : list Project) (keys : list Key)
    (header : option string) (fuel per_page : nat) (w : World unit) :
  (0 < per_page)%nat ->
  (length projects < fuel)%nat ->
  fst (get_all_projects (Examples.listing projects keys header) fuel per_page w)
  = Ok projects
  /\ requests (trace (snd (get_all_projects (Examples.listing projects keys header)
                            fuel per_page w)))
     = (requests (trace w) + (length projects + per_page - 1) / per_page + 1)%nat.
Proof.
  intros Hpp Hfuel. unfold get_all_projects.
  destruct (get_all_projects_loop_requests projects keys header per_page Hpp fuel 0 w)
    as (w' & Hrun & Hreq); [simpl; exact Hfuel|].
  assert (Hrun' : get_all_projects_loop (Examples.listing projects keys header) fuel
                    per_page [] 1 w = (Ok projects, w')) by exact Hrun.
  rewrite Hrun'. split; [reflexivity|]. cbn [snd]. rewrite Hreq.
  rewrite drop_0. reflexivity.
Qed.

Lemma get_all_projects_traverses_listing_witness :
  fst (get_all_projects (Examples.listing Examples.three_projects [] None) 4 2
         (Examples.fresh tt 0))
  = Ok Examples.three_projects
  /\ requests (trace (snd (get_all_projects
                            (Examples.listing Examples.three_projects [] None) 4 2
                            (Examples.fresh tt 0))))
     = (requests (trace (Examples.fresh tt 0))
        + (length Examples.three_projects + 2 - 1) / 2 + 1)%nat.
Proof.
  apply (get_all_projects_traverses_listing Examples.three_projects [] None 4 2
           (Examples.fresh tt 0)).
  - lia.
  - simpl. lia.
Defined.

End PaginatorExtraProofs.

Module LinkExtraProofs.

Import KeyLinkr.
Import ExecutorExtra.
Import ExecutorProofs.
Import CallerProofs.
Import LinkProofs.

Section Fetch.

Context {S : Type}.
Variable py_int : string -> option Z.
Variable parse_pagination : string -> PaginationParse.
Variable api : Service S.

(** A first answer other than 429 settles the call with one request. *)
Lemma request_with_retries_first_answer {A} `{Payload A} (call : Call (S:=S) A)
    (w : World S) (r : Response A) :
  fst (call (srv w)) = Answered r ->
  status r <> 429%nat ->
  request_with_retries py_int call w =
  (decoded r,
   {| srv := snd (call (srv w)); trace := trace w ++ [EvRequest]; permits := permits w |}).
Proof.
  intros Hcall Hst. unfold request_with_retries.
  change (max_retries + 2)%nat with (Datatypes.S (max_retries + 1)).
  rewrite retry_loop_step. simpl. rewrite Hcall.
  apply Nat.eqb_neq in Hst. rewrite Hst. simpl.
  unfold decoded. destruct (content r); reflexivity.
Qed.

(** ** Error statuses on a released response *)



(** ** Existing links of a parent key *)

(** Status 400 on the key_links endpoint means "no links": the empty list
    comes back and nothing is printed. *)
Theorem get_linked_child_keys_400_is_empty (parent_project_id : string)
    (parent_key_id : option string) (w : World S) (r : Response KeyLinks) :
  fst (GET_key_links api parent_project_id parent_key_id (srv w)) = Answered r ->
  status r = 400%nat ->
  content r <> NotUtf8 ->
  get_linked_child_keys py_int api parent_project_id parent_key_id w
  = (Ok [],
     {| srv := snd (GET_key_links api parent_project_id parent_key_id (srv w));
        trace := trace w ++ [EvRequest]; permits := permits w |}).
Proof.
  intros Hcall Hst Hutf.
  pose proof (request_with_retries_first_answer _ w r Hcall ltac:(lia)) as Hr.
  unfold get_linked_child_keys.
  unfold decoded in Hr. destruct (content r) as [| |data]; [congruence| |];
    rewrite (bind_ok _ _ _ _ _ Hr);
    unfold unpack2, bind, ret; cbv beta iota; rewrite Hst; reflexivity.
Qed.

(** Status 200: the ids of the children, in the order of the document; the
    links are reported as downloaded. *)
Theorem get_linked_child_keys_200_ids (parent_project_id : string)
    (parent_key_id : option string) (w : World S) (r : Response KeyLinks)
    (linked : list Key) (ids : list string) :
  fst (GET_key_links api parent_project_id parent_key_id (srv w)) = Answered r ->
  status r = 200%nat ->
  content r = Json {| children := Some linked |} ->
  map key_id linked = map Some ids ->
  get_linked_child_keys py_int api parent_project_id parent_key_id w
  = (Ok ids,
     {| srv := snd (GET_key_links api parent_project_id parent_key_id (srv w));
        trace := trace w ++ [EvRequest; EvPrint (MsgLinksDownloaded parent_key_id)];
        permits := permits w |}).
Proof.
  intros Hcall Hst Hc Hids.
  pose proof (request_with_retries_first_answer _ w r Hcall ltac:(lia)) as Hr.
  unfold get_linked_child_keys. unfold decoded in Hr. rewrite Hc in Hr.
  rewrite (bind_ok _ _ _ _ _ Hr).
  unfold unpack2, bind, ret, print, emit, lift. cbv beta iota. rewrite Hst. simpl.
  assert (Hch : child_ids linked = Ok ids).
  { clear -Hids. revert ids Hids. induction linked as [|k linked IH]; intros [|i ids] Hids;
      simpl in *; try discriminate; [reflexivity|].
    injection Hids as Hk Hrest. rewrite Hk, (IH ids Hrest). reflexivity. }
  rewrite Hch, <- app_assoc. reflexivity.
Qed.

(** ** The dictionary of existing links *)

(** linked_keys_dict holds only what was fetched for a parent key of the
    listing, and never an empty list: a parent key without links has no
    entry. *)
Theorem linked_keys_dict_entries (parent_project_id : string) (parent_keys : list Key)
    (w : World S) (linked_keys_dict : gmap (option string) (list string)) (w' : World S)
    (parent_key_id : option string) (ids : list string) :
  build_linked_keys_dict py_int api parent_project_id parent_keys w
  = (Ok linked_keys_dict, w') ->
  linked_keys_dict !! parent_key_id = Some ids ->
  ids <> [] /\ exists parent_key, parent_key ∈ parent_keys
                                  /\ key_id parent_key = parent_key_id.
Proof.
  intros Hrun. revert parent_key_id ids.
  unfold build_linked_keys_dict in Hrun.
  refine (for_each_invariant
            (fun d : gmap (option string) (list string) =>
               forall k ids, d !! k = Some ids ->
               ids <> [] /\ exists pk, pk ∈ parent_keys /\ key_id pk = k)
            _ parent_keys _ ∅ w linked_keys_dict w' _ Hrun).
  - intros acc pk w1 acc' w1' Hin Hacc. unfold bind at 1.
    destruct (get_linked_child_keys _ _ _ _ w1) as [[linked| | |] w2]; try discriminate.
    destruct linked as [|i linked]; simpl; unfold ret; intros [= <- _]; [exact Hacc|].
    intros k ids. rewrite lookup_insert. case_decide as Hk.
    + intros [= <-]. split; [discriminate|]. exists pk. split; [exact Hin|exact Hk].
    + apply Hacc.
  - intros k ids Hk. rewrite lookup_empty in Hk. discriminate.
Qed.

End Fetch.



Lemma get_linked_child_keys_400_is_empty_witness :
  get_linked_child_keys Examples.parse_int (Examples.listing [] [] None)
    "p1" (Some "A") (Examples.fresh tt 0)
  = (Ok [], {| srv := tt; trace := [EvRequest]; permits := 0 |}).
Proof.
  refine (get_linked_child_keys_400_is_empty Examples.parse_int
            (Examples.listing [] [] None) "p1" (Some "A") (Examples.fresh tt 0)
            (Examples.answer 400 None empty_dict) _ _ _).
  - reflexivity.
  - reflexivity.
  - simpl. discriminate.
Defined.

Lemma get_linked_child_keys_200_ids_witness :
  get_linked_child_keys Examples.parse_int Examples.twins_linked
    "p1" (Some "A") (Examples.fresh tt 0)
  = (Ok ["X"],
     {| srv := tt;
        trace := [EvRequest; EvPrint (MsgLinksDownloaded (Some "A"))];
        permits := 0 |}).
Proof.
  refine (get_linked_child_keys_200_ids Examples.parse_int Examples.twins_linked
            "p1" (Some "A") (Examples.fresh tt 0)
            (Examples.answer 200 None {| children := Some [Examples.key "X" "greeting"] |})
            [Examples.key "X" "greeting"] ["X"] _ _ _ _); reflexivity.
Defined.

(** ** Batches of parent keys *)

Lemma slices_concat {A} (n : nat) :
  (0 < n)%nat ->
  forall fuel (l : list A), (length l <= fuel)%nat ->
  concat (slices fuel n l) = l
  /\ Forall (fun batch => (0 < length batch <= n)%nat) (slices fuel n l).
Proof.
  intros Hn. induction fuel as [|fuel IH]; intros l Hl.
  - destruct l; [split; [reflexivity|constructor]|simpl in Hl; lia].
  - destruct l as [|x l]; [split; [reflexivity|constructor]|].
    cbn [slices].
    destruct (IH (drop n (x :: l))) as [IH1 IH2].
    { rewrite length_drop. simpl in *. lia. }
    split.
    + cbn [concat]. rewrite IH1. apply take_drop.
    + constructor; [|exact IH2]. rewrite length_take. simpl. lia.
Qed.

(** The batches of line 284-285 partition the parent keys: put end to end
    they give back the list, none is empty and none has more than the batch
    size. *)
Theorem batches_partition {A} (n : nat) (l : list A) :
  (0 < n)%nat ->
  concat (batches n l) = l
  /\ Forall (fun batch => (0 < length batch <= n)%nat) (batches n l).
Proof. intros Hn. unfold batches. apply slices_concat; [exact Hn|lia]. Qed.

Lemma batches_partition_witness :
  concat (batches 2 [1; 2; 3; 4; 5]%nat) = [1; 2; 3; 4; 5]%nat
  /\ Forall (fun batch => (0 < length batch <= 2)%nat) (batches 2 [1; 2; 3; 4; 5]%nat).
Proof. apply (batches_partition 2 [1; 2; 3; 4; 5]%nat). lia. Defined.

Lemma elem_of_batches {A} (n : nat) (l batch : list A) (x : A) :
  (0 < n)%nat -> batch ∈ batches n l -> x ∈ batch -> x ∈ l.
Proof.
  intros Hn Hb Hx. unfold batches in Hb.
  destruct (slices_concat n Hn (length l) l) as [Hc _]; [lia|].
  rewrite <- Hc. apply list_elem_of_In, in_concat.
  exists batch. split; apply list_elem_of_In; assumption.
Qed.

Section Schedule.

Context {S : Type}.
Variable py_int : string -> option Z.
Variable parse_pagination : string -> PaginationParse.
Variable api : Service S.

Lemma add_link_keys (parent_key_id child_key_id : string)
    (key_links_map : list (string * list string)) (k : string) :
  k ∈ map fst (add_link parent_key_id child_key_id key_links_map) ->
  k = parent_key_id \/ k ∈ map fst key_links_map.
Proof.
  induction key_links_map as [|[k' ids] rest IH]; simpl; intros Hk.
  - apply list_elem_of_singleton in Hk. left. exact Hk.
  - destruct (String.eqb k' parent_key_id); simpl in Hk.
    + right. exact Hk.
    + apply elem_of_cons in Hk as [->|Hk]; [right; left|].
      destruct (IH Hk) as [->|Hin]; [left; reflexivity|right; right; exact Hin].
Qed.

Lemma add_link_NoDup (parent_key_id child_key_id : string)
    (key_links_map : list (string * list string)) :
  NoDup (map fst key_links_map) ->
  NoDup (map fst (add_link parent_key_id child_key_id key_links_map)).
Proof.
  induction key_links_map as [|[k ids] rest IH]; simpl; intros Hnd.
  - repeat constructor. apply not_elem_of_nil.
  - apply NoDup_cons in Hnd as [Hk Hrest].
    destruct (String.eqb k parent_key_id) eqn:Heq; simpl.
    + apply NoDup_cons. split; assumption.
    + apply NoDup_cons. split; [|apply IH; exact Hrest].
      intros Hin. destruct (add_link_keys _ _ _ _ Hin) as [->|Hin'].
      * rewrite String.eqb_refl in Heq. discriminate.
      * contradiction.
Qed.

Lemma add_link_well_formed (parent_keys : list Key) (parent_key : Key)
    (parent_key_id child_key_id : string) (key_links_map : list (string * list string)) :
  parent_key ∈ parent_keys ->
  key_id parent_key = Some parent_key_id ->
  truthy_str parent_key_id = true ->
  truthy_str child_key_id = true ->
  LinkExtra.well_formed_tasks parent_keys key_links_map ->
  LinkExtra.well_formed_tasks parent_keys
    (add_link parent_key_id child_key_id key_links_map).
Proof.
  intros Hin Hid Hp Hc [Hnd Hwf]. split; [apply add_link_NoDup; exact Hnd|].
  intros p ids Htask.
  destruct (add_link_elem _ _ _ _ Htask) as [H1|[(ids' & Heq & H2)|Heq]].
  - exact (Hwf p ids H1).
  - injection Heq as -> ->. destruct (Hwf _ _ H2) as (_ & Hall & Ht & Hpk).
    split; [destruct ids'; discriminate|].
    split; [apply Forall_app; split; [exact Hall|repeat constructor; exact Hc]|].
    split; assumption.
  - injection Heq as -> ->.
    split; [discriminate|]. split; [repeat constructor; exact Hc|].
    split; [exact Hp|]. exists parent_key. split; assumption.
Qed.

Lemma truthy_ostr_Some (o : option string) :
  truthy_ostr o = true -> exists s, o = Some s /\ truthy_str s = true.
Proof. destruct o as [s|]; simpl; [eauto|discriminate]. Qed.

Lemma match_parent_key_well_formed (parent_keys : list Key)
    (linked_keys_dict : gmap (option string) (list string))
    (child_key_map : gmap string string) (key_links_map : list (string * list string))
    (parent_key : Key) (w : World S) key_links_map' (w' : World S) :
  parent_key ∈ parent_keys ->
  LinkExtra.well_formed_tasks parent_keys key_links_map ->
  match_parent_key linked_keys_dict child_key_map key_links_map parent_key w
    = (Ok key_links_map', w') ->
  LinkExtra.well_formed_tasks parent_keys key_links_map'.
Proof.
  intros Hin Hwf. unfold match_parent_key.
  destruct (truthy_ostr (key_id parent_key)) eqn:Hid; simpl.
  2:{ unfold ret. intros [= <- _]. exact Hwf. }
  destruct (truthy_ostr (key_name parent_key)) eqn:Hname; simpl.
  2:{ unfold ret. intros [= <- _]. exact Hwf. }
  destruct (truthy_ostr (child_key_map !! default "" (key_name parent_key))) eqn:Hchild.
  2:{ unfold ret. intros [= <- _]. exact Hwf. }
  destruct (linked_to_parent _ _ _).
  { unfold bind, print, emit, ret. intros [= <- _]. exact Hwf. }
  destruct (linked_to_any _ _).
  { unfold bind, print, emit, ret. intros [= <- _]. exact Hwf. }
  unfold bind, print, emit, ret. intros [= <- _].
  apply truthy_ostr_Some in Hid as (p & Hp & Hpt).
  apply truthy_ostr_Some in Hchild as (c & Hc & Hct).
  rewrite Hp, Hc. simpl.
  apply (add_link_well_formed parent_keys parent_key); assumption.
Qed.

(** ** The scheduled link tasks *)

(** Whatever the services answer, the scheduling loop ends with at most one
    create_key_link call per parent key: the parent key ids of the tasks are
    pairwise distinct, each is the non-empty id of a parent key of the
    listing, and each task names at least one child key, none with an empty
    id. *)
Theorem schedule_links_well_formed (fuel : nat)
    (linked_keys_dict : gmap (option string) (list string))
    (parent_keys : list Key) (child_projects : list Project)
    (w : World S) (tasks : list (string * list string)) (w' : World S) :
  schedule_links py_int parse_pagination api fuel linked_keys_dict
    parent_keys child_projects w = (Ok tasks, w') ->
  LinkExtra.well_formed_tasks parent_keys tasks.
Proof.
  unfold schedule_links. apply for_each_invariant.
  - intros acc batch w1 acc1 w1' Hbatch Hacc.
    apply for_each_invariant; [|exact Hacc].
    intros acc2 project w2 acc2' w2' _ Hacc2.
    unfold bind at 1.
    destruct (get_all_keys _ _ _ _ _ _ _ w2) as [[child_keys| | |] w3]; try discriminate.
    destruct (truthy_list child_keys).
    2:{ unfold ret. intros [= <- _]. exact Hacc2. }
    unfold bind at 1. unfold lift.
    destruct (child_key_map_of child_keys ∅) as [child_key_map| | |]; try discriminate.
    apply for_each_invariant; [|exact Hacc2].
    intros acc3 parent_key w4 acc3' w4' Hpk Hacc3.
    apply match_parent_key_well_formed; [|exact Hacc3].
    apply (elem_of_batches 100 parent_keys batch); [lia|exact Hbatch|exact Hpk].
  - split; [constructor|]. intros p ids Hin. apply elem_of_nil in Hin. contradiction.
Qed.

End Schedule.

(** The run of [Examples.twins_linked]: one task, for parent [C]. *)
Lemma schedule_links_well_formed_witness :
  LinkExtra.well_formed_tasks
    [Examples.key "A" "greeting"; Examples.key "B" "greeting";
     Examples.key "C" "farewell"]
    [("C", ["Y"])].
Proof.
  apply (schedule_links_well_formed Examples.parse_int Examples.parse_page_count
           Examples.twins_linked 5 {[ Some "A" := ["X"] ]}
           [Examples.key "A" "greeting"; Examples.key "B" "greeting";
            Examples.key "C" "farewell"]
           [{| proj_id := "child" |}] (Examples.fresh tt 4) [("C", ["Y"])]
           (snd (schedule_links Examples.parse_int Examples.parse_page_count
                   Examples.twins_linked 5 {[ Some "A" := ["X"] ]}
                   [Examples.key "A" "greeting"; Examples.key "B" "greeting";
                    Examples.key "C" "farewell"]
                   [{| proj_id := "child" |}] (Examples.fresh tt 4)))).
  vm_compute. reflexivity.
Defined.

Lemma linked_keys_dict_entries_witness :
  ["X"] <> [] /\ exists parent_key,
      parent_key ∈ [Examples.key "A" "greeting"; Examples.key "B" "greeting";
                    Examples.key "C" "farewell"]
      /\ key_id parent_key = Some "A".
Proof.
  apply (linked_keys_dict_entries Examples.parse_int Examples.twins_linked
           HARD_CODED_PARENT_PROJECT_ID
           [Examples.key "A" "greeting"; Examples.key "B" "greeting";
            Examples.key "C" "farewell"]
           (Examples.fresh tt 0) {[ Some "A" := ["X"] ]}
           (snd (build_linked_keys_dict Examples.parse_int Examples.twins_linked
                   HARD_CODED_PARENT_PROJECT_ID
                   [Examples.key "A" "greeting"; Examples.key "B" "greeting";
                    Examples.key "C" "farewell"]
                   (Examples.fresh tt 0)))
           (Some "A") ["X"]).
  - vm_compute. reflexivity.
  - reflexivity.
Defined.

End LinkExtraProofs.

Module KeyMapProofs.

Import KeyLinkr.

Lemma child_key_map_of_other (name : string) (child_keys : list Key) :
  forall (acc map : gmap string string),
  Forall (fun child_key => key_name child_key <> Some name) child_keys ->
  child_key_map_of child_keys acc = Ok map ->
  map !! name = acc !! name.
Proof.
  induction child_keys as [|k rest IH]; intros acc map Hno Hmap; simpl in Hmap.
  - injection Hmap as <-. reflexivity.
  - apply Forall_cons in Hno as [Hk Hrest].
    destruct (key_name k) as [n|] eqn:Hn; [|discriminate].
    destruct (key_id k) as [i|]; [|discriminate].
    rewrite (IH _ _ Hrest Hmap). apply lookup_insert_ne. congruence.
Qed.

(** ** The name-to-id map of a child project *)

(** When several keys of a child project have the same name, the map of
    line 293 keeps the id of the last of them: that one is matched, the
    earlier ones are dropped. *)
Theorem child_key_map_last_wins (earlier later : list Key) (child_key : Key)
    (name i : string) (map : gmap string string) :
  key_name child_key = Some name ->
  key_id child_key = Some i ->
  Forall (fun k => key_name k <> Some name) later ->
  child_key_map_of (earlier ++ child_key :: later) ∅ = Ok map ->
  map !! name = Some i.
Proof.
  intros Hname Hid Hlater. generalize (∅ : gmap string string).
  induction earlier as [|k earlier IH]; intros acc Hmap; simpl in Hmap.
  - rewrite Hname, Hid in Hmap.
    rewrite (child_key_map_of_other name later _ _ Hlater Hmap).
    apply lookup_insert_eq.
  - destruct (key_name k) as [n|]; [|discriminate].
    destruct (key_id k) as [j|]; [|discriminate].
    exact (IH _ Hmap).
Qed.

Lemma child_key_map_last_wins_witness :
  (<["greeting" := "X2"]> (<["greeting" := "X1"]> (∅ : gmap string string)))
    !! "greeting" = Some "X2".
Proof.
  apply (child_key_map_last_wins [Examples.key "X1" "greeting"] []
           (Examples.key "X2" "greeting") "greeting" "X2").
  - reflexivity.
  - reflexivity.
  - constructor.
  - reflexivity.
Defined.

(** A child key without a name or without an id stops the run of the
    dictionary comprehension with KeyError. *)
Theorem child_key_map_missing_field (earlier later : list Key) (child_key : Key)
    (acc : gmap string string) :
  Forall (fun k => is_Some (key_name k) /\ is_Some (key_id k)) earlier ->
  key_name child_key = None \/ key_id child_key = None ->
  exists field, child_key_map_of (earlier ++ child_key :: later) acc = Raise (KeyError field)
                /\ (field = "name" \/ field = "id").
Proof.
  intros Hearlier Hmissing. revert acc.
  induction Hearlier as [|k earlier [[n Hn] [i Hi]] _ IH]; intros acc; simpl.
  - destruct (key_name child_key) as [n|].
    + destruct Hmissing as [|Hid]; [discriminate|]. rewrite Hid. eauto.
    + eauto.
  - rewrite Hn, Hi. apply IH.
Qed.

Lemma child_key_map_missing_field_witness :
  exists field,
    child_key_map_of ([Examples.key "X1" "greeting"]
                      ++ {| key_id := None; key_name := Some "farewell" |} :: []) ∅
    = Raise (KeyError field)
    /\ (field = "name" \/ field = "id").
Proof.
  apply (child_key_map_missing_field [Examples.key "X1" "greeting"] []
           {| key_id := None; key_name := Some "farewell" |} ∅).
  - repeat constructor; eexists; reflexivity.
  - right. reflexivity.
Defined.

End KeyMapProofs.

Module DetailProofs.

Import KeyLinkr.
Import ExecutorProofs.
Import SchedulerProofs.

Section Detail.

Context {S : Type}.
Variable py_int : string -> option Z.
Variable api : Service S.

Lemma get_key_detail_block_ok (project_id key_id : string) (w : World S) :
  exists detail w',
    get_key_detail_block py_int api project_id key_id w = (Ok detail, w')
    /\ permits w' = permits w.
Proof.
  unfold get_key_detail_block, try_except.
  set (call := GET_key api project_id key_id).
  unfold bind at 1.
  pose proof (request_with_retries_returns py_int call w) as Hd.
  pose proof (retry_loop_no_exit py_int call (max_retries + 2) 0 w) as He.
  destruct (retry_loop_extends py_int (max_retries + 2) call 0 w) as (t & _ & Hp).
  fold (request_with_retries py_int call) in He, Hp.
  destruct (request_with_retries py_int call w) as [[r|e|c|] w1]; simpl in *.
  - destruct r as [response data|response]; simpl.
    + unfold bind, ret, print, emit.
      destruct (status response =? 200)%nat; simpl; do 2 eexists;
        (split; [reflexivity|simpl; exact Hp]).
    + unfold bind, ret, print, emit. simpl. do 2 eexists.
      split; [reflexivity|exact Hp].
  - unfold bind, ret, print, emit. simpl. do 2 eexists. split; [reflexivity|exact Hp].
  - exfalso. exact (He c eq_refl).
  - exfalso. exact (Hd eq_refl).
Qed.

(** ** get_key_detail *)

(** get_key_detail never raises and never exits: with a permit free it
    comes back with the detail or with nothing, and the permit it took is
    given back; with no permit free it waits. *)
Theorem get_key_detail_never_raises (project_id key_id : string) (w : World S) :
  match permits w with
  | O => fst (get_key_detail py_int api project_id key_id w) = Diverge
  | Datatypes.S n =>
      exists detail w',
        get_key_detail py_int api project_id key_id w = (Ok detail, w')
        /\ permits w' = Datatypes.S n
  end.
Proof.
  unfold get_key_detail, with_semaphore, acquire.
  destruct (permits w) as [|n]; [reflexivity|].
  destruct (get_key_detail_block_ok project_id key_id
              {| srv := srv w; trace := trace w; permits := n |})
    as (detail & w1 & Hb & Hp).
  rewrite Hb. exists detail. eexists. split; [reflexivity|].
  unfold release. simpl. simpl in Hp. rewrite Hp. reflexivity.
Qed.

End Detail.

End DetailProofs.

Module UsersExtraProofs.

Import ExcessUsers.
Import ExcessUsersProofs.
Import UsersExtra.

Section Fetch.

Context {S : Type}.
Variable strptime : string -> option datetime.
Variable api : Service S.

(** ** Listings that fail *)

(** When the project listing is refused (any status but 200) the run prints
    the error and ends there: no user listing is asked for, nobody is
    removed. *)
Theorem refused_project_listing_ends_run (account_id : string)
    (filter_timestamp : datetime) (w : World S) (r : Reply (list Project)) (s' : S) :
  GET_projects api account_id (srv w) = (Answered r, s') ->
  status_code r <> 200%nat ->
  remove_excess_users strptime api account_id filter_timestamp w
  = (Ok tt, {| srv := s';
               out := out w ++ [MsgErrorFetchingProjects (status_code r); MsgNoProjects] |}).
Proof.
  intros Hget Hst. unfold remove_excess_users, get_projects, send.
  unfold bind. rewrite Hget. apply Nat.eqb_neq in Hst. rewrite Hst. simpl.
  unfold print. simpl. rewrite <- app_assoc. reflexivity.
Qed.

(** When the user listing of one project is refused, that project is passed
    over -- the error is printed, nobody is removed -- and the loop goes on
    with the projects that follow. *)
Theorem refused_user_listing_skips_project (filter_timestamp : datetime)
    (project_id : string) (more : list Project) (w : World S)
    (r : Reply (list User)) (s' : S) :
  GET_users api project_id (srv w) = (Answered r, s') ->
  status_code r <> 200%nat ->
  for_each ({| id := Some project_id |} :: more) tt
    (fun _ project => process_project strptime api filter_timestamp project) w
  = for_each more tt
      (fun _ project => process_project strptime api filter_timestamp project)
      {| srv := s';
         out := out w ++ [MsgErrorFetchingUsers project_id (status_code r);
                          MsgNoUsers project_id] |}.
Proof.
  intros Hget Hst. cbn [for_each].
  assert (Hp : process_project strptime api filter_timestamp {| id := Some project_id |} w
               = (Ok tt, {| srv := s';
                            out := out w ++ [MsgErrorFetchingUsers project_id (status_code r);
                                             MsgNoUsers project_id] |})).
  { unfold process_project, get_users, send.
    unfold bind, lift. simpl. rewrite Hget. apply Nat.eqb_neq in Hst. rewrite Hst. simpl.
    unfold print. simpl. rewrite <- app_assoc. reflexivity. }
  unfold bind at 1. rewrite Hp. reflexivity.
Qed.

End Fetch.

(** ** Ties *)

Lemma lex_compare_eq (a b : list nat) : lex_compare a b = Eq -> a = b.
Proof.
  revert b. induction a as [|x a IH]; intros [|y b]; simpl; try discriminate;
    [reflexivity|].
  destruct (Nat.compare_spec x y); try discriminate.
  intros Hab. subst y. f_equal. apply IH. exact Hab.
Qed.

Lemma key_is_not_gtb {A} (d : datetime) (x y : datetime * A) :
  key_is d x = true -> key_is d y = true -> dt_gtb (fst y) (fst x) = false.
Proof.
  unfold key_is, dt_gtb, dt_compare. intros Hx Hy.
  destruct (lex_compare (fields (fst x)) (fields d)) eqn:Hxd; try discriminate.
  destruct (lex_compare (fields (fst y)) (fields d)) eqn:Hyd; try discriminate.
  apply lex_compare_eq in Hxd, Hyd. rewrite Hxd, Hyd, lex_compare_refl. reflexivity.
Qed.

Lemma insert_desc_stable {A} (d : datetime) (x : datetime * A) (l : list (datetime * A)) :
  List.filter (key_is d) (insert_desc x l) = List.filter (key_is d) (x :: l).
Proof.
  induction l as [|y l IH]; [reflexivity|]. cbn [insert_desc].
  destruct (dt_gtb (fst y) (fst x)) eqn:Hgt; [|reflexivity].
  cbn [List.filter]. rewrite IH. cbn [List.filter].
  destruct (key_is d x) eqn:Hx, (key_is d y) eqn:Hy; try reflexivity.
  rewrite (key_is_not_gtb d x y Hx Hy) in Hgt. discriminate.
Qed.

Lemma sort_desc_stable {A} (d : datetime) (l : list (datetime * A)) :
  List.filter (key_is d) (sort_desc l) = List.filter (key_is d) l.
Proof.
  induction l as [|x l IH]; [reflexivity|]. cbn [sort_desc].
  rewrite insert_desc_stable. cbn [List.filter]. rewrite IH. reflexivity.
Qed.

Lemma filter_decorated (strptime : string -> option datetime) (d : datetime)
    (ps : list (datetime * User)) :
  Forall (fun p => created strptime (snd p) = Ok (fst p)) ps ->
  map snd (List.filter (key_is d) ps)
  = List.filter (same_instant strptime d) (map snd ps).
Proof.
  induction 1 as [|p ps Hp _ IH]; [reflexivity|]. cbn [List.filter map].
  unfold same_instant at 1. rewrite Hp. fold (key_is d p).
  destruct (key_is d p); cbn [map]; rewrite IH; reflexivity.
Qed.

(** Line 63 is a stable sort: users created at the same instant stay in the
    order of the listing, so among them the ones listed first are the first
    to be removed. *)
Theorem ties_keep_listing_order (strptime : string -> option datetime)
    (filter_timestamp d : datetime) (users cs : list User) :
  candidates strptime filter_timestamp users = Ok cs ->
  List.filter (same_instant strptime d) cs
  = List.filter (same_instant strptime d)
      (List.filter (is_recent strptime filter_timestamp) users).
Proof.
  unfold candidates.
  destruct (created_after strptime filter_timestamp users) as [recent| | |] eqn:Hr;
    try discriminate.
  apply created_after_ok in Hr as [<- _].
  unfold sort_newest_first.
  destruct (traverse _ recent) as [decorated| | |] eqn:Ht; try discriminate.
  intros [= <-]. apply traverse_ok in Ht.
  assert (Hkey : Forall (fun p => created strptime (snd p) = Ok (fst p)) decorated
                 /\ map snd decorated = recent).
  { induction Ht as [|u p us ps Hu _ [IH1 IH2]]; [split; [constructor|reflexivity]|].
    destruct (created strptime u) eqn:Hc; try discriminate. injection Hu as <-.
    split; [constructor; [exact Hc|exact IH1]|simpl; rewrite IH2; reflexivity]. }
  destruct Hkey as [Hdec Hsnd].
  rewrite <- (filter_decorated strptime d (sort_desc decorated)).
  - rewrite sort_desc_stable, (filter_decorated strptime d decorated Hdec), Hsnd.
    reflexivity.
  - apply Forall_forall. intros p Hp. rewrite sort_desc_perm in Hp.
    rewrite Forall_forall in Hdec. exact (Hdec p Hp).
Qed.

Lemma ties_keep_listing_order_witness :
  List.filter (same_instant UserExamples.strptime_iso
                 {| year := 2025; month := 3; day := 2; hour := 9; minute := 0;
                    second := 0 |})
    [tied "t1"; tied "t2"; tied "t3"; UserExamples.new_user 7; UserExamples.new_user 3]
  = List.filter (same_instant UserExamples.strptime_iso
                   {| year := 2025; month := 3; day := 2; hour := 9; minute := 0;
                      second := 0 |})
      (List.filter (is_recent UserExamples.strptime_iso START_DATE) with_ties).
Proof.
  apply (ties_keep_listing_order UserExamples.strptime_iso START_DATE
           {| year := 2025; month := 3; day := 2; hour := 9; minute := 0; second := 0 |}
           with_ties
           [tied "t1"; tied "t2"; tied "t3"; UserExamples.new_user 7;
            UserExamples.new_user 3]).
  vm_compute. reflexivity.
Defined.

Section Quota.

Context {S : Type}.
Variable strptime : string -> option datetime.
Variable api : Service S.

Abbreviation readable := (readable strptime).


(** ** Within the limit *)

(** A project with at most 150 users created after the cutoff is left as it
    is, however many older users it has: no removal is requested. *)
Theorem project_within_limit_untouched (filter_timestamp : datetime)
    (project_id : string) (users : list User) (w : World S) (s' : S) :
  GET_users api project_id (srv w)
  = (Answered {| status_code := 200; json := Some users |}, s') ->
  users <> [] ->
  Forall readable users ->
  (length (List.filter (is_recent strptime filter_timestamp) users) <= 150)%nat ->
  process_project strptime api filter_timestamp {| id := Some project_id |} w
  = (Ok tt, {| srv := s'; out := out w ++ [MsgWithinLimit project_id] |}).
Proof.
  intros Hget Hne Hall Hcount.
  destruct (candidates_total strptime filter_timestamp users Hall) as (cs & Hc & Hlen).
  rewrite (process_project_visits_selected strptime api filter_timestamp project_id
             users cs w s' Hget Hne Hc).
  assert (Hle : (0 <? excess_user_count cs)%Z = false).
  { apply Z.ltb_ge. unfold excess_user_count, USER_LIMIT. lia. }
  rewrite Hle. reflexivity.
Qed.

(** ** The removal loop *)


(** ** Unreadable timestamps *)

(** A creation timestamp that is there but not in the expected format is
    not caught by the handler of line 64: the ValueError leaves
    process_project, the loop over the projects and the run; the projects
    that follow are not looked at. *)
Theorem unreadable_timestamp_aborts_run (filter_timestamp : datetime)
    (project_id : string) (good : list User) (bad : User) (rest : list User)
    (text : string) (more : list Project) (w : World S) (s' : S) :
  GET_users api project_id (srv w)
  = (Answered {| status_code := 200; json := Some (good ++ bad :: rest) |}, s') ->
  Forall readable good ->
  created_at bad = Some text ->
  strptime text = None ->
  for_each ({| id := Some project_id |} :: more) tt
    (fun _ project => process_project strptime api filter_timestamp project) w
  = (Raise ValueError, {| srv := s'; out := out w |}).
Proof.
  intros Hget Hgood Hbad Htext. cbn [for_each].
  assert (Hc : candidates strptime filter_timestamp (good ++ bad :: rest)
               = Raise ValueError).
  { unfold candidates, created_after.
    rewrite (PartialRecordProofs.traverse_raises _ good bad rest ValueError);
      [reflexivity| |].
    - eapply Forall_impl; [exact Hgood|]. intros u [d Hd]. rewrite Hd. eauto.
    - unfold created. rewrite Hbad. simpl. rewrite Htext. reflexivity. }
  assert (Hp : process_project strptime api filter_timestamp {| id := Some project_id |} w
               = (Raise ValueError, {| srv := s'; out := out w |})).
  { unfold process_project, get_users, send, response_json.
    unfold bind, lift, ret. simpl. rewrite Hget. simpl. rewrite Hc.
    destruct good; reflexivity. }
  unfold bind at 1. rewrite Hp. reflexivity.
Qed.

End Quota.

(** Two hundred users of the old guard and three new ones. *)
Lemma project_within_limit_untouched_witness :
  process_project UserExamples.strptime_iso
    (UserExamples.account (UserExamples.old_users 200 ++ UserExamples.new_users 3))
    START_DATE {| id := Some "p" |} UserExamples.fresh
  = (Ok tt, {| srv := tt; out := out UserExamples.fresh ++ [MsgWithinLimit "p"] |}).
Proof.
  apply (project_within_limit_untouched UserExamples.strptime_iso
           (UserExamples.account (UserExamples.old_users 200 ++ UserExamples.new_users 3))
           START_DATE "p" (UserExamples.old_users 200 ++ UserExamples.new_users 3)
           UserExamples.fresh tt).
  - reflexivity.
  - discriminate.
  - all_readable.
  - vm_compute. lia.
Defined.


(** The same run in full: both records with an id are sent, the one without
    is reported, and the refusals stop nothing. *)
Example refused_removals_are_all_attempted :
  remove_selected (stubborn_ledger [])
    "p" [UserExamples.new_user 2; UserExamples.unnamed_user; UserExamples.new_user 1]
    UserExamples.fresh_ledger
  = (Ok tt,
     {| srv := [("p", "u002"); ("p", "u001")];
        out := [MsgErrorRemoving "u002" "p" 403; MsgMissingKey "p" "id";
                MsgErrorRemoving "u001" "p" 403] |}).
Proof. vm_compute. reflexivity. Qed.

(** A timestamp in another format, in the first of two projects. *)
Lemma unreadable_timestamp_aborts_run_witness :
  for_each ({| id := Some "p" |} :: [{| id := Some "q" |}]) tt
    (fun _ project =>
       process_project UserExamples.strptime_iso
         (UserExamples.account ([UserExamples.new_user 1] ++ misdated_user
                                  :: [UserExamples.new_user 2]))
         START_DATE project)
    UserExamples.fresh
  = (Raise ValueError, {| srv := tt; out := out UserExamples.fresh |}).
Proof.
  apply (unreadable_timestamp_aborts_run UserExamples.strptime_iso
           (UserExamples.account ([UserExamples.new_user 1] ++ misdated_user
                                    :: [UserExamples.new_user 2]))
           START_DATE "p" [UserExamples.new_user 1] misdated_user
           [UserExamples.new_user 2] "02/03/2025 09:00" [{| id := Some "q" |}]
           UserExamples.fresh tt).
  - reflexivity.
  - all_readable.
  - reflexivity.
  - vm_compute. reflexivity.
Defined.

Lemma refused_project_listing_ends_run_witness :
  remove_excess_users UserExamples.strptime_iso locked_account "account" START_DATE
    UserExamples.fresh
  = (Ok tt, {| srv := tt;
               out := out UserExamples.fresh
                      ++ [MsgErrorFetchingProjects
                            (status_code {| status_code := 403;
                                            json := @None (list Project) |});
                          MsgNoProjects] |}).
Proof.
  apply (refused_project_listing_ends_run UserExamples.strptime_iso locked_account
           "account" START_DATE UserExamples.fresh
           {| status_code := 403; json := None |} tt).
  - reflexivity.
  - simpl. lia.
Defined.

Lemma refused_user_listing_skips_project_witness :
  for_each ({| id := Some "p" |} :: [{| id := Some "q" |}]) tt
    (fun _ project =>
       process_project UserExamples.strptime_iso locked_account START_DATE project)
    UserExamples.fresh
  = for_each [{| id := Some "q" |}] tt
      (fun _ project =>
         process_project UserExamples.strptime_iso locked_account START_DATE project)
      {| srv := tt;
         out := out UserExamples.fresh
                ++ [MsgErrorFetchingUsers "p"
                      (status_code {| status_code := 403; json := @None (list User) |});
                    MsgNoUsers "p"] |}.
Proof.
  apply (refused_user_listing_skips_project UserExamples.strptime_iso locked_account
           START_DATE "p" [{| id := Some "q" |}] UserExamples.fresh
           {| status_code := 403; json := None |} tt).
  - reflexivity.
  - simpl. lia.
Defined.

End UsersExtraProofs.

Module ImportExtraProofs.

Import BulkImport.
Import ImportExtra.

Lemma csv_fields_schemas (entity_type : string) (required : list string) :
  CSV_FIELDS !! entity_type = Some required ->
  entity_type ∈ ["domain"; "subdomain"; "client"; "business_unit"]
  /\ (entity_type = "subdomain" -> "parent_domain_id" ∈ required).
Proof.
  unfold CSV_FIELDS. intros H.
  rewrite lookup_insert in H. case_decide as H1.
  { subst. split; [set_solver|discriminate]. }
  rewrite lookup_insert in H. case_decide as H2.
  { subst. injection H as <-. split; set_solver. }
  rewrite lookup_insert in H. case_decide as H3.
  { subst. split; [set_solver|discriminate]. }
  rewrite lookup_insert in H. case_decide as H4.
  { subst. split; [set_solver|discriminate]. }
  rewrite lookup_empty in H. discriminate.
Qed.

Lemma missing_fields_none (required : list string) (row : Row) (field : string) :
  missing_fields required row = [] -> field ∈ required ->
  truthy_ostr (row !! field) = true.
Proof.
  unfold missing_fields. intros Hm Hin.
  destruct (truthy_ostr (row !! field)) eqn:Ht; [reflexivity|].
  assert (Hf : In field (List.filter (fun f => negb (truthy_ostr (row !! f))) required)).
  { apply filter_In. split; [apply list_elem_of_In; exact Hin|]. rewrite Ht. reflexivity. }
  rewrite Hm in Hf. contradiction.
Qed.

(** The threshold of line 35 lets warnings and errors through and holds
    debug records back. *)
Lemma log_debug {S : Type} (record : Event) (w : World S) :
  log DEBUG record w = (Ok tt, w).
Proof. reflexivity. Qed.

Lemma log_written {S : Type} (level : Level) (record : Event) (w : World S) :
  level <> DEBUG -> log level record w = emit record w.
Proof. destruct level; [congruence|reflexivity..]. Qed.

Section ImportRun.

Context {S : Type}.
Variable POST_entity : string -> Row -> S -> Outcome * S.

(** create_entity on a row that passed validation: session.post is called,
    and the reply decides. *)
Lemma create_entity_valid (row : Row) (w : World S) :
  valid row ->
  create_entity POST_entity (entity_type_of row) row w
  = let w1 := {| srv := snd (POST_entity (entity_type_of row) row (srv w));
                 trace := trace w ++ [Post (entity_type_of row) row] |} in
    match fst (POST_entity (entity_type_of row) row (srv w)) with
    | Failed e => (Raise e, w1)
    | Answered response =>
        if (status_code response =? 409)%nat then
          (Ok (<["status" := "conflict"]> (∅ : gmap string string)), w1)
        else if ((400 <=? status_code response) && (status_code response <? 600))%nat then
          (Raise (HTTPError (status_code response)), w1)
        else match json response with
             | Some doc => (Ok doc, w1)
             | None => (Raise JSONDecodeError, w1)
             end
    end.
Proof.
  intros [_ (required & Hreq & Hmiss)]. unfold create_entity.
  destruct (csv_fields_schemas _ _ Hreq) as [Hin Hsub].
  set (t := entity_type_of row) in *.
  assert (Hcheck : (if String.eqb t "subdomain"
                    then lift (match row !! "parent_domain_id" with
                               | Some _ => Ok tt
                               | None => Raise (KeyError "parent_domain_id")
                               end)
                    else if bool_decide (t ∈ ["domain"; "client"; "business_unit"])
                         then ret tt else raise (KeyError t)) w = (Ok tt, w)).
  { destruct (String.eqb t "subdomain") eqn:Ht.
    - apply String.eqb_eq in Ht.
      pose proof (missing_fields_none _ _ _ Hmiss (Hsub Ht)) as Hp.
      destruct (row !! "parent_domain_id"); [reflexivity|discriminate].
    - apply String.eqb_neq in Ht. rewrite bool_decide_eq_true_2; [reflexivity|].
      rewrite !elem_of_cons in Hin. rewrite !elem_of_cons. tauto. }
  unfold bind at 1. rewrite Hcheck.
  unfold bind at 1. unfold emit at 1. cbn [srv trace].
  destruct (POST_entity t row (srv w)) as [[e|response] s']; [reflexivity|]. simpl.
  destruct (status_code response =? 409)%nat; [reflexivity|].
  destruct ((400 <=? status_code response) && (status_code response <? 600))%nat;
    [reflexivity|].
  destruct (json response); reflexivity.
Qed.

Lemma import_row_try_valid (stats : Stats) (row : Row) (w : World S) :
  valid row ->
  import_row_try POST_entity false stats row w
  = (let! result := create_entity POST_entity (entity_type_of row) row in
     if bool_decide (result !! "status" = Some "conflict") then ret (bump_skipped stats)
     else if bool_decide (result ≠ ∅) then ret (bump_success stats)
     else ret (bump_skipped stats)) w.
Proof.
  intros [Htruthy (required & Hreq & Hmiss)].
  unfold import_row_try. fold (entity_type_of row).
  rewrite Htruthy, Hreq, bool_decide_eq_false_2 by discriminate.
  unfold validate_row. rewrite Hreq, Hmiss.
  destruct w as [s tr]. cbv [bind lift emit_all]. cbn [srv trace negb truthy_list orb].
  rewrite app_nil_r. reflexivity.
Qed.

(** The ways out of the [try] of one row: a count, or an exception for the
    handler. At most one call of session.post, none in a dry run. *)
Lemma import_row_try_cases (dry_run : bool) (stats : Stats) (row : Row) (w : World S) :
  exists t s',
    let w' := {| srv := s'; trace := trace w ++ t |} in
    ((exists stats', import_row_try POST_entity dry_run stats row w = (Ok stats', w')
                     /\ total stats' = (total stats + 1)%nat
                     /\ (dry_run = true -> skipped stats' = skipped stats))
     \/ (exists e, import_row_try POST_entity dry_run stats row w = (Raise e, w')
                   /\ dry_run = false))
    /\ (posts t <= 1)%nat /\ progress_updates t = 0%nat
    /\ (dry_run = true -> posts t = 0%nat /\ s' = srv w).
Proof.
  unfold import_row_try. fold (entity_type_of row).
  destruct (negb (truthy_str (entity_type_of row))
            || bool_decide (CSV_FIELDS !! entity_type_of row = None)) eqn:Hty.
  { exists [LogInvalidType (row !! "type")], (srv w). simpl. split_and!; auto.
    left. eexists. split; [reflexivity|]. unfold total. simpl. split; [lia|auto]. }
  apply orb_false_iff in Hty as [Htruthy Hsome].
  apply negb_false_iff in Htruthy. apply bool_decide_eq_false in Hsome.
  destruct (CSV_FIELDS !! entity_type_of row) as [required|] eqn:Hreq; [|congruence].
  unfold validate_row. rewrite Hreq.
  destruct (missing_fields required row) as [|field missing] eqn:Hmiss.
  2:{ exists [LogMissingFields (field :: missing) (row !! "name")], (srv w).
      simpl. split_and!; auto.
      left. eexists. split; [reflexivity|]. unfold total. simpl. split; [lia|auto]. }
  destruct dry_run.
  { exists [], (srv w). simpl. split_and!; auto.
    left. eexists. split; [reflexivity|]. unfold total. simpl. split; [lia|auto]. }
  assert (Hvalid : valid row) by (split; [assumption|eauto]).
  destruct w as [s tr]. cbv [bind lift emit_all]. cbn [srv trace negb truthy_list].
  rewrite app_nil_r, (create_entity_valid row _ Hvalid). cbn [srv trace].
  destruct (POST_entity (entity_type_of row) row s) as [[e|response] s'].
  { exists [Post (entity_type_of row) row], s'. simpl. split_and!; auto; [|discriminate].
    right. eexists. split; reflexivity. }
  cbn [fst snd].
  destruct (status_code response =? 409)%nat.
  { exists [Post (entity_type_of row) row], s'.
    simpl. split_and!; auto; [|discriminate].
    left. eexists. split; [reflexivity|]. unfold total. simpl.
    split; [lia|discriminate]. }
  destruct ((400 <=? status_code response) && (status_code response <? 600))%nat.
  { exists [Post (entity_type_of row) row], s'. simpl. split_and!; auto; [|discriminate].
    right. eexists. split; reflexivity. }
  destruct (json response) as [doc|].
  2:{ exists [Post (entity_type_of row) row], s'. simpl. split_and!; auto; [|discriminate].
      right. eexists. split; reflexivity. }
  exists [Post (entity_type_of row) row], s'. simpl. split_and!; auto; [|discriminate].
  left. unfold ret.
  destruct (bool_decide (doc !! "status" = Some "conflict"));
    [|destruct (bool_decide (doc ≠ ∅))];
    (eexists; split; [reflexivity|]; unfold total; simpl; split; [lia|discriminate]).
Qed.

(** One turn of the loop always ends normally, with the row counted once
    and the progress bar updated once. *)
Lemma import_row_counts (dry_run : bool) (stats : Stats) (row : Row) (w : World S) :
  exists stats' t s',
    import_row POST_entity dry_run stats row w
    = (Ok stats', {| srv := s'; trace := trace w ++ t |})
    /\ total stats' = (total stats + 1)%nat
    /\ (posts t <= 1)%nat /\ progress_updates t = 1%nat
    /\ (dry_run = true -> posts t = 0%nat /\ s' = srv w
                          /\ skipped stats' = skipped stats).
Proof.
  destruct (import_row_try_cases dry_run stats row w)
    as (t & s' & [(stats' & Hrun & Htotal & Hskip)|(e & Hrun & Hwet)]
        & Hposts & Hprog & Hdry);
    unfold import_row, try_except, bind at 1; rewrite Hrun.
  - exists stats', (t ++ [ProgressUpdate stats']), s'.
    cbv [bind emit ret]. cbn [srv trace].
    rewrite <- ?app_assoc. unfold posts, progress_updates in *.
    rewrite !List.filter_app, !length_app. simpl. split_and!; auto; try lia.
    intros Hd. destruct (Hdry Hd). split_and!; [lia|assumption|auto].
  - exists (bump_errors stats),
      (t ++ [Sleep_half_second; ProgressUpdate (bump_errors stats)]), s'.
    cbv [any_Exception bind]. rewrite log_debug. cbv [emit ret]. cbn [srv trace].
    rewrite <- ?app_assoc. cbn [app]. unfold posts, progress_updates in *.
    rewrite !List.filter_app, !length_app. simpl. split_and!; auto; try lia.
    + unfold total. simpl. lia.
    + intros Hd. congruence.
Qed.

Lemma for_each_import_rows (dry_run : bool) (rows : list Row) :
  forall (stats : Stats) (w : World S),
  exists stats' t s',
    for_each rows stats (import_row POST_entity dry_run) w
    = (Ok stats', {| srv := s'; trace := trace w ++ t |})
    /\ total stats' = (total stats + length rows)%nat
    /\ (posts t <= length rows)%nat /\ progress_updates t = length rows
    /\ (dry_run = true -> posts t = 0%nat /\ s' = srv w
                          /\ skipped stats' = skipped stats).
Proof.
  induction rows as [|row rows IH]; intros stats w.
  - exists stats, [], (srv w). simpl. unfold ret. rewrite app_nil_r.
    destruct w. split_and!; auto; lia.
  - destruct (import_row_counts dry_run stats row w)
      as (stats1 & t1 & s1 & Hrow & Htotal1 & Hposts1 & Hprog1 & Hdry1).
    destruct (IH stats1 {| srv := s1; trace := trace w ++ t1 |})
      as (stats2 & t2 & s2 & Hrest & Htotal2 & Hposts2 & Hprog2 & Hdry2).
    exists stats2, (t1 ++ t2), s2. cbn [for_each]. unfold bind at 1.
    rewrite Hrow, Hrest. cbn [srv trace]. rewrite <- app_assoc.
    unfold posts, progress_updates in *.
    rewrite !List.filter_app, !length_app. cbn [length].
    split_and!; auto; try lia.
    intros Hd. destruct (Hdry1 Hd) as (? & -> & ?). destruct (Hdry2 Hd) as (? & -> & ?).
    split_and!; [lia|reflexivity|congruence].
Qed.

(** bulk_import, lines 158-160, with create_entity, lines 94-96: when
    session.post hands back a 409 for a valid row, the row is counted as
    skipped, not as an error, and no pause follows; the conflict is logged
    at debug level only, so that nothing about it is written. *)
Theorem conflict_counted_as_skipped (stats : Stats) (row : Row) (w : World S) (r : Reply) :
  valid row ->
  fst (POST_entity (entity_type_of row) row (srv w)) = Answered r ->
  status_code r = 409%nat ->
  import_row POST_entity false stats row w
  = (Ok (bump_skipped stats),
     {| srv := snd (POST_entity (entity_type_of row) row (srv w));
        trace := trace w ++ [Post (entity_type_of row) row;
                             ProgressUpdate (bump_skipped stats)] |}).
Proof.
  intros Hvalid Hreply Hstatus.
  unfold import_row, try_except. unfold bind at 1.
  rewrite (import_row_try_valid stats row w Hvalid). unfold bind at 1.
  rewrite (create_entity_valid row w Hvalid). cbn zeta. rewrite Hreply, Hstatus.
  cbn [Nat.eqb srv trace]. rewrite bool_decide_eq_true_2
    by (rewrite lookup_insert; case_decide; congruence).
  cbv [bind emit ret]. cbn [srv trace]. rewrite <- !app_assoc. reflexivity.
Qed.

(** bulk_import, lines 166-169, with create_entity, lines 87-99: when
    session.post raises for a valid row (a transport failure, or the
    RetryError of the adapter), or hands back a status from 400 to 599 that
    is neither 409 nor one the adapter retries, or a body that is not JSON,
    the row is counted as one error, the script pauses, and the loop goes on
    with the next row; the error is logged at debug level only, so that
    nothing about it is written. *)
Theorem failed_request_counted_as_error (stats : Stats) (row : Row) (w : World S) :
  valid row ->
  ((exists e, fst (POST_entity (entity_type_of row) row (srv w)) = Failed e)
   \/ exists r, fst (POST_entity (entity_type_of row) row (srv w)) = Answered r
                /\ status_code r <> 409%nat
                /\ (status_code r ∉ STATUS_FORCELIST)
                /\ ((400 <= status_code r < 600)%nat \/ json r = None)) ->
  import_row POST_entity false stats row w
  = (Ok (bump_errors stats),
     {| srv := snd (POST_entity (entity_type_of row) row (srv w));
        trace := trace w ++ [Post (entity_type_of row) row;
                             Sleep_half_second;
                             ProgressUpdate (bump_errors stats)] |}).
Proof.
  intros Hvalid Hreply.
  unfold import_row, try_except. unfold bind at 1.
  rewrite (import_row_try_valid stats row w Hvalid). unfold bind at 1.
  rewrite (create_entity_valid row w Hvalid). cbn zeta.
  destruct Hreply as [[e Hreply]|(r & Hreply & H409 & _ & Hbad)]; rewrite Hreply.
  - cbv [any_Exception bind]. rewrite log_debug. cbv [emit ret]. cbn [srv trace].
    rewrite <- !app_assoc. reflexivity.
  - apply Nat.eqb_neq in H409. rewrite H409.
    destruct ((400 <=? status_code r) && (status_code r <? 600))%nat eqn:Hrange.
    + cbv [any_Exception bind]. rewrite log_debug. cbv [emit ret]. cbn [srv trace].
      rewrite <- !app_assoc. reflexivity.
    + destruct Hbad as [Hbad|Hjson].
      { apply andb_false_iff in Hrange as [Hr|Hr];
          [apply Nat.leb_gt in Hr|apply Nat.ltb_ge in Hr]; lia. }
      rewrite Hjson.
      cbv [any_Exception bind]. rewrite log_debug. cbv [emit ret]. cbn [srv trace].
      rewrite <- !app_assoc. reflexivity.
Qed.

(** bulk_import, lines 144-152: a row whose type is missing or unknown, or
    that lacks a required field, is never sent, in a dry run or not: one
    warning is logged, the row is counted as one error and the service is
    left untouched. *)
Theorem invalid_row_never_sent (dry_run : bool) (stats : Stats) (row : Row) (w : World S) :
  ~ valid row ->
  exists warning,
    import_row POST_entity dry_run stats row w
    = (Ok (bump_errors stats),
       {| srv := srv w;
          trace := trace w ++ [warning; ProgressUpdate (bump_errors stats)] |})
    /\ (warning = LogInvalidType (row !! "type")
        \/ exists missing, warning = LogMissingFields missing (row !! "name")).
Proof.
  intros Hinvalid. unfold import_row, try_except. unfold bind at 1.
  unfold import_row_try. fold (entity_type_of row).
  destruct (negb (truthy_str (entity_type_of row))
            || bool_decide (CSV_FIELDS !! entity_type_of row = None)) eqn:Hty.
  { eexists. split; [|left; reflexivity].
    cbv [bind]. rewrite log_written by discriminate.
    cbv [emit ret]. cbn [srv trace]. rewrite <- !app_assoc. reflexivity. }
  apply orb_false_iff in Hty as [Htruthy Hsome].
  apply negb_false_iff in Htruthy. apply bool_decide_eq_false in Hsome.
  destruct (CSV_FIELDS !! entity_type_of row) as [required|] eqn:Hreq; [|congruence].
  unfold validate_row. rewrite Hreq.
  destruct (missing_fields required row) as [|field missing] eqn:Hmiss.
  { destruct Hinvalid. split; [assumption|eauto]. }
  eexists. split; [|right; eexists; reflexivity].
  cbv [bind lift emit_all emit ret]. cbn [srv trace negb truthy_list].
  rewrite <- !app_assoc. reflexivity.
Qed.

End ImportRun.

Section Run.

Context {S : Type}.
Variable POST_login : S -> Outcome * S.
Variable POST_entity : string -> string -> Row -> S -> Outcome * S.

(** The generator hands the loop the normalised rows, one by one. *)
Lemma normalised_rows (body : Stats -> Row -> M (World S) Stats) (raws : list RawRow) :
  Forall well_formed raws ->
  exists rows,
    length rows = length raws
    /\ forall stats w,
         for_each raws stats (fun stats raw =>
           let! row := lift (normalise raw ∅) in body stats row) w
         = for_each rows stats body w.
Proof.
  induction 1 as [|raw raws [row Hrow] _ (rows & Hlen & IH)].
  - exists []. split; [reflexivity|]. reflexivity.
  - exists (row :: rows). split; [simpl; rewrite Hlen; reflexivity|].
    intros stats w. cbn [for_each]. unfold bind at 1. unfold bind at 1.
    unfold lift. rewrite Hrow. unfold bind at 2.
    destruct (body stats row w) as [[stats'| | |] w1]; [apply IH|reflexivity..].
Qed.

(** bulk_import, lines 128-185: once the login has gone through, and
    provided every line of the file has as many fields as the header, the
    import ends normally whatever the rows hold and whatever the API does
    with them: every row is counted in exactly one of success, errors and
    skipped, the progress bar is updated once per row, session.post is
    called at most once per row, and the final statistics are logged. *)
Theorem every_row_counted_once (raws : list RawRow) (dry_run : bool)
    (w : World S) (token : string) (w0 : World S) :
  authenticate POST_login w = (Ok token, w0) ->
  Forall well_formed raws ->
  exists stats t s',
    bulk_import POST_login POST_entity raws dry_run w
    = (Ok stats, {| srv := s'; trace := trace w0 ++ t ++ [LogFinalStatistics stats] |})
    /\ (success stats + errors stats + skipped stats)%nat = length raws
    /\ progress_updates t = length raws
    /\ (posts t <= length raws)%nat.
Proof.
  intros Hlogin Hwf. unfold bulk_import.
  rewrite (CallerProofs.bind_ok _ _ _ _ _ Hlogin).
  destruct (normalised_rows (import_row (POST_entity token) dry_run) raws Hwf)
    as (rows & Hlen & Hrows).
  destruct (for_each_import_rows (POST_entity token) dry_run rows
              {| success := 0; errors := 0; skipped := 0 |} w0)
    as (stats & t & s' & Hrun & Htotal & Hposts & Hprog & _).
  exists stats, t, s'. unfold bind at 1. rewrite Hrows, Hrun.
  cbv [bind]. rewrite log_written by discriminate. cbv [emit ret]. cbn [srv trace].
  rewrite <- app_assoc. unfold total in Htotal. simpl in Htotal.
  split_and!; auto; lia.
Qed.

(** bulk_import with dry_run set: the login of line 130 is the only call of
    session.post -- no entity is posted and the service stays as the login
    left it -- and no row is counted as skipped. *)
Theorem dry_run_posts_no_entity (raws : list RawRow) (w : World S)
    (token : string) (w0 : World S) :
  authenticate POST_login w = (Ok token, w0) ->
  Forall well_formed raws ->
  exists stats t,
    bulk_import POST_login POST_entity raws true w
    = (Ok stats,
       {| srv := srv w0; trace := trace w0 ++ t ++ [LogFinalStatistics stats] |})
    /\ posts t = 0%nat
    /\ (success stats + errors stats)%nat = length raws
    /\ skipped stats = 0%nat.
Proof.
  intros Hlogin Hwf. unfold bulk_import.
  rewrite (CallerProofs.bind_ok _ _ _ _ _ Hlogin).
  destruct (normalised_rows (import_row (POST_entity token) true) raws Hwf)
    as (rows & Hlen & Hrows).
  destruct (for_each_import_rows (POST_entity token) true rows
              {| success := 0; errors := 0; skipped := 0 |} w0)
    as (stats & t & s' & Hrun & Htotal & _ & _ & Hdry).
  destruct (Hdry eq_refl) as (Hposts & -> & Hskip).
  exists stats, t. unfold bind at 1. rewrite Hrows, Hrun.
  cbv [bind]. rewrite log_written by discriminate. cbv [emit ret]. cbn [srv trace].
  rewrite <- app_assoc. unfold total in Htotal. simpl in Htotal, Hskip.
  split_and!; auto; lia.
Qed.

(** bulk_import, line 130 with lines 59-71: a login that session.post
    hands back with a status from 400 to 599 (one the adapter does not
    retry) ends the import with HTTPError before any row is read, in a dry
    run as well. *)
Theorem refused_login_aborts_import (raws : list RawRow) (dry_run : bool)
    (w : World S) (r : Reply) :
  fst (POST_login (srv w)) = Answered r ->
  (400 <= status_code r < 600)%nat ->
  status_code r ∉ STATUS_FORCELIST ->
  bulk_import POST_login POST_entity raws dry_run w
  = (Raise (HTTPError (status_code r)),
     {| srv := snd (POST_login (srv w)); trace := trace w ++ [Login] |}).
Proof.
  intros Hreply Hrange _. unfold bulk_import, authenticate.
  cbv [bind emit]. cbn [srv trace].
  destruct (POST_login (srv w)) as [o s']. simpl in Hreply. subst o.
  replace ((400 <=? status_code r) && (status_code r <? 600))%nat with true.
  2:{ symmetry. apply andb_true_iff. split;
        [apply Nat.leb_le|apply Nat.ltb_lt]; lia. }
  reflexivity.
Qed.


End Run.

Ltac all_well_formed :=
  repeat (constructor; [eexists; reflexivity|]); try constructor.

Lemma conflict_counted_as_skipped_witness :
  valid acme
  /\ import_row conflicting false {| success := 0; errors := 0; skipped := 0 |}
       acme ImportExamples.fresh
     = (Ok {| success := 0; errors := 0; skipped := 1 |},
        {| srv := tt;
           trace := [Post "client" acme;
                     ProgressUpdate {| success := 0; errors := 0; skipped := 1 |}] |}).
Proof.
  assert (Hvalid : valid acme).
  { split; [reflexivity|]. exists ["name"]. split; vm_compute; reflexivity. }
  split; [exact Hvalid|].
  refine (conflict_counted_as_skipped conflicting
            {| success := 0; errors := 0; skipped := 0 |} acme ImportExamples.fresh
            {| status_code := 409; json := None |} Hvalid _ _); reflexivity.
Defined.

Lemma failed_request_counted_as_error_witness :
  valid acme
  /\ import_row not_found false {| success := 0; errors := 0; skipped := 0 |}
       acme ImportExamples.fresh
     = (Ok {| success := 0; errors := 1; skipped := 0 |},
        {| srv := tt;
           trace := [Post "client" acme; Sleep_half_second;
                     ProgressUpdate {| success := 0; errors := 1; skipped := 0 |}] |}).
Proof.
  assert (Hvalid : valid acme).
  { split; [reflexivity|]. exists ["name"]. split; vm_compute; reflexivity. }
  split; [exact Hvalid|].
  refine (failed_request_counted_as_error not_found
            {| success := 0; errors := 0; skipped := 0 |} acme ImportExamples.fresh
            Hvalid _).
  right. exists {| status_code := 404; json := None |}. simpl.
  split_and!; [reflexivity|lia| |left; lia].
  unfold STATUS_FORCELIST. rewrite !elem_of_cons, elem_of_nil. lia.
Defined.

Lemma invalid_row_never_sent_witness :
  ~ valid mystery
  /\ exists warning,
      import_row ImportExamples.obliging false {| success := 0; errors := 0; skipped := 0 |}
        mystery ImportExamples.fresh
      = (Ok {| success := 0; errors := 1; skipped := 0 |},
         {| srv := tt;
            trace := [warning;
                      ProgressUpdate {| success := 0; errors := 1; skipped := 0 |}] |})
      /\ (warning = LogInvalidType (mystery !! "type")
          \/ exists missing, warning = LogMissingFields missing (mystery !! "name")).
Proof.
  assert (Hinvalid : ~ valid mystery).
  { intros [_ (required & Hreq & _)]. vm_compute in Hreq. discriminate. }
  split; [exact Hinvalid|].
  exact (invalid_row_never_sent ImportExamples.obliging false
           {| success := 0; errors := 0; skipped := 0 |} mystery ImportExamples.fresh
           Hinvalid).
Defined.

(** Three lines, the second without a name, against a service that creates
    what it is asked to. *)
Lemma every_row_counted_once_witness :
  exists stats t s',
    bulk_import ImportExamples.welcoming (fun _ => ImportExamples.obliging)
      [ImportExamples.line "client" "Acme"; ImportExamples.line "client" "";
       ImportExamples.line "Client" " Zenith "]
      false ImportExamples.fresh
    = (Ok stats, {| srv := s'; trace := [Login] ++ t ++ [LogFinalStatistics stats] |})
    /\ (success stats + errors stats + skipped stats)%nat = 3%nat
    /\ progress_updates t = 3%nat
    /\ (posts t <= 3)%nat.
Proof.
  refine (every_row_counted_once ImportExamples.welcoming (fun _ => ImportExamples.obliging)
            [ImportExamples.line "client" "Acme"; ImportExamples.line "client" "";
             ImportExamples.line "Client" " Zenith "]
            false ImportExamples.fresh "t0" {| srv := tt; trace := [Login] |} _ _).
  - reflexivity.
  - all_well_formed.
Defined.

Lemma dry_run_posts_no_entity_witness :
  exists stats t,
    bulk_import ImportExamples.welcoming (fun _ => ImportExamples.obliging)
      [ImportExamples.line "client" "Acme"; ImportExamples.line "client" "";
       ImportExamples.line "Client" " Zenith "]
      true ImportExamples.fresh
    = (Ok stats, {| srv := tt; trace := [Login] ++ t ++ [LogFinalStatistics stats] |})
    /\ posts t = 0%nat
    /\ (success stats + errors stats)%nat = 3%nat
    /\ skipped stats = 0%nat.
Proof.
  refine (dry_run_posts_no_entity ImportExamples.welcoming
            (fun _ => ImportExamples.obliging)
            [ImportExamples.line "client" "Acme"; ImportExamples.line "client" "";
             ImportExamples.line "Client" " Zenith "]
            ImportExamples.fresh "t0" {| srv := tt; trace := [Login] |} _ _).
  - reflexivity.
  - all_well_formed.
Defined.

Lemma refused_login_aborts_import_witness :
  bulk_import unwelcoming (fun _ => ImportExamples.obliging)
    [ImportExamples.line "client" "Acme"] true ImportExamples.fresh
  = (Raise (HTTPError 401), {| srv := tt; trace := [Login] |}).
Proof.
  refine (refused_login_aborts_import unwelcoming (fun _ => ImportExamples.obliging)
            [ImportExamples.line "client" "Acme"] true ImportExamples.fresh
            {| status_code := 401; json := None |} _ _ _).
  - reflexivity.
  - simpl. lia.
  - unfold STATUS_FORCELIST. simpl. rewrite !elem_of_cons, elem_of_nil. lia.
Defined.


Example short_line_run :
  bulk_import ImportExamples.welcoming (fun _ => ImportExamples.obliging)
    [ImportExamples.line "client" "Acme"; short_line; ImportExamples.line "client" "Zenith"]
    false ImportExamples.fresh
  = (Raise AttributeError,
     {| srv := tt;
        trace := [Login; Post "client" (<["type" := "client"]> (<["name" := "Acme"]> ∅));
                  ProgressUpdate {| success := 1; errors := 0; skipped := 0 |}] |}).
Proof. vm_compute. reflexivity. Qed.

End ImportExtraProofs.
